(** * gosnmp: the walk engine and the SNMPv3 User Security Model

    A shallow embedding of [walk.go] and of the key-derivation, salt,
    authentication and decryption paths of [v3_usm.go], followed by the
    properties established for them.

    Conventions of the embedding
    - Go [string] is [string]; Go [[]byte] is [list byte]; the conversions
      [[]byte(s)] and [string(b)] are [list_byte_of_string] and
      [string_of_list_byte].  A nil slice and an empty slice are both [[]];
      the one place that tells them apart says so.
    - Fixed-width unsigned integers are [Z] with the wrap-around written out.
    - A Go [(value, error)] return is a [result] where the value is only
      read on success, and a pair of the value and an optional error where
      the code returns both; a run-time panic (slice out of bounds, write
      to a nil map) is the [Panic] outcome where it can occur.
    - Package-level variables and objects reached through pointers are
      threaded as explicit state.
    - Calls to [Logger] are not modelled: they do not affect any result.
    - Mutexes and atomics are modelled by their sequential meaning. *)

From Stdlib Require Import ZArith List String Ascii Bool Lia.
From Stdlib Require Import Strings.Byte.
From stdpp Require Import base option gmap strings list pretty.
Import ListNotations.

Open Scope string_scope.
Open Scope list_scope.
Open Scope Z_scope.

(** ** Common vocabulary *)

(** Go's [error] values are compared here by their message. *)
Definition error := string.

(** A Go [(value, error)] return. *)
Inductive result (A : Type) : Type :=
| Ok (a : A)
| Err (e : error).
Arguments Ok {A} a.
Arguments Err {A} e.

(** [strings.HasPrefix(s, prefix)]. *)
Definition HasPrefix (s prefix : string) : bool := String.prefix prefix s.

(** ** The PDU model, as far as the walk engine and the USM read it *)

(** Modelled from the spec: [Asn1BER], the type tag of a variable binding,
    is declared in another file of the package; its values are the closed
    set of the data model. *)
Inductive Asn1BER : Type :=
| Boolean | Integer | BitString | OctetString | Null | ObjectIdentifier
| IPAddress | Counter32 | Gauge32 | TimeTicks | Opaque | Counter64
| Uinteger32 | OpaqueFloat | OpaqueDouble
| NoSuchObject | NoSuchInstance | EndOfMibView.

Definition Asn1BER_eqb (a b : Asn1BER) : bool :=
  match a, b with
  | Boolean, Boolean | Integer, Integer | BitString, BitString
  | OctetString, OctetString | Null, Null
  | ObjectIdentifier, ObjectIdentifier | IPAddress, IPAddress
  | Counter32, Counter32 | Gauge32, Gauge32 | TimeTicks, TimeTicks
  | Opaque, Opaque | Counter64, Counter64 | Uinteger32, Uinteger32
  | OpaqueFloat, OpaqueFloat | OpaqueDouble, OpaqueDouble
  | NoSuchObject, NoSuchObject | NoSuchInstance, NoSuchInstance
  | EndOfMibView, EndOfMibView => true
  | _, _ => false
  end.

(** Modelled from the spec: [SnmpPDU], a variable binding, is declared in
    another file of the package.  [Value] is an [interface{}] the walk
    never inspects; an integer payload stands for it. *)
Record SnmpPDU : Type := mkPDU {
  Name : string;
  Type_ : Asn1BER;
  Value : Z
}.

(** Modelled from the spec: the PDU type tags ([PDUType] is a byte), declared
    in another file of the package. *)
Definition PDUType := Z.
Definition GetRequest : PDUType := 0xA0.
Definition GetNextRequest : PDUType := 0xA1.
Definition GetResponse : PDUType := 0xA2.
Definition SetRequest : PDUType := 0xA3.
Definition GetBulkRequest : PDUType := 0xA5.

(** Modelled from the spec: the error-status codes ([SNMPError] is a uint8),
    declared in another file of the package, [NoError] = 0 through
    [InconsistentName] = 18. *)
Definition SNMPError := Z.
Definition NoError : SNMPError := 0.
Definition TooBig : SNMPError := 1.
Definition NoSuchName : SNMPError := 2.
Definition BadValue : SNMPError := 3.
Definition ReadOnly : SNMPError := 4.
Definition GenErr : SNMPError := 5.
Definition NoAccess : SNMPError := 6.
Definition WrongType : SNMPError := 7.
Definition WrongLength : SNMPError := 8.
Definition WrongEncoding : SNMPError := 9.
Definition WrongValue : SNMPError := 10.
Definition NoCreation : SNMPError := 11.
Definition InconsistentValue : SNMPError := 12.
Definition ResourceUnavailable : SNMPError := 13.
Definition CommitFailed : SNMPError := 14.
Definition UndoFailed : SNMPError := 15.
Definition AuthorizationError : SNMPError := 16.
Definition NotWritable : SNMPError := 17.
Definition InconsistentName : SNMPError := 18.

(** Modelled from the spec: the message flags of a v3 packet
    ([SnmpV3MsgFlags] is a uint8), declared in another file of the package;
    bit 0 = authenticated, bit 1 = encrypted, bit 2 = reportable. *)
Definition SnmpV3MsgFlags := Z.
Definition NoAuthNoPriv : SnmpV3MsgFlags := 0.
Definition AuthNoPriv : SnmpV3MsgFlags := 1.
Definition AuthPriv : SnmpV3MsgFlags := 3.
Definition Reportable : SnmpV3MsgFlags := 4.

(** Objects reached through a pointer live in a store, so that two
    references to one object see each other's writes. *)
Definition loc := nat.

(** Modelled from the spec: the interface [SnmpV3SecurityParameters] is
    declared in another file of the package.  A value of it held by a
    packet is a pointer to a USM parameter block, a nil
    [*UsmSecurityParameters], or anything else (the nil interface, another
    security model). *)
Inductive SnmpV3SecurityParameters : Type :=
| UsmPtr (p : loc)
| UsmNilPtr
| NotUsm.

(** Modelled from the spec: [SnmpPacket] is declared in another file of the
    package; these are the fields read by the code embedded here. *)
Record SnmpPacket : Type := mkPacket {
  Variables : list SnmpPDU;
  Error : SNMPError;
  MsgFlags : SnmpV3MsgFlags;
  SecurityParameters : SnmpV3SecurityParameters
}.

(** ** The walk engine ([walk.go]) *)

Module Walk.

(** Modelled from the spec: [GoSNMP], the session, is declared in another
    file of the package; these are the fields the walk reads.  [AppOpts]
    is a [map[string]interface{}]; [None] is the nil map. *)
Record GoSNMP : Type := mkGoSNMP {
  MaxRepetitions : Z;
  AppOpts : option (gmap string Z)
}.

(** The exchange methods of the session, which live outside [walk.go]:
    each call may change the state [T] of the session and of the agent
    behind it, and yields a response or an error. *)
Class Transport (T : Type) : Type := {
  Get : T -> list string -> T * result SnmpPacket;
  GetNext : T -> list string -> T * result SnmpPacket;
  GetBulk : T -> list string -> Z -> Z -> T * result SnmpPacket;
  defaultMaxRepetitions : Z
}.

(** The visitor [walkFn]: a closure over state [V] that may fail. *)
Definition WalkFunc (V : Type) : Type := V -> SnmpPDU -> V * option error.

(** How the range loop over [response.Variables] leaves a round. *)
Inductive RoundExit (V : Type) : Type :=
| BreakLoop (v : V)                 (* break RequestLoop *)
| RetryAsGet (v : V)                (* getRequestType = GetRequest; continue RequestLoop *)
| ReturnErr (v : V) (e : error)     (* return err *)
| NextRound (v : V).                (* the range loop ran to its end *)
Arguments BreakLoop {V} v.
Arguments RetryAsGet {V} v.
Arguments ReturnErr {V} v e.
Arguments NextRound {V} v.

(** Line 130: the three value types that end the walk. *)
Definition isEndType (t : Asn1BER) : bool :=
  Asn1BER_eqb t EndOfMibView || Asn1BER_eqb t NoSuchObject
  || Asn1BER_eqb t NoSuchInstance.

(** Line 134: [strings.HasPrefix(pdu.Name, rootOid+".")]. *)
Definition inRange (rootOid : string) (pdu : SnmpPDU) : bool :=
  HasPrefix (Name pdu) (rootOid +:+ ".").

(** [len(vars)] as a Go [int]. *)
Definition len_Z {A : Type} (l : list A) : Z := Z.of_nat (length l).

Section walk.
Context {T V : Type} `{Transport T}.
Variable walkFn : WalkFunc V.

(** The body of [for i, pdu := range response.Variables], lines 129-162,
    from index [i] on. *)
Fixpoint rangeVariables (rootOid oid : string) (requests : Z)
    (checkIncreasing : bool) (i : Z) (vars : list SnmpPDU) (v : V)
    : RoundExit V :=
  match vars with
  | [] => NextRound v
  | pdu :: rest =>
    if isEndType (Type_ pdu) then BreakLoop v
    else if negb (inRange rootOid pdu) then
      if (requests =? 1) && (i =? 0) then RetryAsGet v
      else if String.eqb (Name pdu) rootOid
              && negb (Asn1BER_eqb (Type_ pdu) NoSuchInstance) then
        match walkFn v pdu with
        | (v', Some e) => ReturnErr v' e
        | (v', None) => BreakLoop v'
        end
      else BreakLoop v
    else if checkIncreasing && String.eqb (Name pdu) oid then
      ReturnErr v ("OID not increasing: " +:+ Name pdu)
    else
      match walkFn v pdu with
      | (v', Some e) => ReturnErr v' e
      | (v', None) =>
        rangeVariables rootOid oid requests checkIncreasing (i + 1) rest v'
      end
  end.

(** Lines 52-61: the request of one round. *)
Definition request (getRequestType : PDUType) (oid : string) (maxReps : Z)
    (t : T) : T * result SnmpPacket :=
  if getRequestType =? GetBulkRequest then GetBulk t [oid] 0 maxReps
  else if getRequestType =? GetNextRequest then GetNext t [oid]
  else if getRequestType =? GetRequest then Get t [oid]
  else (t, Err ("unsupported request type: " +:+ pretty getRequestType)).

(** Lines 70-127: the error-status codes that end the walk. *)
Definition stopsOnError (e : SNMPError) : bool :=
  (e =? TooBig) || (e =? NoSuchName) || (e =? BadValue) || (e =? ReadOnly)
  || (e =? GenErr) || (e =? NoAccess) || (e =? WrongType)
  || (e =? WrongLength) || (e =? WrongEncoding) || (e =? WrongValue)
  || (e =? NoCreation) || (e =? InconsistentValue)
  || (e =? ResourceUnavailable) || (e =? CommitFailed) || (e =? UndoFailed)
  || (e =? AuthorizationError) || (e =? NotWritable)
  || (e =? InconsistentName).

(** [response.Variables[len(response.Variables)-1].Name], line 164; the
    list is not empty there. *)
Definition lastName (vars : list SnmpPDU) (dflt : string) : string :=
  match List.last (map Some vars) None with
  | Some pdu => Name pdu
  | None => dflt
  end.

(** [RequestLoop], lines 45-165.  [requests] is the counter before the
    increment of line 47.  The loop has no bound of its own (an agent may
    answer for ever), so the model counts rounds down from [fuel] and
    yields [None] when they run out; otherwise the final session state,
    the final visitor state and the returned error ([None] is nil). *)
Fixpoint RequestLoop (fuel : nat) (rootOid : string) (maxReps : Z)
    (checkIncreasing : bool) (getRequestType : PDUType) (oid : string)
    (requests : Z) (t : T) (v : V) : option (T * V * option error) :=
  match fuel with
  | O => None
  | S fuel' =>
    let requests := requests + 1 in
    match request getRequestType oid maxReps t with
    | (t', Err e) => Some (t', v, Some e)
    | (t', Ok response) =>
      match Variables response with
      | [] => Some (t', v, None)
      | _ :: _ =>
        if stopsOnError (Error response) then Some (t', v, None)
        else
          match rangeVariables rootOid oid requests checkIncreasing 0
                  (Variables response) v with
          | BreakLoop v' => Some (t', v', None)
          | ReturnErr v' e => Some (t', v', Some e)
          | RetryAsGet v' =>
            RequestLoop fuel' rootOid maxReps checkIncreasing GetRequest
              oid requests t' v'
          | NextRound v' =>
            RequestLoop fuel' rootOid maxReps checkIncreasing getRequestType
              (lastName (Variables response) oid) requests t' v'
          end
      end
    end
  end.

(** Lines 18-26: the normalised root. *)
Definition normalizeRoot (rootOid : string) : string :=
  let rootOid :=
    if String.eqb rootOid "" || String.eqb rootOid "." then ".1.3.6.1"
    else rootOid in
  if negb (HasPrefix rootOid ".") then "." +:+ rootOid else rootOid.

(** Lines 30-33. *)
Definition walkMaxReps (x : GoSNMP) : Z :=
  if MaxRepetitions x =? 0 then defaultMaxRepetitions else MaxRepetitions x.

(** Lines 35-43: AppOpt 'c'. *)
Definition checkIncreasingOf (x : GoSNMP) (getRequestType : PDUType) : bool :=
  match AppOpts x with
  | Some opts =>
    match opts !! "c" with
    | Some _ =>
      if (getRequestType =? GetBulkRequest)
         || (getRequestType =? GetNextRequest)
      then false else true
    | None => true
    end
  | None => true
  end.

(** [func (x *GoSNMP) walk(getRequestType, rootOid, walkFn) error]. *)
Definition walk (fuel : nat) (x : GoSNMP) (getRequestType : PDUType)
    (rootOid : string) (t : T) (v : V) : option (T * V * option error) :=
  let rootOid := normalizeRoot rootOid in
  RequestLoop fuel rootOid (walkMaxReps x)
    (checkIncreasingOf x getRequestType) getRequestType rootOid 0 t v.

End walk.

(** [walkAll]: the visitor that collects every varbind it is given. *)
Definition collect : WalkFunc (list SnmpPDU) :=
  fun results dataUnit => (results ++ [dataUnit], None).

Definition walkAll {T : Type} `{Transport T} (fuel : nat) (x : GoSNMP)
    (getRequestType : PDUType) (rootOid : string) (t : T)
    : option (T * list SnmpPDU * option error) :=
  walk collect fuel x getRequestType rootOid t [].

End Walk.

(** ** The User Security Model ([v3_usm.go]) *)

Module USM.

(** *** Bytes, slices and panics *)

(** A call either completes or panics (index or slice out of range, write
    to a nil map, method call through a nil pointer). *)
Inductive outcome (A : Type) : Type :=
| Done (a : A)
| Panic.
Arguments Done {A} a.
Arguments Panic {A}.

(** [len(s)] as a Go [int]. *)
Definition len {A : Type} (s : list A) : Z := Z.of_nat (length s).

(** [byte(z)] for an integer [z]: the low eight bits. *)
Definition byte_of_Z (z : Z) : byte :=
  match Byte.of_N (Z.to_N (z mod 256)) with
  | Some b => b
  | None => x00
  end.

Definition Z_of_byte (b : byte) : Z := Z.of_N (Byte.to_N b).

(** [a ^ b] on bytes. *)
Definition byte_xor (a b : byte) : byte :=
  byte_of_Z (Z.lxor (Z_of_byte a) (Z_of_byte b)).

(** [s[:j]] and [s[i:]].  Capacities are not tracked: re-slicing past the
    length is the panic outcome. *)
Definition slice_to (s : list byte) (j : Z) : outcome (list byte) :=
  if (0 <=? j) && (j <=? len s) then Done (firstn (Z.to_nat j) s) else Panic.

Definition slice_from (s : list byte) (i : Z) : outcome (list byte) :=
  if (0 <=? i) && (i <=? len s) then Done (skipn (Z.to_nat i) s) else Panic.

(** [copy(dst, src)]: the contents of [dst] afterwards. *)
Definition copy (dst src : list byte) : list byte :=
  firstn (length dst) src ++ skipn (length src) dst.

(** [binary.BigEndian.PutUint32] and [PutUint64] into a fresh buffer. *)
Definition PutUint32 (v : Z) : list byte :=
  [byte_of_Z (Z.shiftr v 24); byte_of_Z (Z.shiftr v 16);
   byte_of_Z (Z.shiftr v 8); byte_of_Z v].

Definition PutUint64 (v : Z) : list byte :=
  [byte_of_Z (Z.shiftr v 56); byte_of_Z (Z.shiftr v 48);
   byte_of_Z (Z.shiftr v 40); byte_of_Z (Z.shiftr v 32);
   byte_of_Z (Z.shiftr v 24); byte_of_Z (Z.shiftr v 16);
   byte_of_Z (Z.shiftr v 8); byte_of_Z v].

(** [subtle.ConstantTimeCompare(x, y)]: 1 when the two slices have equal
    length and equal contents, 0 otherwise. *)
Fixpoint bytes_eqb (x y : list byte) : bool :=
  match x, y with
  | [], [] => true
  | a :: x', b :: y' => Byte.eqb a b && bytes_eqb x' y'
  | _, _ => false
  end.

Definition ConstantTimeCompare (x y : list byte) : Z :=
  if bytes_eqb x y then 1 else 0.

(** *** Protocol identifiers *)

(** [SnmpV3AuthProtocol] is a uint8. *)
Definition SnmpV3AuthProtocol := Z.
Definition NoAuth : SnmpV3AuthProtocol := 1.
Definition MD5 : SnmpV3AuthProtocol := 2.
Definition SHA : SnmpV3AuthProtocol := 3.
Definition SHA224 : SnmpV3AuthProtocol := 4.
Definition SHA256 : SnmpV3AuthProtocol := 5.
Definition SHA384 : SnmpV3AuthProtocol := 6.
Definition SHA512 : SnmpV3AuthProtocol := 7.

(** [SnmpV3PrivProtocol] is a uint8. *)
Definition SnmpV3PrivProtocol := Z.
Definition NoPriv : SnmpV3PrivProtocol := 1.
Definition DES : SnmpV3PrivProtocol := 2.
Definition AES : SnmpV3PrivProtocol := 3.
Definition AES192 : SnmpV3PrivProtocol := 4.
Definition AES256 : SnmpV3PrivProtocol := 5.
Definition AES192C : SnmpV3PrivProtocol := 6.
Definition AES256C : SnmpV3PrivProtocol := 7.

(** The values of a uint8. *)
Definition is_uint8 (z : Z) : Prop := 0 <= z < 256.

(** [crypto.Hash], as far as it is used. *)
Inductive crypto_Hash : Type :=
| crypto_MD5 | crypto_SHA1 | crypto_SHA224
| crypto_SHA256 | crypto_SHA384 | crypto_SHA512.

(** [func (authProtocol SnmpV3AuthProtocol) HashType() crypto.Hash]. *)
Definition HashType (authProtocol : SnmpV3AuthProtocol) : crypto_Hash :=
  if authProtocol =? SHA then crypto_SHA1
  else if authProtocol =? SHA224 then crypto_SHA224
  else if authProtocol =? SHA256 then crypto_SHA256
  else if authProtocol =? SHA384 then crypto_SHA384
  else if authProtocol =? SHA512 then crypto_SHA512
  else crypto_MD5.

(** Modelled from the spec: [byte(OctetString)], the BER tag of an octet
    string, declared in another file of the package; it opens every entry
    of [macVarbinds]. *)
Definition OctetString_tag : byte := x04.

(** [macVarbinds]: for each protocol the zeroed placeholder of its MAC. *)
Definition macVarbinds : list (list byte) :=
  [ [];
    [OctetString_tag; x00];
    OctetString_tag :: byte_of_Z 12 :: repeat x00 12;
    OctetString_tag :: byte_of_Z 12 :: repeat x00 12;
    OctetString_tag :: byte_of_Z 16 :: repeat x00 16;
    OctetString_tag :: byte_of_Z 24 :: repeat x00 24;
    OctetString_tag :: byte_of_Z 32 :: repeat x00 32;
    OctetString_tag :: byte_of_Z 48 :: repeat x00 48 ].

(** *** The library primitives the file calls *)

(** The message digests, HMAC and the block-cipher modes of Go's [crypto]
    packages, [parseLength] of the BER codec, and the generated [String]
    method of the privacy protocols are used, not defined, by
    [v3_usm.go]. *)
Class Primitives : Type := {
  (** the digest of a byte string under a hash *)
  digest : crypto_Hash -> list byte -> list byte;
  (** [hmac.New(h, key)], [Write(msg)], [Sum(nil)] *)
  hmac_sum : crypto_Hash -> list byte -> list byte -> list byte;
  (** the error, if any, of [des.NewCipher(key)] and of [aes.NewCipher(key)] *)
  des_NewCipher : list byte -> option error;
  aes_NewCipher : list byte -> option error;
  (** what CBC decryption under DES and CFB decryption under AES, with a
      key and an initialisation vector, write for a source *)
  des_cbc_decrypt : list byte -> list byte -> list byte -> list byte;
  aes_cfb_decrypt : list byte -> list byte -> list byte -> list byte;
  (** [parseLength(bytes)]: length, cursor, error *)
  parseLength : list byte -> Z * Z * option error;
  (** the [String] method that [stringer] generates for
      [SnmpV3PrivProtocol], which [%v] prints *)
  privProtocolString : SnmpV3PrivProtocol -> string
}.

(** A [hash.Hash] object: its algorithm and the bytes written so far.
    [Write] on a hash never fails. *)
Record hash_Hash : Type := mkHash {
  hash_alg : crypto_Hash;
  hash_written : list byte
}.

Definition hash_New (h : crypto_Hash) : hash_Hash := mkHash h [].

Definition hash_Write (h : hash_Hash) (p : list byte) : hash_Hash :=
  mkHash (hash_alg h) (hash_written h ++ p).

(** [h.Sum(nil)]. *)
Definition hash_Sum `{Primitives} (h : hash_Hash) : list byte :=
  digest (hash_alg h) (hash_written h).

(** *** Password to key *)

(** [password[pi%len(password)]]. *)
Definition passwordByte (password : string) (pi : Z) : byte :=
  nth (Z.to_nat (pi mod len (list_byte_of_string password)))
      (list_byte_of_string password) x00.

(** The inner loop [for e := 0; e < 64; e++] of [hashPassword], with [n]
    iterations left: the chunk and the password index afterwards. *)
Fixpoint fillChunk (n : nat) (password : string) (pi : Z) (chunk : list byte)
    : list byte * Z :=
  match n with
  | O => (chunk, pi)
  | S n' => fillChunk n' password (pi + 1) (chunk ++ [passwordByte password pi])
  end.

(** The outer loop [for i := 0; i < 1048576; i += 64], with at most [n]
    iterations left. *)
Fixpoint writeChunks (n : nat) (password : string) (i pi : Z) (h : hash_Hash)
    : hash_Hash :=
  match n with
  | O => h
  | S n' =>
    if i <? 1048576 then
      let '(chunk, pi') := fillChunk 64 password pi [] in
      writeChunks n' password (i + 64) pi' (hash_Write h chunk)
    else h
  end.

(** [func hashPassword(hash hash.Hash, password string) ([]byte, error)].
    The outer loop runs 1048576 / 64 times. *)
Definition hashPassword `{Primitives} (hash : hash_Hash) (password : string)
    : list byte * option error :=
  if len (list_byte_of_string password) =? 0 then
    ([], Some "hashPassword: password is empty")
  else
    let hash := writeChunks (Z.to_nat (1048576 / 64)) password 0 0 hash in
    (hash_Sum hash, None).

(** *** The process-wide password cache *)

(** [passwordKeyHashCache] ([None] is the nil map) and
    [passwordCacheDisable]. *)
Record Globals : Type := mkGlobals {
  passwordKeyHashCache : option (gmap string (list byte));
  passwordCacheDisable : bool
}.

(** The package-level initialisers. *)
Definition initialGlobals : Globals := mkGlobals (Some ∅) false.

(** [func PasswordCaching(enable bool)]. *)
Definition PasswordCaching (enable : bool) (g : Globals) : Globals :=
  let oldCacheEnable := negb (passwordCacheDisable g) in
  let cache :=
    if negb enable then None
    else if negb oldCacheEnable && enable then Some ∅
    else passwordKeyHashCache g in
  mkGlobals cache (negb enable).

(** Code that reads and writes a state [S] and may panic. *)
Definition State (S A : Type) : Type := S -> outcome (A * S).

Definition ret {S A : Type} (a : A) : State S A := fun s => Done (a, s).

Definition bind {S A B : Type} (m : State S A) (k : A -> State S B)
    : State S B :=
  fun s => match m s with
           | Done (a, s') => k a s'
           | Panic => Panic
           end.

Notation "'let*' x ':=' m 'in' k" := (bind m (fun x => k))
  (at level 10, x pattern, m at level 100, k at level 200).

(** Code over the package-level variables. *)
Definition M (A : Type) : Type := State Globals A.

(** [passwordCacheDisable.Load()]. *)
Definition loadDisable : M bool := fun g => Done (passwordCacheDisable g, g).

(** [passwordKeyHashCache[cacheKey]]: reading a nil map yields nil. *)
Definition cacheRead (cacheKey : string) : M (option (list byte)) :=
  fun g => Done (match passwordKeyHashCache g with
                 | Some m => m !! cacheKey
                 | None => None
                 end, g).

(** [passwordKeyHashCache[cacheKey] = hashed]: writing a nil map panics. *)
Definition cacheWrite (cacheKey : string) (hashed : list byte) : M unit :=
  fun g => match passwordKeyHashCache g with
           | Some m =>
             Done (tt, mkGlobals (Some (<[cacheKey := hashed]> m))
                                 (passwordCacheDisable g))
           | None => Panic
           end.

(** [func cachedPasswordToKey(hash, cacheKey, password) ([]byte, error)].
    The test [value != nil] fails for a missing key and for a stored nil
    slice; [hash.Sum(nil)] is nil exactly when the digest is empty. *)
Definition cachedPasswordToKey `{Primitives} (hash : hash_Hash)
    (cacheKey password : string) : M (list byte * option error) :=
  let* cacheDisable := loadDisable in
  let* hit :=
    if negb cacheDisable then cacheRead cacheKey else ret None in
  match hit with
  | Some (b :: value) => ret (b :: value, None)
  | _ =>
    match hashPassword hash password with
    | (_, Some err) => ret ([], Some err)
    | (hashed, None) =>
      let* _ := if negb cacheDisable then cacheWrite cacheKey hashed
                else ret tt in
      ret (hashed, None)
    end
  end.

(** [func hMAC(hash crypto.Hash, cacheKey, password, engineID)]. *)
Definition hMAC `{Primitives} (hash : crypto_Hash)
    (cacheKey password engineID : string) : M (list byte * option error) :=
  let* (hashed, err) := cachedPasswordToKey (hash_New hash) cacheKey password in
  match err with
  | Some _ => ret ([], None)
  | None =>
    let local := hash_New hash in
    let local := hash_Write local hashed in
    let local := hash_Write local (list_byte_of_string engineID) in
    let local := hash_Write local hashed in
    ret (hash_Sum local, None)
  end.

(** [func cacheKey(authProtocol, passphrase) string]: [make] yields
    [1+len(passphrase)] zero bytes, to which the two [append]s add the tag
    byte and the passphrase. *)
Definition cacheKey (authProtocol : SnmpV3AuthProtocol) (passphrase : string)
    : M string :=
  let* disabled := loadDisable in
  if disabled then ret ""
  else
    let cacheKey :=
      repeat x00 (1 + length (list_byte_of_string passphrase)) in
    let cacheKey := cacheKey ++ [byte_of_Z (104 + authProtocol)] in
    let cacheKey := cacheKey ++ list_byte_of_string passphrase in
    ret (string_of_list_byte cacheKey).

(** [func genlocalkey(authProtocol, passphrase, engineID)]. *)
Definition genlocalkey `{Primitives} (authProtocol : SnmpV3AuthProtocol)
    (passphrase engineID : string) : M (list byte * option error) :=
  let* ck := cacheKey authProtocol passphrase in
  let* (secretKey, err) :=
    hMAC (HashType authProtocol) ck passphrase engineID in
  match err with
  | Some e => ret ([], Some e)
  | None => ret (secretKey, None)
  end.

(** [func extendKeyReeder(authProtocol, password, engineID)]. *)
Definition extendKeyReeder `{Primitives} (authProtocol : SnmpV3AuthProtocol)
    (password engineID : string) : M (list byte * option error) :=
  let* ck := cacheKey authProtocol password in
  let* (key, err) := hMAC (HashType authProtocol) ck password engineID in
  match err with
  | Some e => ret ([], Some e)
  | None =>
    let* ck2 := cacheKey authProtocol (string_of_list_byte key) in
    let* (newkey, err) :=
      hMAC (HashType authProtocol) ck2 (string_of_list_byte key) engineID in
    ret (key ++ newkey, err)
  end.

(** [func extendKeyBlumenthal(authProtocol, password, engineID)]. *)
Definition extendKeyBlumenthal `{Primitives}
    (authProtocol : SnmpV3AuthProtocol) (password engineID : string)
    : M (list byte * option error) :=
  let* ck := cacheKey authProtocol password in
  let* (key, err) := hMAC (HashType authProtocol) ck password engineID in
  match err with
  | Some e => ret ([], Some e)
  | None =>
    let newkey := hash_New (HashType authProtocol) in
    let newkey := hash_Write newkey key in
    ret (key ++ hash_Sum newkey, err)
  end.

(** The first [switch] of [genlocalPrivKey]. *)
Definition keylenOf (privProtocol : SnmpV3PrivProtocol) : Z :=
  if (privProtocol =? AES) || (privProtocol =? DES) then 16
  else if (privProtocol =? AES192) || (privProtocol =? AES192C) then 24
  else if (privProtocol =? AES256) || (privProtocol =? AES256C) then 32
  else 0.

(** [func genlocalPrivKey(privProtocol, authProtocol, password, engineID)]. *)
Definition genlocalPrivKey `{Primitives} (privProtocol : SnmpV3PrivProtocol)
    (authProtocol : SnmpV3AuthProtocol) (password engineID : string)
    : M (list byte * option error) :=
  let keylen := keylenOf privProtocol in
  let* (localPrivKey, err) :=
    if (privProtocol =? AES) || (privProtocol =? AES192C)
       || (privProtocol =? AES256C) then
      extendKeyReeder authProtocol password engineID
    else if (privProtocol =? AES192) || (privProtocol =? AES256) then
      extendKeyBlumenthal authProtocol password engineID
    else genlocalkey authProtocol password engineID in
  match err with
  | Some e => ret ([], Some e)
  | None =>
    if len localPrivKey <? keylen then
      ret ([], Some ("genlocalPrivKey: privProtocol: "
                     +:+ privProtocolString privProtocol
                     +:+ " len(localPrivKey): " +:+ pretty (len localPrivKey)
                     +:+ ", keylen: " +:+ pretty keylen))
    else ret (firstn (Z.to_nat keylen) localPrivKey, None)
  end.

(** *** Security parameters, salts *)

Record UsmSecurityParameters : Type := mkUsm {
  localAESSalt : Z;                          (* uint64 *)
  localDESSalt : Z;                          (* uint32 *)
  AuthoritativeEngineID : string;
  AuthoritativeEngineBoots : Z;              (* uint32 *)
  AuthoritativeEngineTime : Z;               (* uint32 *)
  UserName : string;
  AuthenticationParameters : string;
  PrivacyParameters : list byte;
  AuthenticationProtocol : SnmpV3AuthProtocol;
  PrivacyProtocol : SnmpV3PrivProtocol;
  AuthenticationPassphrase : string;
  PrivacyPassphrase : string;
  SecretKey : list byte;
  PrivacyKey : list byte
}.

Definition set_localAESSalt (v : Z) (u : UsmSecurityParameters) :=
  mkUsm v (localDESSalt u) (AuthoritativeEngineID u)
    (AuthoritativeEngineBoots u) (AuthoritativeEngineTime u) (UserName u)
    (AuthenticationParameters u) (PrivacyParameters u)
    (AuthenticationProtocol u) (PrivacyProtocol u)
    (AuthenticationPassphrase u) (PrivacyPassphrase u) (SecretKey u)
    (PrivacyKey u).

Definition set_localDESSalt (v : Z) (u : UsmSecurityParameters) :=
  mkUsm (localAESSalt u) v (AuthoritativeEngineID u)
    (AuthoritativeEngineBoots u) (AuthoritativeEngineTime u) (UserName u)
    (AuthenticationParameters u) (PrivacyParameters u)
    (AuthenticationProtocol u) (PrivacyProtocol u)
    (AuthenticationPassphrase u) (PrivacyPassphrase u) (SecretKey u)
    (PrivacyKey u).

Definition set_PrivacyParameters (v : list byte) (u : UsmSecurityParameters) :=
  mkUsm (localAESSalt u) (localDESSalt u) (AuthoritativeEngineID u)
    (AuthoritativeEngineBoots u) (AuthoritativeEngineTime u) (UserName u)
    (AuthenticationParameters u) v
    (AuthenticationProtocol u) (PrivacyProtocol u)
    (AuthenticationPassphrase u) (PrivacyPassphrase u) (SecretKey u)
    (PrivacyKey u).

(** The store of parameter blocks, addressed by pointer. *)
Definition Heap (A : Type) : Type := State (gmap loc UsmSecurityParameters) A.

(** Reading and writing through a [*UsmSecurityParameters]; a pointer to
    nothing cannot be followed. *)
Definition load (p : loc) : Heap UsmSecurityParameters :=
  fun h => match h !! p with
           | Some u => Done (u, h)
           | None => Panic
           end.

Definition store (p : loc) (u : UsmSecurityParameters) : Heap unit :=
  fun h => Done (tt, <[p := u]> h).

(** [case AES, AES192, AES256, AES192C, AES256C]. *)
Definition isAESFamily (privProtocol : SnmpV3PrivProtocol) : bool :=
  (privProtocol =? AES) || (privProtocol =? AES192) || (privProtocol =? AES256)
  || (privProtocol =? AES192C) || (privProtocol =? AES256C).

(** The [interface{}] returned by [usmAllocateNewSalt]: a uint64 or a
    uint32. *)
Inductive Salt : Type :=
| SaltUint64 (v : Z)
| SaltUint32 (v : Z).

(** [atomic.AddUint64(&x, 1)] and [atomic.AddUint32(&x, 1)]: the new value. *)
Definition AddUint64 (x delta : Z) : Z := (x + delta) mod 2 ^ 64.
Definition AddUint32 (x delta : Z) : Z := (x + delta) mod 2 ^ 32.

(** [func (sp *UsmSecurityParameters) usmAllocateNewSalt() interface{}]. *)
Definition usmAllocateNewSalt (sp : loc) : Heap Salt :=
  let* u := load sp in
  if isAESFamily (PrivacyProtocol u) then
    let n := AddUint64 (localAESSalt u) 1 in
    let* _ := store sp (set_localAESSalt n u) in
    ret (SaltUint64 n)
  else
    let n := AddUint32 (localDESSalt u) 1 in
    let* _ := store sp (set_localDESSalt n u) in
    ret (SaltUint32 n).

(** [func (sp *UsmSecurityParameters) usmSetSalt(newSalt interface{}) error]. *)
Definition usmSetSalt (sp : loc) (newSalt : Salt) : Heap (option error) :=
  let* u := load sp in
  if isAESFamily (PrivacyProtocol u) then
    match newSalt with
    | SaltUint64 aesSalt =>
      let* _ := store sp (set_PrivacyParameters (PutUint64 aesSalt) u) in
      ret None
    | SaltUint32 _ =>
      ret (Some "salt provided to usmSetSalt is not the correct type for the AES privacy protocol")
    end
  else
    match newSalt with
    | SaltUint32 desSalt =>
      let salt := PutUint32 (AuthoritativeEngineBoots u) ++ PutUint32 desSalt in
      let* _ := store sp (set_PrivacyParameters salt u) in
      ret None
    | SaltUint64 _ =>
      ret (Some "salt provided to usmSetSalt is not the correct type for the DES privacy protocol")
    end.

(** [func castUsmSecParams(secParams)]: the pointer, or an error. *)
Definition castUsmSecParams (secParams : SnmpV3SecurityParameters)
    : result loc :=
  match secParams with
  | UsmPtr p => Ok p
  | UsmNilPtr | NotUsm =>
    Err "param SnmpV3SecurityParameters is not of type *UsmSecurityParameters"
  end.

(** [func (sp *UsmSecurityParameters) InitPacket(packet *SnmpPacket) error]. *)
Definition InitPacket (sp : loc) (packet : SnmpPacket) : Heap (option error) :=
  let* newSalt := usmAllocateNewSalt sp in
  if Z.land (MsgFlags packet) AuthPriv >? AuthNoPriv then
    match castUsmSecParams (SecurityParameters packet) with
    | Err e => ret (Some e)
    | Ok s => usmSetSalt s newSalt
    end
  else ret None.

(** *** Authentication *)

(** [func digestRFC7860(h, packet, authKey) ([]byte, error)]. *)
Definition digestRFC7860 `{Primitives} (h : SnmpV3AuthProtocol)
    (packet authKey : list byte) : list byte * option error :=
  (hmac_sum (HashType h) authKey packet, None).

(** [func digestRFC3414(h, packet, authKey) ([]byte, error)].  For an [h]
    other than MD5 and SHA the two hashes stay nil and the first [Write]
    panics. *)
Definition digestRFC3414 `{Primitives} (h : SnmpV3AuthProtocol)
    (packet authKey : list byte) : outcome (list byte * option error) :=
  let extkey := copy (repeat x00 64) authKey in
  let k1 := map (fun b => byte_xor b x36) extkey in
  let k2 := map (fun b => byte_xor b x5c) extkey in
  match (if h =? MD5 then Some crypto_MD5
         else if h =? SHA then Some crypto_SHA1 else None) with
  | None => Panic
  | Some alg =>
    let h1 := hash_Write (hash_Write (hash_New alg) k1) packet in
    let d1 := hash_Sum h1 in
    let h2 := hash_Write (hash_Write (hash_New alg) k2) d1 in
    match slice_to (hash_Sum h2) 12 with
    | Done d => Done (d, None)
    | Panic => Panic
    end
  end.

(** [func calcPacketDigest(packetBytes, secParams) ([]byte, error)]. *)
Definition calcPacketDigest `{Primitives} (packetBytes : list byte)
    (secParams : UsmSecurityParameters) : outcome (list byte * option error) :=
  let p := AuthenticationProtocol secParams in
  let computed :=
    if (p =? MD5) || (p =? SHA) then
      digestRFC3414 p packetBytes (SecretKey secParams)
    else if (p =? SHA224) || (p =? SHA256) || (p =? SHA384) || (p =? SHA512)
    then Done (digestRFC7860 p packetBytes (SecretKey secParams))
    else Done ([], None) in
  match computed with
  | Panic => Panic
  | Done (_, Some err) => Done ([], Some err)
  | Done (digest, None) =>
    match (if 0 <=? p then nth_error macVarbinds (Z.to_nat p) else None) with
    | None => Panic
    | Some mac =>
      match slice_to digest (len mac - 2) with
      | Done digest => Done (digest, None)
      | Panic => Panic
      end
    end
  end.

(** [func (sp *UsmSecurityParameters) isAuthentic(packetBytes, packet)
    (bool, error)]; it reads the store and leaves it as it is. *)
Definition isAuthentic `{Primitives} (sp : loc) (packetBytes : list byte)
    (packet : SnmpPacket) : Heap (bool * option error) :=
  match castUsmSecParams (SecurityParameters packet) with
  | Err err => ret (false, Some err)
  | Ok ps =>
    let* packetSecParams := load ps in
    let* this := load sp in
    if negb (String.eqb (UserName packetSecParams) (UserName this)) then
      ret (false, None)
    else
      fun h =>
        match calcPacketDigest packetBytes packetSecParams with
        | Panic => Panic
        | Done (_, Some err) => Done ((false, Some err), h)
        | Done (msgDigest, None) =>
          let signature :=
            list_byte_of_string (AuthenticationParameters packetSecParams) in
          Done ((ConstantTimeCompare msgDigest signature =? 1, None), h)
        end
  end.

(** *** Decryption *)

(** [des.BlockSize]. *)
Definition des_BlockSize : Z := 8.

(** The initialisation vector of the AES branch: boots, time, and the
    privacy parameters copied into the last eight bytes. *)
Definition aesIV (sp : UsmSecurityParameters) : list byte :=
  PutUint32 (AuthoritativeEngineBoots sp)
  ++ PutUint32 (AuthoritativeEngineTime sp)
  ++ copy (repeat x00 8) (PrivacyParameters sp).

(** The loop [iv[i] = preiv[i] ^ sp.PrivacyParameters[i]] over the eight
    bytes of [iv]; either index may be out of range. *)
Fixpoint desIV (n : nat) (preiv params : list byte) : outcome (list byte) :=
  match n with
  | O => Done []
  | S n' =>
    match preiv, params with
    | a :: preiv', b :: params' =>
      match desIV n' preiv' params' with
      | Done iv => Done (byte_xor a b :: iv)
      | Panic => Panic
      end
    | _, _ => Panic
    end
  end.

(** The tail shared by both branches: [plaintext] is a buffer as long as
    the ciphertext, filled by the cipher; it is copied over the packet from
    [cursor] and the packet is cut after it.  The second component is the
    packet buffer afterwards. *)
Definition installPlaintext (packet : list byte) (cursor : Z)
    (ciphertext decrypted : list byte)
    : outcome (list byte * option error * list byte) :=
  let plaintext := copy (repeat x00 (length ciphertext)) decrypted in
  let buffer :=
    firstn (Z.to_nat cursor) packet
    ++ copy (skipn (Z.to_nat cursor) packet) plaintext in
  match slice_to buffer (cursor + len plaintext) with
  | Done packet' => Done (packet', None, buffer)
  | Panic => Panic
  end.

(** [func (sp *UsmSecurityParameters) decryptPacket(packet, cursor)
    ([]byte, error)].  The result carries the returned slice, the error,
    and the contents of the caller's packet buffer afterwards. *)
Definition decryptPacket `{Primitives} (sp : UsmSecurityParameters)
    (packet : list byte) (cursor : Z)
    : outcome (list byte * option error * list byte) :=
  match slice_from packet cursor with
  | Panic => Panic
  | Done rest =>
    match parseLength rest with
    | (_, _, Some err) => Done ([], Some err, packet)
    | (_, cursorTmp, None) =>
      let cursorTmp := cursorTmp + cursor in
      if cursorTmp >? len packet then
        Done ([], Some "error decrypting ScopedPDU: truncated packet", packet)
      else if isAESFamily (PrivacyProtocol sp) then
        match aes_NewCipher (PrivacyKey sp) with
        | Some err => Done ([], Some err, packet)
        | None =>
          match slice_from packet cursorTmp with
          | Panic => Panic
          | Done ciphertext =>
            installPlaintext packet cursor ciphertext
              (aes_cfb_decrypt (PrivacyKey sp) (aesIV sp) ciphertext)
          end
        end
      else if PrivacyProtocol sp =? DES then
        match slice_from packet cursorTmp with
        | Panic => Panic
        | Done ciphertext =>
          if negb (Z.rem (len ciphertext) des_BlockSize =? 0) then
            Done ([], Some "error decrypting ScopedPDU: not multiple of des block size",
                  packet)
          else
            match slice_from (PrivacyKey sp) 8 with
            | Panic => Panic
            | Done preiv =>
              match desIV 8 preiv (PrivacyParameters sp) with
              | Panic => Panic
              | Done iv =>
                match des_NewCipher (firstn 8 (PrivacyKey sp)) with
                | Some err => Done ([], Some err, packet)
                | None =>
                  installPlaintext packet cursor ciphertext
                    (des_cbc_decrypt (firstn 8 (PrivacyKey sp)) iv ciphertext)
                end
              end
            end
        end
      else Done (packet, None, packet)
    end
  end.

End USM.

(** ** Key derivation as the specification words it *)

Module KeySpec.

Import USM.

(** "Concatenate the passphrase with itself cyclically to produce exactly
    [n] octets": the first [n] octets of [n] copies of the passphrase. *)
Definition cyclicOctets (passphrase : list byte) (n : nat) : list byte :=
  firstn n (concat (repeat passphrase n)).

Definition megabyte : nat := Z.to_nat 1048576.

Section spec.
Context `{Primitives}.

(** [Ku]: the hash of 1,048,576 octets of the repeated passphrase. *)
Definition Ku (h : crypto_Hash) (passphrase : string) : list byte :=
  digest h (cyclicOctets (list_byte_of_string passphrase) megabyte).

(** [KuL = H(Ku || engineID || Ku)]. *)
Definition KuL (h : crypto_Hash) (passphrase engineID : string) : list byte :=
  digest h (Ku h passphrase ++ list_byte_of_string engineID ++ Ku h passphrase).

(** The localized key of a protocol: [KuL] under the protocol's hash,
    and the empty key for the empty passphrase. *)
Definition localizedKey (authProtocol : SnmpV3AuthProtocol)
    (passphrase engineID : string) : list byte :=
  match passphrase with
  | EmptyString => []
  | _ => KuL (HashType authProtocol) passphrase engineID
  end.

(** Reeder: [KuL] followed by the localization of [KuL] taken as a
    passphrase. *)
Definition reederKey (authProtocol : SnmpV3AuthProtocol)
    (passphrase engineID : string) : list byte :=
  let k := localizedKey authProtocol passphrase engineID in
  k ++ localizedKey authProtocol (string_of_list_byte k) engineID.

(** Blumenthal: [KuL] followed by [H(KuL)]. *)
Definition blumenthalKey (authProtocol : SnmpV3AuthProtocol)
    (passphrase engineID : string) : list byte :=
  let k := localizedKey authProtocol passphrase engineID in
  k ++ digest (HashType authProtocol) k.

(** The cache key of a protocol and passphrase while caching is on. *)
Definition keyOf (authProtocol : SnmpV3AuthProtocol) (passphrase : string)
    : string :=
  string_of_list_byte
    (repeat x00 (1 + length (list_byte_of_string passphrase))
     ++ [byte_of_Z (104 + authProtocol)]
     ++ list_byte_of_string passphrase).

(** What the cache may hold: under the key of a protocol and passphrase,
    only the [Ku] of that passphrase under that protocol's hash; and the
    map exists while caching is on. *)
Definition cache_ok (g : Globals) : Prop :=
  (passwordCacheDisable g = false -> is_Some (passwordKeyHashCache g))
  /\ forall m a p v,
       passwordKeyHashCache g = Some m -> is_uint8 a ->
       m !! keyOf a p = Some v ->
       p <> "" /\ v = Ku (HashType a) p.

(** The states of the package-level variables that a program reaches
    from the initialisers by switching the cache and deriving keys. *)
Inductive reachable : Globals -> Prop :=
| reach_init : reachable initialGlobals
| reach_caching enable g :
    reachable g -> reachable (PasswordCaching enable g)
| reach_genlocalkey a p e g r g' :
    reachable g -> is_uint8 a ->
    genlocalkey a p e g = Done (r, g') -> reachable g'
| reach_genlocalPrivKey pp a p e g r g' :
    reachable g -> is_uint8 a ->
    genlocalPrivKey pp a p e g = Done (r, g') -> reachable g'.

(** A call leaves the cache sound and the switch where it was. *)
Definition keeps (g g' : Globals) : Prop :=
  cache_ok g' /\ passwordCacheDisable g' = passwordCacheDisable g.

End spec.

(** The octets the loops of [hashPassword] take from the passphrase,
    [n] of them from password index [pi] on. *)
Definition octetsFrom (password : string) (pi : Z) (n : nat) : list byte :=
  map (fun k => passwordByte password (pi + Z.of_nat k)) (seq 0 n).

(** The variants that take the Reeder extension. *)
Definition usesReeder (privProtocol : SnmpV3PrivProtocol) : bool :=
  (privProtocol =? AES) || (privProtocol =? AES192C) || (privProtocol =? AES256C).

(** The variants that take the Blumenthal extension. *)
Definition usesBlumenthal (privProtocol : SnmpV3PrivProtocol) : bool :=
  (privProtocol =? AES192) || (privProtocol =? AES256).

(** The key material [genlocalPrivKey] starts from, by variant. *)
Definition extendedKey `{Primitives} (pp : SnmpV3PrivProtocol)
    (a : SnmpV3AuthProtocol) (p e : string) : list byte :=
  if usesReeder pp then reederKey a p e
  else if usesBlumenthal pp then blumenthalKey a p e
  else localizedKey a p e.

(** The value of eight big-endian bytes, and of four. *)
Definition bigEndian (b : list byte) : Z :=
  fold_left (fun acc x => acc * 256 + Z_of_byte x) b 0.

End KeySpec.

(** ** The order on OIDs, as the data model words it *)

Module Oid.

(** An OID is an ordered sequence of non-negative integers, written
    dot-separated with a leading dot.  [arcs] reads the textual form; a
    character other than a digit or a dot ends the reading. *)
Definition digitOf (c : ascii) : option N :=
  let n := N_of_ascii c in
  if (48 <=? n)%N && (n <=? 57)%N then Some (n - 48)%N else None.

Definition closeArc (cur : option N) (acc : list N) : list N :=
  match cur with
  | Some n => acc ++ [n]
  | None => acc
  end.

Fixpoint arcsFrom (s : string) (cur : option N) (acc : list N) : list N :=
  match s with
  | EmptyString => closeArc cur acc
  | String c rest =>
    if Ascii.eqb c "."%char then arcsFrom rest None (closeArc cur acc)
    else
      match digitOf c with
      | Some d =>
        arcsFrom rest (Some (10 * (match cur with Some n => n | None => 0 end) + d)%N) acc
      | None => closeArc cur acc
      end
  end.

Definition arcs (oid : string) : list N := arcsFrom oid None [].

(** Lexicographic order on arc sequences: [a] strictly before [b]. *)
Fixpoint arcs_ltb (a b : list N) : bool :=
  match a, b with
  | [], [] => false
  | [], _ :: _ => true
  | _ :: _, [] => false
  | x :: a', y :: b' => (x <? y)%N || ((x =? y)%N && arcs_ltb a' b')
  end.

(** [a] is strictly smaller than [b] as an OID. *)
Definition ltb (a b : string) : bool := arcs_ltb (arcs a) (arcs b).

End Oid.

(** ** Concrete collaborators used to run the definitions *)

Module Fixtures.

Import Walk.

(** A scripted agent: the responses still to be given, and the requests
    received so far (type and OIDs), latest last.  Every exchange takes the
    next response; an exhausted script times out. *)
Record Script : Type := mkScript {
  pending : list (result SnmpPacket);
  received : list (PDUType * list string)
}.

Definition exchange (ty : PDUType) (t : Script) (oids : list string)
    : Script * result SnmpPacket :=
  match pending t with
  | [] => (mkScript [] (received t ++ [(ty, oids)]), Err "request timeout")
  | r :: rest => (mkScript rest (received t ++ [(ty, oids)]), r)
  end.

#[export] Instance scripted : Transport Script := {
  Get := exchange GetRequest;
  GetNext := exchange GetNextRequest;
  GetBulk := fun t oids _ _ => exchange GetBulkRequest t oids;
  defaultMaxRepetitions := 50
}.

Definition respond (vars : list SnmpPDU) : result SnmpPacket :=
  Ok (mkPacket vars NoError NoAuthNoPriv NotUsm).

Definition session : GoSNMP := mkGoSNMP 0 None.

Definition sessionC : GoSNMP := mkGoSNMP 0 (Some {["c" := 1]}).

Definition agent (responses : list (result SnmpPacket)) : Script :=
  mkScript responses [].

(** Varbinds under the root [.1.3.6.1]. *)
Definition vb5 : SnmpPDU := mkPDU ".1.3.6.1.5" Integer 5.
Definition vb2 : SnmpPDU := mkPDU ".1.3.6.1.2" Integer 2.
Definition end5 : SnmpPDU := mkPDU ".1.3.6.1.5" EndOfMibView 0.

(** An agent that answers the second request with an OID before the one
    it was asked to continue from. *)
Definition backwards : Script :=
  agent [respond [vb5]; respond [vb2]; respond []].

(** An agent that answers the second request with an end-of-MIB marker
    named like the request. *)
Definition endsAtStart : Script := agent [respond [vb5]; respond [end5]].

(** An agent that repeats the OID it was asked to continue from. *)
Definition stuck : Script := agent [respond [vb5]; respond [vb5]; respond []].

(** The scalar sysName.0, its neighbour, and an agent holding the scalar. *)
Definition sysName0 : string := ".1.3.6.1.2.1.1.5.0".
Definition vbName : SnmpPDU := mkPDU sysName0 OctetString 7.
Definition vbLocation : SnmpPDU := mkPDU ".1.3.6.1.2.1.1.6.0" OctetString 8.
Definition leafAgent : Script := agent [respond [vbLocation]; respond [vbName]].

(** An agent without the scalar: the Get is answered noSuchObject. *)
Definition vbMissing : SnmpPDU := mkPDU sysName0 NoSuchObject 0.
Definition noLeafAgent : Script :=
  agent [respond [vbLocation]; respond [vbMissing]].

(** An agent that holds the scalar as the last object of its view: the
    first GetNext is answered with the end-of-MIB marker. *)
Definition endName : SnmpPDU := mkPDU sysName0 EndOfMibView 0.
Definition lastLeafAgent : Script := agent [respond [endName]; respond [vbName]].

(** An agent that repeats the OID it was asked to continue from and puts
    an end-of-MIB marker behind it, and one whose first answer is a
    varbind outside the root followed by such a marker. *)
Definition repeatsThenEnds : Script :=
  agent [respond [vb5]; respond [vb5; end5]].
Definition strayThenEnd : Script := agent [respond [vbLocation; endName]].

(** Stand-ins for the library primitives, small enough to run: the digest
    of a hash is the message cut or zero-padded to the size of the hash,
    with the size in front; HMAC digests the key followed by the message;
    the ciphers hand back their input; [parseLength] reads a two-byte
    header. *)
Definition toySize (h : USM.crypto_Hash) : nat :=
  match h with
  | USM.crypto_MD5 => 16 | USM.crypto_SHA1 => 20 | USM.crypto_SHA224 => 28
  | USM.crypto_SHA256 => 32 | USM.crypto_SHA384 => 48 | USM.crypto_SHA512 => 64
  end%nat.

Definition toyDigest (h : USM.crypto_Hash) (m : list byte) : list byte :=
  USM.byte_of_Z (Z.of_nat (toySize h))
  :: firstn (toySize h - 1) (m ++ repeat x00 (toySize h)).

#[export] Instance toy : USM.Primitives := {
  USM.digest := toyDigest;
  USM.hmac_sum := fun h key msg => toyDigest h (key ++ msg);
  USM.des_NewCipher := fun key => None;
  USM.aes_NewCipher := fun key => None;
  USM.des_cbc_decrypt := fun key iv src => src;
  USM.aes_cfb_decrypt := fun key iv src => src;
  USM.parseLength := fun b => (USM.len b, 2, None);
  USM.privProtocolString := fun p => pretty p
}.

(** Parameter blocks: a DES user whose salt counter is two steps from the
    top of its range, an AES user, and the store holding both. *)
Definition desUser : USM.UsmSecurityParameters :=
  USM.mkUsm 0 4294967294 "engine" 7 0 "alice" "" [] USM.SHA USM.DES
    "maplesyrup" "maplesyrup" [] [x01; x02; x03; x04; x05; x06; x07; x08;
                                  x09; x0a; x0b; x0c; x0d; x0e; x0f; x10].

Definition aesUser : USM.UsmSecurityParameters :=
  USM.mkUsm 258 0 "engine" 7 0 "bob" "" [] USM.SHA256 USM.AES
    "maplesyrup" "maplesyrup" [x0a; x0b] [].

Definition users : gmap loc USM.UsmSecurityParameters :=
  {[ 1%nat := desUser; 2%nat := aesUser ]}.

(** Outgoing packets whose security parameters are the block at 1 or 2. *)
Definition packetOf (flags : SnmpV3MsgFlags) (p : loc) : SnmpPacket :=
  mkPacket [] NoError flags (UsmPtr p).

(** A packet buffer: a two-byte header and nine bytes of ciphertext. *)
Definition nineBytes : list byte :=
  [x04; x09; x11; x12; x13; x14; x15; x16; x17; x18; x19].

(** An inbound message and the parameter block parsed from it: user bob,
    SHA256, carrying the MAC the toy HMAC gives for the message. *)
Definition message : list byte := [x30; x03; x02; x01; x03].

Definition signedBy (user : string) : USM.UsmSecurityParameters :=
  USM.mkUsm 0 0 "engine" 7 0 user
    (string_of_list_byte
       (firstn 24 (toyDigest USM.crypto_SHA256 ([x0a; x0b] ++ message))))
    [] USM.SHA256 USM.AES "" "" [x0a; x0b] [].

Definition inbound : gmap loc USM.UsmSecurityParameters :=
  {[ 2%nat := aesUser; 3%nat := signedBy "bob"; 4%nat := signedBy "eve" ]}.

End Fixtures.

(** ** Notions used to speak about a walk *)

Module WalkNotions.

Import Walk.

(** The state of the visitor when the range loop is left. *)
Definition exitState {V : Type} (r : RoundExit V) : V :=
  match r with
  | BreakLoop v | RetryAsGet v | ReturnErr v _ | NextRound v => v
  end.

(** A varbind the walk may hand to the visitor: not of an end type, and
    named under the root or exactly like it. *)
Definition deliverable (rootOid : string) (pdu : SnmpPDU) : Prop :=
  isEndType (Type_ pdu) = false
  /\ (HasPrefix (Name pdu) (rootOid +:+ ".") = true \/ Name pdu = rootOid).

(** A visitor that collects varbinds as long as their values increase,
    and fails otherwise. *)
Definition strict : WalkFunc (list SnmpPDU) :=
  fun seen pdu =>
    match List.last (map Some seen) None with
    | Some prev =>
      if Value prev <? Value pdu then (seen ++ [pdu], None)
      else (seen, Some "visitor: value out of order")
    | None => (seen ++ [pdu], None)
    end.

End WalkNotions.

(** ** Notions used to speak about the session's keys *)

Module KeyNotions.

Import USM KeySpec.

(** The globals after the cached password-to-key step for a protocol and
    passphrase: a missing (or empty) entry is filled in while caching is
    on and the passphrase is not empty. *)
Definition afterKey `{Primitives} (a : SnmpV3AuthProtocol) (p : string)
    (g : Globals) : Globals :=
  if passwordCacheDisable g then g
  else
    match passwordKeyHashCache g, p with
    | Some m, String _ _ =>
      match m !! keyOf a p with
      | Some (_ :: _) => g
      | _ => mkGlobals (Some (<[keyOf a p := Ku (HashType a) p]> m))
                       (passwordCacheDisable g)
      end
    | _, _ => g
    end.

(** What [initSecurityKeysNoLock] leaves in a parameter block, in terms of
    the keys of the specification: the secret key, the privacy key, and
    whether the privacy key could not be made long enough. *)
Section keysAfterInit.
Context `{Primitives}.

Definition needsSecretKey (u : UsmSecurityParameters) : bool :=
  (AuthenticationProtocol u >? NoAuth) && (len (SecretKey u) =? 0).

Definition needsPrivacyKey (u : UsmSecurityParameters) : bool :=
  (PrivacyProtocol u >? NoPriv) && (len (PrivacyKey u) =? 0).

Definition secretKeyAfterInit (u : UsmSecurityParameters) : list byte :=
  if needsSecretKey u then
    localizedKey (AuthenticationProtocol u) (AuthenticationPassphrase u)
      (AuthoritativeEngineID u)
  else SecretKey u.

Definition privacyKeyTooShort (u : UsmSecurityParameters) : bool :=
  needsPrivacyKey u && isAESFamily (PrivacyProtocol u)
  && (len (extendedKey (PrivacyProtocol u) (AuthenticationProtocol u)
             (PrivacyPassphrase u) (AuthoritativeEngineID u))
      <? keylenOf (PrivacyProtocol u)).

Definition privacyKeyAfterInit (u : UsmSecurityParameters) : list byte :=
  if needsPrivacyKey u then
    if isAESFamily (PrivacyProtocol u) then
      if privacyKeyTooShort u then []
      else firstn (Z.to_nat (keylenOf (PrivacyProtocol u)))
             (extendedKey (PrivacyProtocol u) (AuthenticationProtocol u)
                (PrivacyPassphrase u) (AuthoritativeEngineID u))
    else localizedKey (AuthenticationProtocol u) (PrivacyPassphrase u)
           (AuthoritativeEngineID u)
  else PrivacyKey u.

End keysAfterInit.

End KeyNotions.

(** ** More of the User Security Model: the session's keys, validation,
    signing and encryption *)

Module USMSession.

Import USM.

Definition set_SecretKey (v : list byte) (u : UsmSecurityParameters) :=
  mkUsm (localAESSalt u) (localDESSalt u) (AuthoritativeEngineID u)
    (AuthoritativeEngineBoots u) (AuthoritativeEngineTime u) (UserName u)
    (AuthenticationParameters u) (PrivacyParameters u)
    (AuthenticationProtocol u) (PrivacyProtocol u)
    (AuthenticationPassphrase u) (PrivacyPassphrase u) v (PrivacyKey u).

Definition set_PrivacyKey (v : list byte) (u : UsmSecurityParameters) :=
  mkUsm (localAESSalt u) (localDESSalt u) (AuthoritativeEngineID u)
    (AuthoritativeEngineBoots u) (AuthoritativeEngineTime u) (UserName u)
    (AuthenticationParameters u) (PrivacyParameters u)
    (AuthenticationProtocol u) (PrivacyProtocol u)
    (AuthenticationPassphrase u) (PrivacyPassphrase u) (SecretKey u) v.

Definition set_AuthoritativeEngineID (v : string) (u : UsmSecurityParameters) :=
  mkUsm (localAESSalt u) (localDESSalt u) v
    (AuthoritativeEngineBoots u) (AuthoritativeEngineTime u) (UserName u)
    (AuthenticationParameters u) (PrivacyParameters u)
    (AuthenticationProtocol u) (PrivacyProtocol u)
    (AuthenticationPassphrase u) (PrivacyPassphrase u) (SecretKey u)
    (PrivacyKey u).

Definition set_EngineBootsTime (boots time : Z) (u : UsmSecurityParameters) :=
  mkUsm (localAESSalt u) (localDESSalt u) (AuthoritativeEngineID u)
    boots time (UserName u)
    (AuthenticationParameters u) (PrivacyParameters u)
    (AuthenticationProtocol u) (PrivacyProtocol u)
    (AuthenticationPassphrase u) (PrivacyPassphrase u) (SecretKey u)
    (PrivacyKey u).

(** *** Validation *)

(** [func (sp *UsmSecurityParameters) validate(flags) error].  The three
    cases of the [switch] fall through from the strictest level down. *)
Definition validate (sp : UsmSecurityParameters) (flags : SnmpV3MsgFlags)
    : option error :=
  let securityLevel := Z.land flags AuthPriv in
  let caseNoAuthNoPriv :=
    if String.eqb (UserName sp) EmptyString
    then Some "securityParameters.UserName is required" else None in
  let caseAuthNoPriv :=
    if AuthenticationProtocol sp <=? NoAuth
    then Some "securityParameters.AuthenticationProtocol is required"
    else caseNoAuthNoPriv in
  let caseAuthPriv :=
    if PrivacyProtocol sp <=? NoPriv
    then Some "securityParameters.PrivacyProtocol is required"
    else caseAuthNoPriv in
  let level :=
    if securityLevel =? AuthPriv then caseAuthPriv
    else if securityLevel =? AuthNoPriv then caseAuthNoPriv
    else if securityLevel =? NoAuthNoPriv then caseNoAuthNoPriv
    else Some "validate: MsgFlags must be populated with an appropriate security level" in
  match level with
  | Some err => Some err
  | None =>
    if (PrivacyProtocol sp >? NoPriv) && (len (PrivacyKey sp) =? 0)
       && String.eqb (PrivacyPassphrase sp) EmptyString
    then Some "securityParameters.PrivacyPassphrase is required when a privacy protocol is specified"
    else if (AuthenticationProtocol sp >? NoAuth) && (len (SecretKey sp) =? 0)
            && String.eqb (AuthenticationPassphrase sp) EmptyString
    then Some "securityParameters.AuthenticationPassphrase is required when an authentication protocol is specified"
    else None
  end.

(** *** Key initialisation *)

(** [func (sp *UsmSecurityParameters) initSecurityKeysNoLock() error], on
    the parameter block [sp] points to: the block afterwards and the
    error.  Each key field is assigned what the derivation returned before
    the error is looked at. *)
Definition initSecurityKeysNoLock `{Primitives} (sp : UsmSecurityParameters)
    : M (UsmSecurityParameters * option error) :=
  let* (sp, err) :=
    if (AuthenticationProtocol sp >? NoAuth) && (len (SecretKey sp) =? 0) then
      let* (key, err) :=
        genlocalkey (AuthenticationProtocol sp) (AuthenticationPassphrase sp)
          (AuthoritativeEngineID sp) in
      ret (set_SecretKey key sp, err)
    else ret (sp, None) in
  match err with
  | Some e => ret (sp, Some e)
  | None =>
    if (PrivacyProtocol sp >? NoPriv) && (len (PrivacyKey sp) =? 0) then
      if isAESFamily (PrivacyProtocol sp) then
        let* (key, err) :=
          genlocalPrivKey (PrivacyProtocol sp) (AuthenticationProtocol sp)
            (PrivacyPassphrase sp) (AuthoritativeEngineID sp) in
        ret (set_PrivacyKey key sp, err)
      else
        let* (key, err) :=
          genlocalkey (AuthenticationProtocol sp) (PrivacyPassphrase sp)
            (AuthoritativeEngineID sp) in
        ret (set_PrivacyKey key sp, err)
    else ret (sp, None)
  end.

(** The store of parameter blocks together with the package-level
    variables. *)
Definition World : Type := gmap loc UsmSecurityParameters * Globals.

(** [func (sp *UsmSecurityParameters) InitSecurityKeys() error]. *)
Definition InitSecurityKeys `{Primitives} (sp : loc) : State World (option error) :=
  fun '(h, g) =>
    match h !! sp with
    | None => Panic
    | Some u =>
      match initSecurityKeysNoLock u g with
      | Panic => Panic
      | Done ((u', err), g') => Done (err, (<[sp := u']> h, g'))
      end
    end.

(** [func (sp *UsmSecurityParameters) setSecurityParameters(in) error].
    [in] may point to the block [sp] points to. *)
Definition setSecurityParameters `{Primitives} (sp : loc)
    (in_ : SnmpV3SecurityParameters) : State World (option error) :=
  fun '(h, g) =>
    match castUsmSecParams in_ with
    | Err err => Done (Some err, (h, g))
    | Ok pin =>
      match h !! pin, h !! sp with
      | Some insp, Some u =>
        if negb (String.eqb (AuthoritativeEngineID u) (AuthoritativeEngineID insp))
        then
          let u1 :=
            set_PrivacyKey [] (set_SecretKey []
              (set_AuthoritativeEngineID (AuthoritativeEngineID insp) u)) in
          match initSecurityKeysNoLock u1 g with
          | Panic => Panic
          | Done ((u2, Some err), g') => Done (Some err, (<[sp := u2]> h, g'))
          | Done ((u2, None), g') =>
            Done (None,
                  (<[sp := set_EngineBootsTime (AuthoritativeEngineBoots insp)
                              (AuthoritativeEngineTime insp) u2]> h, g'))
          end
        else
          Done (None,
                (<[sp := set_EngineBootsTime (AuthoritativeEngineBoots insp)
                            (AuthoritativeEngineTime insp) u]> h, g))
      | _, _ => Panic
      end
    end.

(** *** Signing *)

(** [bytes.HasPrefix(s, prefix)]. *)
Fixpoint bytesHasPrefix (s prefix : list byte) : bool :=
  match prefix, s with
  | [], _ => true
  | _ :: _, [] => false
  | b :: prefix', a :: s' => Byte.eqb a b && bytesHasPrefix s' prefix'
  end.

(** [bytes.Index(s, sep)], counted from [i]: the index of the first
    occurrence of [sep] in [s], or -1. *)
Fixpoint IndexFrom (i : Z) (s sep : list byte) : Z :=
  if bytesHasPrefix s sep then i
  else match s with
       | [] => -1
       | _ :: s' => IndexFrom (i + 1) s' sep
       end.

Definition Index (s sep : list byte) : Z := IndexFrom 0 s sep.

(** [copy(s[lo:hi], src)]: the contents of [s] afterwards; the slice
    expression panics unless [0 <= lo <= hi <= len(s)]. *)
Definition copyInto (s : list byte) (lo hi : Z) (src : list byte)
    : outcome (list byte) :=
  if (0 <=? lo) && (lo <=? hi) && (hi <=? len s) then
    Done (firstn (Z.to_nat lo) s
          ++ copy (firstn (Z.to_nat (hi - lo)) (skipn (Z.to_nat lo) s)) src
          ++ skipn (Z.to_nat hi) s)
  else Panic.

(** [macVarbinds[authProtocol]]; indexing past the table panics. *)
Definition macVarbind (authProtocol : SnmpV3AuthProtocol)
    : option (list byte) :=
  if 0 <=? authProtocol then nth_error macVarbinds (Z.to_nat authProtocol)
  else None.

(** [func (sp *UsmSecurityParameters) authenticate(packet []byte) error]:
    the error and the packet buffer afterwards. *)
Definition authenticate `{Primitives} (sp : UsmSecurityParameters)
    (packet : list byte) : outcome (option error * list byte) :=
  match calcPacketDigest packet sp with
  | Panic => Panic
  | Done (_, Some err) => Done (Some err, packet)
  | Done (msgDigest, None) =>
    match macVarbind (AuthenticationProtocol sp) with
    | None => Panic
    | Some mac =>
      let idx := Index packet mac in
      if idx <? 0 then
        Done (Some "unable to locate the position in packet to write authentication key",
              packet)
      else
        match copyInto packet (idx + 2) (idx + len mac) msgDigest with
        | Panic => Panic
        | Done packet' => Done (None, packet')
        end
    end
  end.

(** The statement of [unmarshal] that blanks the received MAC before the
    digest is recomputed:
    [copy(packet[cursor+2:cursor+len(mac)], mac[2:])], with [mac] the
    entry of [macVarbinds] for the protocol. *)
Definition blankAuthenticationParameters (authProtocol : SnmpV3AuthProtocol)
    (packet : list byte) (cursor : Z) : outcome (list byte) :=
  match macVarbind authProtocol with
  | None => Panic
  | Some mac =>
    match slice_from mac 2 with
    | Panic => Panic
    | Done zeros => copyInto packet (cursor + 2) (cursor + len mac) zeros
    end
  end.

(** *** Encryption *)

(** What [encryptPacket] calls and [v3_usm.go] does not define:
    [marshalLength] of the BER codec, and the encrypting directions of the
    two cipher modes. *)
Class Encoders : Type := {
  (** [marshalLength(length)]: the length octets, or an error *)
  marshalLength : Z -> list byte * option error;
  (** what CFB encryption under AES and CBC encryption under DES, with a
      key and an initialisation vector, write for a source *)
  aes_cfb_encrypt : list byte -> list byte -> list byte -> list byte;
  des_cbc_encrypt : list byte -> list byte -> list byte -> list byte
}.

(** [append([]byte{byte(OctetString)}, pduLen...)] followed by the
    ciphertext. *)
Definition wrapCiphertext `{Encoders} (ciphertext : list byte)
    : outcome (list byte * option error) :=
  match marshalLength (len ciphertext) with
  | (_, Some err) => Done ([], Some err)
  | (pduLen, None) => Done (OctetString_tag :: pduLen ++ ciphertext, None)
  end.

(** [func (sp *UsmSecurityParameters) encryptPacket(scopedPdu []byte)
    ([]byte, error)]. *)
Definition encryptPacket `{Primitives} `{Encoders} (sp : UsmSecurityParameters)
    (scopedPdu : list byte) : outcome (list byte * option error) :=
  if isAESFamily (PrivacyProtocol sp) then
    match aes_NewCipher (PrivacyKey sp) with
    | Some err => Done ([], Some err)
    | None =>
      let ciphertext :=
        copy (repeat x00 (length scopedPdu))
             (aes_cfb_encrypt (PrivacyKey sp) (aesIV sp) scopedPdu) in
      wrapCiphertext ciphertext
    end
  else if PrivacyProtocol sp =? DES then
    match slice_from (PrivacyKey sp) 8 with
    | Panic => Panic
    | Done preiv =>
      match desIV 8 preiv (PrivacyParameters sp) with
      | Panic => Panic
      | Done iv =>
        match des_NewCipher (firstn 8 (PrivacyKey sp)) with
        | Some err => Done ([], Some err)
        | None =>
          let pad :=
            repeat x00 (Z.to_nat (des_BlockSize
                                  - Z.rem (len scopedPdu) des_BlockSize)) in
          let scopedPdu := scopedPdu ++ pad in
          let ciphertext :=
            copy (repeat x00 (length scopedPdu))
                 (des_cbc_encrypt (firstn 8 (PrivacyKey sp)) iv scopedPdu) in
          wrapCiphertext ciphertext
        end
      end
    end
  else Done (scopedPdu, None).

End USMSession.

(** ** Further collaborators used to run the definitions *)

Module Scenarios.

Import USM USMSession Fixtures.

(** Length octets in the short form, and ciphers that hand back their
    input, to go with [Fixtures.toy]. *)
#[export] Instance toyEncoders : Encoders := {
  marshalLength := fun n => ([byte_of_Z n], None);
  aes_cfb_encrypt := fun key iv src => src;
  des_cbc_encrypt := fun key iv src => src
}.

(** A user with SHA authentication and AES privacy, keys not yet derived. *)
Definition carol : UsmSecurityParameters :=
  mkUsm 0 0 "engine" 7 0 "carol" EmptyString [] SHA AES
    "maplesyrup" "maplesyrup" [] [].

(** A user with SHA256 authentication and a secret key, and a message that
    carries the zeroed placeholder of its MAC. *)
Definition signer : UsmSecurityParameters :=
  mkUsm 0 0 "engine" 7 0 "bob" EmptyString [] SHA256 NoPriv
    "maplesyrup" EmptyString [x0a; x0b] [].

Definition unsigned : list byte :=
  [x30; x20] ++ [x04; x03; x62; x6f; x62]
  ++ (x04 :: byte_of_Z 24 :: repeat x00 24) ++ [x04; x00].

(** A DES user with a sixteen-byte key and eight bytes of salt. *)
Definition dave : UsmSecurityParameters :=
  mkUsm 0 0 "engine" 7 0 "dave" EmptyString
    [x00; x00; x00; x07; x00; x00; x00; x01] SHA DES
    "maplesyrup" "maplesyrup" []
    [x01; x02; x03; x04; x05; x06; x07; x08;
     x09; x0a; x0b; x0c; x0d; x0e; x0f; x10].

(** A user without authentication, and the store of a listener that
    holds it next to the session of [aesUser]. *)
Definition plainUser : UsmSecurityParameters :=
  mkUsm 0 0 "engine" 7 0 "bob" EmptyString [] NoAuth NoPriv
    EmptyString EmptyString [] [].

Definition listeners : gmap loc UsmSecurityParameters :=
  {[ 2%nat := aesUser; 5%nat := plainUser ]}.

(** The block a receiver parses from [unsigned] once [signer] has signed
    it, and the receiver's store. *)
Definition verified : UsmSecurityParameters :=
  mkUsm 0 0 "engine" 7 0 "bob"
    (string_of_list_byte
       (firstn 24 (toyDigest crypto_SHA256 ([x0a; x0b] ++ unsigned))))
    [] SHA256 NoPriv EmptyString EmptyString [x0a; x0b] [].

Definition receivers : gmap loc UsmSecurityParameters :=
  {[ 2%nat := aesUser; 6%nat := verified ]}.

(** A peer's view of [carol]: another engine, later boots and time. *)
Definition peer : UsmSecurityParameters :=
  mkUsm 0 0 "peer" 9 100 "carol" EmptyString [] SHA AES
    "maplesyrup" "maplesyrup" [] [].

Definition sessions : gmap loc UsmSecurityParameters :=
  {[ 5%nat := carol; 6%nat := peer ]}.

(** A scoped PDU that fills one DES block. *)
Definition eightBytes : list byte :=
  [x11; x12; x13; x14; x15; x16; x17; x18].

End Scenarios.

(** ** Properties of the walk engine *)

Module WalkFacts.

Import Walk.

Section round.
Context {T V : Type} `{Transport T}.
Variable walkFn : WalkFunc V.

(** A varbind named exactly like the root is never in range. *)
Lemma prefix_append_self (s t : string) :
  String.prefix (s +:+ t) s = true -> t = "".
Proof.
  induction s as [|c s IH]; simpl.
  - destruct t; [reflexivity | discriminate].
  - destruct (ascii_dec c c) as [_|Hne]; [exact IH | contradiction].
Qed.

Lemma root_not_inRange (rootOid : string) (pdu : SnmpPDU) :
  Name pdu = rootOid -> inRange rootOid pdu = false.
Proof.
  intros <-. unfold inRange, HasPrefix.
  destruct (String.prefix _ _) eqn:E; [|reflexivity].
  apply prefix_append_self in E. discriminate.
Qed.

(** The range loop over a list that is cut in two: the second part is
    entered only when the first ran to its end. *)
Lemma rangeVariables_app rootOid oid requests ci (pre post : list SnmpPDU) :
  forall i v,
  rangeVariables walkFn rootOid oid requests ci i (pre ++ post) v =
  match rangeVariables walkFn rootOid oid requests ci i pre v with
  | NextRound v1 =>
    rangeVariables walkFn rootOid oid requests ci (i + len_Z pre) post v1
  | other => other
  end.
Proof.
  unfold len_Z.
  induction pre as [|p pre IH]; intros i v; simpl.
  - f_equal. lia.
  - destruct (isEndType (Type_ p)); [reflexivity|].
    destruct (negb (inRange rootOid p)).
    { destruct ((requests =? 1) && (i =? 0)); [reflexivity|].
      destruct (_ && _); [|reflexivity].
      destruct (walkFn v p) as [v' [e|]]; reflexivity. }
    destruct (ci && _); [reflexivity|].
    destruct (walkFn v p) as [v' [e|]]; [reflexivity|].
    rewrite IH. replace (i + 1 + Z.of_nat (length pre))
      with (i + Z.pos (Pos.of_succ_nat (length pre))) by lia.
    reflexivity.
Qed.

(** One round of the loop, once the response is known to carry varbinds
    and an error-status that does not stop the walk. *)
Lemma RequestLoop_round fuel rootOid maxReps ci ty oid requests t v t1 r :
  request ty oid maxReps t = (t1, Ok r) ->
  Variables r <> [] ->
  stopsOnError (Error r) = false ->
  RequestLoop walkFn (S fuel) rootOid maxReps ci ty oid requests t v =
  match rangeVariables walkFn rootOid oid (requests + 1) ci 0 (Variables r) v with
  | BreakLoop v' => Some (t1, v', None)
  | ReturnErr v' e => Some (t1, v', Some e)
  | RetryAsGet v' =>
    RequestLoop walkFn fuel rootOid maxReps ci GetRequest oid (requests + 1) t1 v'
  | NextRound v' =>
    RequestLoop walkFn fuel rootOid maxReps ci ty
      (lastName (Variables r) oid) (requests + 1) t1 v'
  end.
Proof.
  intros Hreq Hne Herr. simpl. rewrite Hreq.
  destruct (Variables r) as [|p ps] eqn:E; [contradiction|].
  rewrite Herr. reflexivity.
Qed.

(** The eighteen codes, and only they among the values of a uint8, stop
    the walk. *)
Lemma stopsOnError_spec (e : SNMPError) :
  stopsOnError e = true <-> TooBig <= e <= InconsistentName.
Proof.
  unfold stopsOnError, TooBig, NoSuchName, BadValue, ReadOnly, GenErr,
    NoAccess, WrongType, WrongLength, WrongEncoding, WrongValue, NoCreation,
    InconsistentValue, ResourceUnavailable, CommitFailed, UndoFailed,
    AuthorizationError, NotWritable, InconsistentName.
  rewrite !orb_true_iff, !Z.eqb_eq. lia.
Qed.

(** C9 (amended). The walk ends with a nil error as soon as a round's
    response carries no varbinds, or carries one of the eighteen
    error-status codes TooBig..InconsistentName, or the range loop comes
    to a varbind of type EndOfMibView, NoSuchObject or NoSuchInstance:
    one that it reaches, every varbind before it in the response having
    been handed to the visitor and accepted. *)
Theorem walk_stops_cleanly fuel rootOid maxReps ci ty oid requests t v t1 r :
  request ty oid maxReps t = (t1, Ok r) ->
  (Variables r = []
   \/ TooBig <= Error r <= InconsistentName
   \/ exists pre pdu post v1,
        Variables r = pre ++ pdu :: post
        /\ rangeVariables walkFn rootOid oid (requests + 1) ci 0 pre v
           = NextRound v1
        /\ (Type_ pdu = EndOfMibView \/ Type_ pdu = NoSuchObject
            \/ Type_ pdu = NoSuchInstance)) ->
  exists v', RequestLoop walkFn (S fuel) rootOid maxReps ci ty oid requests t v
             = Some (t1, v', None).
Proof.
  intros Hreq Hwhy.
  destruct (Variables r) as [|p ps] eqn:Hvars.
  { exists v. simpl. rewrite Hreq, Hvars. reflexivity. }
  destruct (stopsOnError (Error r)) eqn:Hstop.
  { exists v. simpl. rewrite Hreq, Hvars, Hstop. reflexivity. }
  destruct Hwhy as [Hnil | [Hcode | (pre & pdu & post & v1 & Hcut & Hpre & Hty)]].
  - discriminate.
  - apply stopsOnError_spec in Hcode. congruence.
  - exists v1.
    rewrite (RequestLoop_round fuel rootOid maxReps ci ty oid requests t v t1 r)
      by (auto; rewrite Hvars; discriminate).
    rewrite Hvars, Hcut, rangeVariables_app, Hpre. simpl.
    assert (isEndType (Type_ pdu) = true) as ->
      by (destruct Hty as [-> | [-> | ->]]; reflexivity).
    reflexivity.
Qed.

(** C1 (amended). When the range loop comes to an in-range varbind that
    is not of an end type and whose name equals the round's request
    start, the walk aborts with "OID not increasing" if the check is on,
    and hands the varbind to the visitor if it is off; a varbind with any
    other name is handed to the visitor.  The check is off exactly when
    AppOpts has the key "c" and the walk was asked for GetBulk or
    GetNext. *)
Theorem oid_not_increasing_check fuel (x : GoSNMP) (ty0 : PDUType)
    rootOid maxReps ty oid requests t v t1 r pre pdu post v1 :
  let ci := checkIncreasingOf x ty0 in
  request ty oid maxReps t = (t1, Ok r) ->
  Variables r = pre ++ pdu :: post ->
  stopsOnError (Error r) = false ->
  rangeVariables walkFn rootOid oid (requests + 1) ci 0 pre v = NextRound v1 ->
  isEndType (Type_ pdu) = false ->
  inRange rootOid pdu = true ->
  (ci = false <->
     (exists opts, AppOpts x = Some opts /\ is_Some (opts !! "c"))
     /\ (ty0 = GetBulkRequest \/ ty0 = GetNextRequest))
  /\ (ci = true -> Name pdu = oid ->
      RequestLoop walkFn (S fuel) rootOid maxReps ci ty oid requests t v
      = Some (t1, v1, Some ("OID not increasing: " +:+ oid)))
  /\ (ci = false \/ Name pdu <> oid ->
      rangeVariables walkFn rootOid oid (requests + 1) ci 0 (Variables r) v
      = match walkFn v1 pdu with
        | (v2, Some e) => ReturnErr v2 e
        | (v2, None) =>
          rangeVariables walkFn rootOid oid (requests + 1) ci
            (len_Z pre + 1) post v2
        end).
Proof.
  intros ci Hreq Hcut Hstop Hpre Hty Hin. split; [|split].
  - subst ci. unfold checkIncreasingOf.
    destruct (AppOpts x) as [opts|]; cycle 1.
    { split; [discriminate | intros [(o & Ho & _) _]; discriminate]. }
    destruct (opts !! "c") as [c|] eqn:Hc; cycle 1.
    { split; [discriminate|].
      intros [(o & Ho & Hs) _]. injection Ho as <-.
      rewrite Hc in Hs. destruct Hs; discriminate. }
    destruct ((ty0 =? GetBulkRequest) || (ty0 =? GetNextRequest)) eqn:E.
    + split; [|reflexivity]. intros _. split; [eauto|].
      apply orb_true_iff in E. rewrite !Z.eqb_eq in E. exact E.
    + split; [discriminate|]. intros [_ Hor].
      apply orb_false_iff in E. rewrite !Z.eqb_neq in E. tauto.
  - intros Hci Hname.
    rewrite (RequestLoop_round fuel rootOid maxReps ci ty oid requests t v t1 r)
      by (auto; rewrite Hcut; destruct pre; discriminate).
    rewrite Hcut, rangeVariables_app, Hpre. simpl.
    rewrite Hty, Hin, Hci, Hname. simpl. rewrite String.eqb_refl.
    reflexivity.
  - intros Hor.
    rewrite Hcut, rangeVariables_app, Hpre. simpl.
    rewrite Hty, Hin. simpl.
    assert (ci && (Name pdu =? oid)%string = false) as ->.
    { destruct Hor as [-> | Hne]; [reflexivity|].
      apply andb_false_iff. right. apply String.eqb_neq. exact Hne. }
    reflexivity.
Qed.

(** The fallback of issues #78 and #93: an out-of-range first varbind in
    the first round turns the second round into a Get on the root, and a
    varbind named like the root found there goes to the visitor. *)
Lemma fallback_get_delivers fuel (x : GoSNMP) ty rootOid t v
    t1 r1 pdu1 rest1 t2 r2 leaf rest2 :
  let root := normalizeRoot rootOid in
  request ty root (walkMaxReps x) t = (t1, Ok r1) ->
  Variables r1 = pdu1 :: rest1 ->
  stopsOnError (Error r1) = false ->
  isEndType (Type_ pdu1) = false ->
  inRange root pdu1 = false ->
  Get t1 [root] = (t2, Ok r2) ->
  Variables r2 = leaf :: rest2 ->
  stopsOnError (Error r2) = false ->
  isEndType (Type_ leaf) = false ->
  Name leaf = root ->
  walk walkFn (S (S fuel)) x ty rootOid t v =
  Some (t2, fst (walkFn v leaf), snd (walkFn v leaf)).
Proof.
  intros root Hreq1 Hv1 Hs1 Hty1 Hout1 Hget Hv2 Hs2 Hty2 Hname.
  unfold walk. fold root.
  rewrite (RequestLoop_round _ _ _ _ _ _ _ _ _ t1 r1)
    by (auto; rewrite Hv1; discriminate).
  rewrite Hv1. simpl rangeVariables. rewrite Hty1, Hout1.
  cbn [negb andb Z.add Z.eqb Pos.eqb].
  assert (request GetRequest root (walkMaxReps x) t1 = (t2, Ok r2)) as Hreq2
    by (unfold request; simpl; exact Hget).
  rewrite (RequestLoop_round _ _ _ _ _ _ _ _ _ t2 r2)
    by (auto; rewrite Hv2; discriminate).
  rewrite Hv2. simpl rangeVariables.
  rewrite Hty2, (root_not_inRange root leaf Hname).
  cbn [negb andb Z.add Z.eqb Pos.eqb Pos.add Pos.succ].
  rewrite Hname, String.eqb_refl.
  assert (Asn1BER_eqb (Type_ leaf) NoSuchInstance = false) as ->.
  { unfold isEndType in Hty2. apply orb_false_iff in Hty2. tauto. }
  cbn [negb andb]. destruct (walkFn v leaf) as [v' [e|]]; reflexivity.
Qed.

(** In any round but the first, and at any position but the first of the
    first round, an out-of-range varbind named like the root and not of
    an end type goes to the visitor and ends the walk. *)
Lemma late_root_varbind rootOid oid requests ci pre pdu post v v1 :
  rangeVariables walkFn rootOid oid requests ci 0 pre v = NextRound v1 ->
  requests <> 1 \/ pre <> [] ->
  isEndType (Type_ pdu) = false ->
  Name pdu = rootOid ->
  rangeVariables walkFn rootOid oid requests ci 0 (pre ++ pdu :: post) v =
  match walkFn v1 pdu with
  | (v2, Some e) => ReturnErr v2 e
  | (v2, None) => BreakLoop v2
  end.
Proof.
  intros Hpre Hlate Hty Hname.
  rewrite rangeVariables_app, Hpre. simpl.
  rewrite Hty, (root_not_inRange rootOid pdu Hname). simpl.
  assert ((requests =? 1) && (0 + len_Z pre =? 0) = false) as ->.
  { apply andb_false_iff. destruct Hlate as [Hr | Hp].
    - left. apply Z.eqb_neq. exact Hr.
    - right. apply Z.eqb_neq. unfold len_Z. destruct pre; [contradiction|].
      simpl. lia. }
  rewrite Hname, String.eqb_refl. simpl.
  assert (Asn1BER_eqb (Type_ pdu) NoSuchInstance = false) as ->.
  { unfold isEndType in Hty. apply orb_false_iff in Hty. tauto. }
  reflexivity.
Qed.

(** The same, seen from the request loop: the walk ends there, with what
    the visitor returned. *)
Lemma late_root_round fuel rootOid maxReps ci ty oid requests t v t1 r
    pre pdu post v1 :
  request ty oid maxReps t = (t1, Ok r) ->
  Variables r = pre ++ pdu :: post ->
  stopsOnError (Error r) = false ->
  rangeVariables walkFn rootOid oid (requests + 1) ci 0 pre v = NextRound v1 ->
  requests <> 0 \/ pre <> [] ->
  isEndType (Type_ pdu) = false ->
  Name pdu = rootOid ->
  RequestLoop walkFn (S fuel) rootOid maxReps ci ty oid requests t v
  = Some (t1, fst (walkFn v1 pdu), snd (walkFn v1 pdu)).
Proof.
  intros Hreq Hcut Hstop Hpre Hlate Hty Hname.
  rewrite (RequestLoop_round fuel rootOid maxReps ci ty oid requests t v t1 r)
    by (auto; rewrite Hcut; destruct pre; discriminate).
  assert (requests + 1 <> 1 \/ pre <> []) as Hlate'
    by (destruct Hlate; [left; lia | right; assumption]).
  rewrite Hcut, (late_root_varbind rootOid oid (requests + 1) ci pre pdu post
                   v v1 Hpre Hlate' Hty Hname).
  destruct (walkFn v1 pdu) as [v2 [e|]]; reflexivity.
Qed.

End round.

(** A varbind found on the fallback Get is collected by [walkAll]: the
    walk of a scalar yields exactly that one varbind. *)
Lemma walkAll_leaf {T : Type} `{Transport T} fuel (x : GoSNMP) ty rootOid t
    t1 r1 pdu1 rest1 t2 r2 leaf rest2 :
  let root := normalizeRoot rootOid in
  request ty root (walkMaxReps x) t = (t1, Ok r1) ->
  Variables r1 = pdu1 :: rest1 ->
  stopsOnError (Error r1) = false ->
  isEndType (Type_ pdu1) = false ->
  inRange root pdu1 = false ->
  Get t1 [root] = (t2, Ok r2) ->
  Variables r2 = leaf :: rest2 ->
  stopsOnError (Error r2) = false ->
  isEndType (Type_ leaf) = false ->
  Name leaf = root ->
  walkAll (S (S fuel)) x ty rootOid t = Some (t2, [leaf], None).
Proof.
  intros. unfold walkAll.
  erewrite fallback_get_delivers by eassumption. reflexivity.
Qed.

(** C8 (amended).  Four facts about a walk and the root it is given.
    When the first response is not empty, carries no stopping
    error-status, and its first varbind is not of an end type and is not
    prefixed by the root and a dot, the walk goes on as a Get on the root,
    the visitor not yet called.  When the first varbind of the answer to
    that Get is named like the root and is not of an end type, the
    visitor receives it, and it alone, and the walk returns what the
    visitor returned for it; [walkAll] then returns exactly this one
    varbind.  In any later round, and at any later position the range
    loop reaches, a varbind named like the root and not of an end type
    goes to the visitor and ends the walk with the visitor's result.  And
    when the first response is empty, carries a stopping error-status or
    begins with a varbind of an end type, the walk ends with a nil error
    and the visitor is never called. *)
Theorem leaf_fallback {T : Type} `{Transport T} :
  (forall (V : Type) (walkFn : WalkFunc V) fuel (x : GoSNMP) ty rootOid
          t v t1 r1 pdu1 rest1,
     let root := normalizeRoot rootOid in
     request ty root (walkMaxReps x) t = (t1, Ok r1) ->
     Variables r1 = pdu1 :: rest1 ->
     stopsOnError (Error r1) = false ->
     isEndType (Type_ pdu1) = false ->
     inRange root pdu1 = false ->
     walk walkFn (S fuel) x ty rootOid t v
     = RequestLoop walkFn fuel root (walkMaxReps x) (checkIncreasingOf x ty)
         GetRequest root 1 t1 v)
  /\ (forall (V : Type) (walkFn : WalkFunc V) fuel (x : GoSNMP) ty rootOid
             t v t1 r1 pdu1 rest1 t2 r2 leaf rest2,
        let root := normalizeRoot rootOid in
        request ty root (walkMaxReps x) t = (t1, Ok r1) ->
        Variables r1 = pdu1 :: rest1 ->
        stopsOnError (Error r1) = false ->
        isEndType (Type_ pdu1) = false ->
        inRange root pdu1 = false ->
        Get t1 [root] = (t2, Ok r2) ->
        Variables r2 = leaf :: rest2 ->
        stopsOnError (Error r2) = false ->
        isEndType (Type_ leaf) = false ->
        Name leaf = root ->
        walk walkFn (S (S fuel)) x ty rootOid t v
        = Some (t2, fst (walkFn v leaf), snd (walkFn v leaf))
        /\ walkAll (S (S fuel)) x ty rootOid t = Some (t2, [leaf], None))
  /\ (forall (V : Type) (walkFn : WalkFunc V) fuel root maxReps ci ty oid
             requests t v t1 r pre pdu post v1,
        request ty oid maxReps t = (t1, Ok r) ->
        Variables r = pre ++ pdu :: post ->
        stopsOnError (Error r) = false ->
        rangeVariables walkFn root oid (requests + 1) ci 0 pre v
        = NextRound v1 ->
        requests <> 0 \/ pre <> [] ->
        isEndType (Type_ pdu) = false ->
        Name pdu = root ->
        RequestLoop walkFn (S fuel) root maxReps ci ty oid requests t v
        = Some (t1, fst (walkFn v1 pdu), snd (walkFn v1 pdu)))
  /\ (forall (V : Type) (walkFn : WalkFunc V) fuel (x : GoSNMP) ty rootOid
             t v t1 r1,
        let root := normalizeRoot rootOid in
        request ty root (walkMaxReps x) t = (t1, Ok r1) ->
        (Variables r1 = []
         \/ stopsOnError (Error r1) = true
         \/ exists pdu1 rest1,
              Variables r1 = pdu1 :: rest1 /\ isEndType (Type_ pdu1) = true) ->
        walk walkFn (S fuel) x ty rootOid t v = Some (t1, v, None)).
Proof.
  split; [|split; [|split]].
  - intros V walkFn fuel x ty rootOid t v t1 r1 pdu1 rest1 root
      Hreq Hv Hs Hty Hout.
    unfold walk. fold root.
    rewrite (RequestLoop_round walkFn _ _ _ _ _ _ _ _ _ t1 r1)
      by (auto; rewrite Hv; discriminate).
    rewrite Hv. cbn [rangeVariables]. rewrite Hty, Hout. reflexivity.
  - intros V walkFn fuel x ty rootOid t v t1 r1 pdu1 rest1 t2 r2 leaf rest2
      root Hreq1 Hv1 Hs1 Hty1 Hout1 Hget Hv2 Hs2 Hty2 Hname. split.
    + eapply fallback_get_delivers; eassumption.
    + eapply walkAll_leaf; eassumption.
  - intros. eapply late_root_round; eassumption.
  - intros V walkFn fuel x ty rootOid t v t1 r1 root Hreq Hwhy.
    unfold walk. fold root. cbn [RequestLoop]. rewrite Hreq.
    destruct (Variables r1) as [|p ps] eqn:Hv; [reflexivity|].
    destruct (stopsOnError (Error r1)) eqn:Hs; [reflexivity|].
    destruct Hwhy as [Hnil | [Hstop | (pdu1 & rest1 & Hcut & Hty)]].
    + discriminate Hnil.
    + discriminate Hstop.
    + injection Hcut as <- <-. cbn [rangeVariables]. rewrite Hty.
      reflexivity.
Qed.

(** *** The theorems at work on scripted agents *)

Import Fixtures.

Lemma walk_stops_cleanly_witness :
  exists v',
    RequestLoop collect 1 ".1.3.6.1" 50 true GetNextRequest ".1.3.6.1.5" 1
      (agent [respond [vb2; end5; vb5]]) [vb5]
    = Some (mkScript [] [(GetNextRequest, [".1.3.6.1.5"])], v', None).
Proof.
  apply (walk_stops_cleanly collect 0 ".1.3.6.1" 50 true GetNextRequest
           ".1.3.6.1.5" 1 (agent [respond [vb2; end5; vb5]]) [vb5]
           (mkScript [] [(GetNextRequest, [".1.3.6.1.5"])])
           (mkPacket [vb2; end5; vb5] NoError NoAuthNoPriv NotUsm)).
  - reflexivity.
  - right. right. exists [vb2], end5, [vb5], [vb5; vb2].
    split; [reflexivity | split; [reflexivity | left; reflexivity]].
Defined.

Lemma oid_not_increasing_check_witness :
  RequestLoop collect 1 ".1.3.6.1" 50 (checkIncreasingOf session GetNextRequest)
    GetNextRequest ".1.3.6.1.5" 1 (agent [respond [vb5]]) [vb5]
  = Some (mkScript [] [(GetNextRequest, [".1.3.6.1.5"])], [vb5],
          Some "OID not increasing: .1.3.6.1.5").
Proof.
  refine (proj1 (proj2
    (oid_not_increasing_check collect 0 session GetNextRequest ".1.3.6.1" 50
       GetNextRequest ".1.3.6.1.5" 1 (agent [respond [vb5]]) [vb5]
       (mkScript [] [(GetNextRequest, [".1.3.6.1.5"])])
       (mkPacket [vb5] NoError NoAuthNoPriv NotUsm) [] vb5 [] [vb5]
       _ _ _ _ _ _)) _ _);
    reflexivity.
Defined.

Lemma leaf_fallback_witness :
  walk collect 2 session GetNextRequest sysName0 leafAgent []
  = Some (mkScript [] [(GetNextRequest, [sysName0]); (GetRequest, [sysName0])],
          [vbName], None).
Proof.
  refine (proj1
    (proj1 (proj2 leaf_fallback) (list SnmpPDU) collect 0%nat session
       GetNextRequest sysName0 leafAgent []
       (mkScript [respond [vbName]] [(GetNextRequest, [sysName0])])
       (mkPacket [vbLocation] NoError NoAuthNoPriv NotUsm) vbLocation []
       (mkScript [] [(GetNextRequest, [sysName0]); (GetRequest, [sysName0])])
       (mkPacket [vbName] NoError NoAuthNoPriv NotUsm) vbName []
       _ _ _ _ _ _ _ _ _ _));
    reflexivity.
Defined.

(** C1, as first stated, fails.  With the check on, the agent [backwards]
    answers the request that starts at [.1.3.6.1.5] with the in-range but
    smaller [.1.3.6.1.2]: the walk delivers it and ends with a nil error.
    And the agent [endsAtStart] answers that request with a varbind named
    exactly [.1.3.6.1.5], of type EndOfMibView: the walk ends with a nil
    error, not with "OID not increasing". *)
Lemma oid_not_increasing_counterexample :
  checkIncreasingOf session GetNextRequest = true
  /\ walkAll 3 session GetNextRequest ".1.3.6.1" backwards
     = Some (mkScript [] [(GetNextRequest, [".1.3.6.1"]);
                          (GetNextRequest, [".1.3.6.1.5"]);
                          (GetNextRequest, [".1.3.6.1.2"])],
             [vb5; vb2], None)
  /\ inRange ".1.3.6.1" vb2 = true
  /\ Oid.ltb ".1.3.6.1.5" (Name vb2) = false
  /\ walkAll 2 session GetNextRequest ".1.3.6.1" endsAtStart
     = Some (mkScript [] [(GetNextRequest, [".1.3.6.1"]);
                          (GetNextRequest, [".1.3.6.1.5"])],
             [vb5], None)
  /\ Name end5 = ".1.3.6.1.5"
  /\ inRange ".1.3.6.1" end5 = true.
Proof. repeat split; vm_compute; reflexivity. Qed.

(** C8, as first stated, fails.  The agent [noLeafAgent] sends the walk of
    sysName.0 to its fallback Get and answers that with a varbind named
    like the root whose type, NoSuchObject, is not NoSuchInstance: nothing
    is delivered.  And the agent [lastLeafAgent] holds the scalar, and
    would answer a Get with it, but answers the first GetNext with an
    end-of-MIB marker: the walk of the leaf ends after one request and
    returns no varbind. *)
Lemma leaf_fallback_counterexample :
  walkAll 2 session GetNextRequest sysName0 noLeafAgent
  = Some (mkScript [] [(GetNextRequest, [sysName0]); (GetRequest, [sysName0])],
          [], None)
  /\ Name vbMissing = sysName0
  /\ Type_ vbMissing <> NoSuchInstance
  /\ inRange sysName0 vbMissing = false
  /\ walkAll 2 session GetNextRequest sysName0 lastLeafAgent
     = Some (mkScript [respond [vbName]] [(GetNextRequest, [sysName0])],
             [], None).
Proof. repeat split; try (vm_compute; reflexivity). discriminate. Qed.

(** C9, as first stated, fails.  The second response of [repeatsThenEnds]
    carries a varbind of type EndOfMibView behind one that repeats the
    request's OID: the walk returns "OID not increasing", not nil.  And
    the only response of [strayThenEnd] carries such a varbind behind one
    outside the root: the walk retries as a Get, which times out, and
    returns that error. *)
Lemma walk_stops_cleanly_counterexample :
  walkAll 2 session GetNextRequest ".1.3.6.1" repeatsThenEnds
  = Some (mkScript [] [(GetNextRequest, [".1.3.6.1"]);
                       (GetNextRequest, [".1.3.6.1.5"])],
          [vb5], Some "OID not increasing: .1.3.6.1.5")
  /\ pending repeatsThenEnds = [respond [vb5]; respond [vb5; end5]]
  /\ Type_ end5 = EndOfMibView
  /\ walkAll 2 session GetNextRequest sysName0 strayThenEnd
     = Some (mkScript [] [(GetNextRequest, [sysName0]);
                          (GetRequest, [sysName0])],
             [], Some "request timeout")
  /\ pending strayThenEnd = [respond [vbLocation; endName]]
  /\ Type_ endName = EndOfMibView.
Proof. repeat split; vm_compute; reflexivity. Qed.

End WalkFacts.

(** ** Properties of the User Security Model *)

Module USMFacts.

Import USM KeySpec.

(** *** Bytes *)

Lemma Z_of_byte_of_Z (z : Z) : Z_of_byte (byte_of_Z z) = z mod 256.
Proof.
  unfold Z_of_byte, byte_of_Z.
  assert (0 <= z mod 256 < 256) as Hr by (apply Z.mod_pos_bound; lia).
  destruct (Byte.of_N (Z.to_N (z mod 256))) as [b|] eqn:E.
  - apply Byte.to_of_N in E. rewrite E. lia.
  - apply Byte.of_N_None_iff in E. lia.
Qed.

Lemma byte_of_Z_inj_uint8 (a b : Z) :
  is_uint8 a -> is_uint8 b -> byte_of_Z (104 + a) = byte_of_Z (104 + b) -> a = b.
Proof.
  unfold is_uint8. intros Ha Hb E.
  apply (f_equal Z_of_byte) in E. rewrite !Z_of_byte_of_Z in E.
  assert (Hc : forall x, 0 <= x < 256 ->
            (104 + x) mod 256 = if x <? 152 then 104 + x else x - 152).
  { intros x Hx. destruct (x <? 152) eqn:L.
    - apply Z.ltb_lt in L. apply Z.mod_small. lia.
    - apply Z.ltb_ge in L.
      replace (104 + x) with (x - 152 + 1 * 256) by lia.
      rewrite Z.mod_add by lia. apply Z.mod_small. lia. }
  rewrite (Hc a Ha), (Hc b Hb) in E.
  destruct (a <? 152) eqn:La, (b <? 152) eqn:Lb;
    try apply Z.ltb_lt in La; try apply Z.ltb_ge in La;
    try apply Z.ltb_lt in Lb; try apply Z.ltb_ge in Lb; lia.
Qed.

Lemma bytes_eqb_eq (x y : list byte) : bytes_eqb x y = true <-> x = y.
Proof.
  revert y. induction x as [|a x IH]; intros [|b y]; simpl;
    try (split; [discriminate | intros E; discriminate E]); [tauto|].
  rewrite andb_true_iff, IH. split.
  - intros [E ->]. apply Byte.byte_dec_bl in E. congruence.
  - intros E. injection E as -> ->. split; [apply Byte.byte_dec_lb|]; reflexivity.
Qed.

Lemma string_empty_bytes (s : string) :
  (len (list_byte_of_string s) =? 0) = true <-> s = "".
Proof.
  unfold len. destruct s; simpl; [tauto|].
  split; intros E; discriminate E.
Qed.

(** *** Password to key *)

Lemma octetsFrom_S password pi n :
  octetsFrom password pi (S n)
  = passwordByte password pi :: octetsFrom password (pi + 1) n.
Proof.
  unfold octetsFrom. simpl. rewrite Z.add_0_r. f_equal.
  rewrite <- seq_shift, map_map. apply map_ext. intros k. f_equal. lia.
Qed.

Lemma octetsFrom_app password pi n m :
  octetsFrom password pi (n + m)
  = octetsFrom password pi n ++ octetsFrom password (pi + Z.of_nat n) m.
Proof.
  revert pi. induction n as [|n IH]; intros pi.
  - simpl. f_equal. lia.
  - change (S n + m)%nat with (S (n + m)). rewrite !octetsFrom_S, IH.
    simpl. do 3 f_equal. lia.
Qed.

Lemma fillChunk_spec n password pi chunk :
  fillChunk n password pi chunk
  = (chunk ++ octetsFrom password pi n, pi + Z.of_nat n).
Proof.
  revert pi chunk. induction n as [|n IH]; intros pi chunk.
  - simpl. rewrite app_nil_r. f_equal. lia.
  - cbn [fillChunk]. rewrite IH, octetsFrom_S, <- app_assoc. simpl.
    f_equal. lia.
Qed.

Lemma writeChunks_S n password i pi h :
  writeChunks (S n) password i pi h
  = if i <? 1048576 then
      writeChunks n password (i + 64) (pi + 64)
        (hash_Write h (octetsFrom password pi 64))
    else h.
Proof.
  cbn [writeChunks]. rewrite fillChunk_spec. reflexivity.
Qed.

Lemma writeChunks_spec n password i pi h :
  i + 64 * Z.of_nat n <= 1048576 ->
  writeChunks n password i pi h
  = mkHash (hash_alg h) (hash_written h ++ octetsFrom password pi (64 * n)).
Proof.
  revert i pi h. induction n as [|n IH]; intros i pi h Hi.
  - simpl. rewrite app_nil_r. destruct h; reflexivity.
  - rewrite writeChunks_S.
    assert ((i <? 1048576) = true) as -> by (apply Z.ltb_lt; lia).
    rewrite IH by lia. unfold hash_Write. cbn [hash_alg hash_written].
    replace (64 * S n)%nat with (64 + 64 * n)%nat by lia.
    rewrite octetsFrom_app, <- app_assoc. reflexivity.
Qed.

(** The repeated passphrase, octet by octet. *)
Lemma length_concat_repeat (p : list byte) (m : nat) :
  length (concat (repeat p m)) = (m * length p)%nat.
Proof.
  induction m as [|m IH]; simpl; [reflexivity|].
  rewrite length_app, IH. reflexivity.
Qed.

Lemma nth_concat_repeat (p : list byte) (m j : nat) :
  (j < m * length p)%nat ->
  nth j (concat (repeat p m)) x00 = nth (j mod length p) p x00.
Proof.
  revert j. induction m as [|m IH]; intros j Hj; [simpl in Hj; lia|].
  simpl in *. destruct (Nat.lt_ge_cases j (length p)) as [Hlt | Hge].
  - rewrite app_nth1 by exact Hlt. rewrite Nat.mod_small by exact Hlt.
    reflexivity.
  - rewrite app_nth2 by exact Hge. rewrite IH by lia. f_equal.
    replace j with ((j - length p) + 1 * length p)%nat at 2 by lia.
    rewrite Nat.Div0.mod_add. reflexivity.
Qed.

Lemma length_cyclicOctets (p : list byte) (n : nat) :
  p <> [] -> length (cyclicOctets p n) = n.
Proof.
  intros Hp. unfold cyclicOctets. apply firstn_length_le.
  rewrite length_concat_repeat. destruct p; [contradiction|]. simpl. nia.
Qed.

Lemma nth_cyclicOctets (p : list byte) (n j : nat) :
  p <> [] -> (j < n)%nat ->
  nth j (cyclicOctets p n) x00 = nth (j mod length p) p x00.
Proof.
  intros Hp Hj. unfold cyclicOctets. rewrite nth_firstn.
  assert ((j <? n)%nat = true) as -> by (apply Nat.ltb_lt; exact Hj).
  apply nth_concat_repeat. destruct p; [contradiction|]. simpl. nia.
Qed.

(** What the loops read is the cyclic repetition of the passphrase. *)
Lemma octetsFrom_cyclic (password : string) (n : nat) :
  password <> "" ->
  octetsFrom password 0 n = cyclicOctets (list_byte_of_string password) n.
Proof.
  intros Hp.
  assert (list_byte_of_string password <> []) as Hb.
  { intros E. apply Hp. rewrite <- (string_of_list_byte_of_string password), E.
    reflexivity. }
  apply (nth_ext _ _ x00 x00).
  - unfold octetsFrom. rewrite length_map, length_seq, length_cyclicOctets; auto.
  - unfold octetsFrom at 1. rewrite length_map, length_seq. intros j Hj.
    rewrite nth_cyclicOctets by assumption.
    unfold octetsFrom.
    rewrite (nth_indep _ x00 (passwordByte password (0 + Z.of_nat 0)))
      by (rewrite length_map, length_seq; exact Hj).
    rewrite (map_nth (fun k => passwordByte password (0 + Z.of_nat k))).
    rewrite seq_nth by exact Hj. unfold passwordByte, len.
    replace (0 + Z.of_nat (0 + j)) with (Z.of_nat j) by lia.
    rewrite <- Nat2Z.inj_mod, Nat2Z.id. reflexivity.
Qed.

Section keys.
Context `{Primitives}.

(** [hashPassword] on a fresh hash. *)
Lemma hashPassword_Ku (h : crypto_Hash) (password : string) :
  password <> "" ->
  hashPassword (hash_New h) password = (Ku h password, None).
Proof.
  intros Hp. unfold hashPassword.
  destruct (len (list_byte_of_string password) =? 0) eqn:E.
  { apply string_empty_bytes in E. contradiction. }
  change (1048576 / 64) with 16384.
  assert (0 + 64 * Z.of_nat (Z.to_nat 16384) <= 1048576) as Hn.
  { rewrite Z2Nat.id; lia. }
  rewrite (writeChunks_spec (Z.to_nat 16384) password 0 0 (hash_New h) Hn).
  assert ((64 * Z.to_nat 16384)%nat = Z.to_nat 1048576) as -> by lia.
  unfold hash_Sum, hash_New, Ku, megabyte. cbn [hash_alg hash_written app].
  rewrite octetsFrom_cyclic by exact Hp. reflexivity.
Qed.

Lemma hashPassword_empty (hash : hash_Hash) :
  hashPassword hash "" = ([], Some "hashPassword: password is empty").
Proof. reflexivity. Qed.

(** *** The cache *)

Lemma keyOf_inj a p a' p' :
  is_uint8 a -> is_uint8 a' -> keyOf a p = keyOf a' p' -> a = a' /\ p = p'.
Proof.
  intros Ha Ha' E. unfold keyOf in E.
  apply (f_equal list_byte_of_string) in E.
  rewrite !list_byte_of_string_of_list_byte in E.
  assert (length (list_byte_of_string p) = length (list_byte_of_string p'))
    as Hlen.
  { apply (f_equal (@length byte)) in E.
    rewrite !length_app, !repeat_length in E. simpl in E. lia. }
  rewrite Hlen in E. apply app_inv_head in E. injection E as Eb Ep.
  split.
  - apply byte_of_Z_inj_uint8; assumption.
  - rewrite <- (string_of_list_byte_of_string p),
            <- (string_of_list_byte_of_string p'), Ep. reflexivity.
Qed.

Lemma cacheKey_spec a p g :
  cacheKey a p g
  = Done (if passwordCacheDisable g then "" else keyOf a p, g).
Proof.
  unfold cacheKey, bind, loadDisable, ret.
  destruct (passwordCacheDisable g); [reflexivity|].
  unfold keyOf. rewrite <- app_assoc. reflexivity.
Qed.

Lemma keeps_refl g : cache_ok g -> keeps g g.
Proof. intros; split; auto. Qed.

Lemma keeps_trans g1 g2 g3 : keeps g1 g2 -> keeps g2 g3 -> keeps g1 g3.
Proof. intros [_ E1] [Hok E2]. split; [exact Hok | congruence]. Qed.

Lemma cache_ok_insert g m a p :
  cache_ok g -> is_uint8 a -> p <> "" ->
  passwordKeyHashCache g = Some m ->
  cache_ok (mkGlobals (Some (<[keyOf a p := Ku (HashType a) p]> m))
                      (passwordCacheDisable g)).
Proof.
  intros [Hmap Hval] Ha Hp Hm. split; simpl; [eauto|].
  intros m' a' p' v [= <-] Ha' Hlook.
  destruct (decide (keyOf a p = keyOf a' p')) as [E | Hne].
  - rewrite E, lookup_insert_eq in Hlook. injection Hlook as <-.
    apply keyOf_inj in E as [-> ->]; auto.
  - rewrite lookup_insert_ne in Hlook by exact Hne. eauto.
Qed.

(** The cached step computes [Ku], whatever the cache holds. *)
Lemma cachedPasswordToKey_ok a p g :
  cache_ok g -> is_uint8 a ->
  exists g',
    cachedPasswordToKey (hash_New (HashType a))
      (if passwordCacheDisable g then "" else keyOf a p) p g
    = Done (match p with
            | EmptyString => ([], Some "hashPassword: password is empty")
            | _ => (Ku (HashType a) p, None)
            end, g')
    /\ keeps g g'.
Proof.
  intros Hok Ha. unfold cachedPasswordToKey, bind, loadDisable.
  destruct (passwordCacheDisable g) eqn:Hd; cbn [negb]; unfold ret at 1.
  - destruct p as [|c p].
    + exists g. rewrite hashPassword_empty. split; [reflexivity|].
      apply keeps_refl, Hok.
    + exists g. rewrite hashPassword_Ku by discriminate.
      split; [reflexivity | apply keeps_refl, Hok].
  - unfold cacheRead.
    destruct Hok as [Hmap Hval]. destruct (Hmap Hd) as [m Hm]. rewrite Hm.
    assert (cache_ok g) as Hok by (split; assumption).
    assert (forall q, q = m !! keyOf a p ->
      (exists b v, q = Some (b :: v)) \/ q = Some [] \/ q = None) as Hcases.
    { intros [[|b v]|] _; eauto. }
    destruct (Hcases _ eq_refl) as [(b & v & Hhit) | Hmiss].
    + rewrite Hhit. destruct (Hval m a p (b :: v) Hm Ha Hhit) as [Hp Hv].
      exists g. unfold ret. rewrite Hv.
      destruct p; [contradiction|]. split; [reflexivity|].
      apply keeps_refl, Hok.
    + destruct p as [|c p].
      * exists g. split; [|apply keeps_refl, Hok].
        destruct Hmiss as [-> | ->]; reflexivity.
      * set (pw := String c p) in *.
        exists (mkGlobals (Some (<[keyOf a pw := Ku (HashType a) pw]> m))
                          (passwordCacheDisable g)).
        split.
        -- assert (hashPassword (hash_New (HashType a)) pw
                   = (Ku (HashType a) pw, None)) as Hh
             by (apply hashPassword_Ku; discriminate).
           destruct Hmiss as [-> | ->]; rewrite Hh;
             unfold cacheWrite, ret; rewrite Hm; reflexivity.
        -- split; [|reflexivity].
           apply cache_ok_insert; auto; discriminate.
Qed.

Lemma hMAC_ok a p e g :
  cache_ok g -> is_uint8 a ->
  exists g',
    hMAC (HashType a) (if passwordCacheDisable g then "" else keyOf a p) p e g
    = Done ((localizedKey a p e, None), g')
    /\ keeps g g'.
Proof.
  intros Hok Ha.
  destruct (cachedPasswordToKey_ok a p g Hok Ha) as (g' & Hc & Hk).
  exists g'. split; [|exact Hk].
  unfold hMAC, bind. rewrite Hc. destruct p as [|c p]; [reflexivity|].
  unfold ret, localizedKey, KuL, hash_Sum, hash_Write, hash_New.
  cbn [hash_alg hash_written app]. rewrite <- app_assoc. reflexivity.
Qed.

Lemma genlocalkey_ok a p e g :
  cache_ok g -> is_uint8 a ->
  exists g',
    genlocalkey a p e g = Done ((localizedKey a p e, None), g')
    /\ keeps g g'.
Proof.
  intros Hok Ha. destruct (hMAC_ok a p e g Hok Ha) as (g' & Hh & Hk).
  exists g'. split; [|exact Hk].
  unfold genlocalkey, bind at 1. rewrite cacheKey_spec.
  unfold bind. rewrite Hh. reflexivity.
Qed.

Lemma extendKeyReeder_ok a p e g :
  cache_ok g -> is_uint8 a ->
  exists g',
    extendKeyReeder a p e g = Done ((reederKey a p e, None), g')
    /\ keeps g g'.
Proof.
  intros Hok Ha. destruct (hMAC_ok a p e g Hok Ha) as (g1 & Hh1 & Hk1).
  destruct (hMAC_ok a (string_of_list_byte (localizedKey a p e)) e g1
              (proj1 Hk1) Ha) as (g2 & Hh2 & Hk2).
  exists g2. split; [|eapply keeps_trans; eassumption].
  unfold extendKeyReeder, bind at 1. rewrite cacheKey_spec.
  unfold bind at 1. rewrite Hh1.
  unfold bind at 1. rewrite cacheKey_spec.
  unfold bind. rewrite Hh2. reflexivity.
Qed.

Lemma extendKeyBlumenthal_ok a p e g :
  cache_ok g -> is_uint8 a ->
  exists g',
    extendKeyBlumenthal a p e g = Done ((blumenthalKey a p e, None), g')
    /\ keeps g g'.
Proof.
  intros Hok Ha. destruct (hMAC_ok a p e g Hok Ha) as (g' & Hh & Hk).
  exists g'. split; [|exact Hk].
  unfold extendKeyBlumenthal, bind at 1. rewrite cacheKey_spec.
  unfold bind. rewrite Hh. reflexivity.
Qed.

Lemma genlocalPrivKey_ok pp a p e g :
  cache_ok g -> is_uint8 a ->
  exists g' r,
    genlocalPrivKey pp a p e g = Done (r, g')
    /\ keeps g g'
    /\ (len (extendedKey pp a p e) < keylenOf pp ->
        fst r = [] /\ is_Some (snd r))
    /\ (keylenOf pp <= len (extendedKey pp a p e) ->
        r = (firstn (Z.to_nat (keylenOf pp)) (extendedKey pp a p e), None)).
Proof.
  intros Hok Ha.
  assert (exists g',
    genlocalPrivKey pp a p e g
    = Done (if len (extendedKey pp a p e) <? keylenOf pp
            then ([], Some ("genlocalPrivKey: privProtocol: " +:+ privProtocolString pp
                   +:+ " len(localPrivKey): "
                   +:+ pretty (len (extendedKey pp a p e))
                   +:+ ", keylen: " +:+ pretty (keylenOf pp)))
            else (firstn (Z.to_nat (keylenOf pp)) (extendedKey pp a p e), None),
            g')
    /\ keeps g g') as (g' & Hrun & Hk).
  { unfold genlocalPrivKey, extendedKey, usesReeder, usesBlumenthal.
    destruct ((pp =? AES) || (pp =? AES192C) || (pp =? AES256C)).
    - destruct (extendKeyReeder_ok a p e g Hok Ha) as (g' & Hstep & Hk).
      exists g'. split; [|exact Hk]. unfold bind. rewrite Hstep.
      destruct (_ <? _); reflexivity.
    - destruct ((pp =? AES192) || (pp =? AES256)).
      + destruct (extendKeyBlumenthal_ok a p e g Hok Ha) as (g' & Hstep & Hk).
        exists g'. split; [|exact Hk]. unfold bind. rewrite Hstep.
        destruct (_ <? _); reflexivity.
      + destruct (genlocalkey_ok a p e g Hok Ha) as (g' & Hstep & Hk).
        exists g'. split; [|exact Hk]. unfold bind. rewrite Hstep.
        destruct (_ <? _); reflexivity. }
  eexists g', _. split; [exact Hrun|]. split; [exact Hk|].
  destruct (len (extendedKey pp a p e) <? keylenOf pp) eqn:L.
  - apply Z.ltb_lt in L. split; [intros _; simpl; eauto | lia].
  - apply Z.ltb_ge in L. split; [lia | reflexivity].
Qed.

(** Every reachable state of the globals has a sound cache. *)
Lemma initial_cache_ok : cache_ok initialGlobals.
Proof.
  split; simpl; [eauto|]. intros m a p v [= <-] _ Hl.
  rewrite lookup_empty in Hl. discriminate.
Qed.

Lemma PasswordCaching_cache_ok enable g :
  cache_ok g -> cache_ok (PasswordCaching enable g).
Proof.
  intros [Hmap Hval]. unfold PasswordCaching.
  destruct enable; cbn [negb andb].
  - destruct (passwordCacheDisable g) eqn:Hd; cbn [negb].
    + split; simpl; [eauto|]. intros m a p v [= <-] _ Hl.
      rewrite lookup_empty in Hl. discriminate.
    + split; simpl; [intros _; auto | exact Hval].
  - split; simpl; [discriminate|]. intros m a p v Hm. discriminate.
Qed.

Lemma reachable_cache_ok g : reachable g -> cache_ok g.
Proof.
  induction 1 as [| enable g _ IH | a p e g r g' _ IH Ha Hrun
                 | pp a p e g r g' _ IH Ha Hrun].
  - apply initial_cache_ok.
  - apply PasswordCaching_cache_ok, IH.
  - destruct (genlocalkey_ok a p e g IH Ha) as (g2 & Hrun2 & Hk & _).
    rewrite Hrun in Hrun2. injection Hrun2 as _ <-. exact Hk.
  - destruct (genlocalPrivKey_ok pp a p e g IH Ha)
      as (g2 & r2 & Hrun2 & [Hk _] & _).
    rewrite Hrun in Hrun2. injection Hrun2 as _ <-. exact Hk.
Qed.

(** C2. On a fresh hash and a non-empty passphrase, [hashPassword]
    returns the digest of exactly 1,048,576 octets, the passphrase
    repeated cyclically; on the empty passphrase it returns an error;
    and the key of [hMAC] and [genlocalkey] is the digest of
    [Ku || engineID || Ku], [Ku] being what [hashPassword] returned. *)
Theorem password_to_key_localization (h : crypto_Hash)
    (a : SnmpV3AuthProtocol) (p e : string) (g : Globals) :
  p <> "" -> is_uint8 a -> reachable g ->
  let octets := cyclicOctets (list_byte_of_string p) megabyte in
  let ku := digest (HashType a) octets in
  let kul := digest (HashType a) (ku ++ list_byte_of_string e ++ ku) in
  len octets = 1048576
  /\ hashPassword (hash_New h) p = (digest h octets, None)
  /\ (exists err, hashPassword (hash_New h) "" = ([], Some err))
  /\ (exists ck g', cacheKey a p g = Done (ck, g)
                    /\ hMAC (HashType a) ck p e g = Done ((kul, None), g'))
  /\ (exists g', genlocalkey a p e g = Done ((kul, None), g')).
Proof.
  intros Hp Ha Hg octets ku kul.
  assert (list_byte_of_string p <> []) as Hb.
  { intros E. apply Hp.
    rewrite <- (string_of_list_byte_of_string p), E. reflexivity. }
  apply reachable_cache_ok in Hg.
  subst kul ku octets.
  fold (Ku h p). fold (Ku (HashType a) p). fold (KuL (HashType a) p e).
  assert (localizedKey a p e = KuL (HashType a) p e) as Hk
    by (destruct p; [contradiction | reflexivity]).
  split; [|split; [|split; [|split]]].
  - unfold len. rewrite length_cyclicOctets by exact Hb.
    unfold megabyte. lia.
  - apply hashPassword_Ku, Hp.
  - eexists. apply hashPassword_empty.
  - destruct (hMAC_ok a p e g Hg Ha) as (g' & Hrun & _).
    eexists _, g'. rewrite cacheKey_spec. split; [reflexivity|].
    rewrite Hrun, Hk. reflexivity.
  - destruct (genlocalkey_ok a p e g Hg Ha) as (g' & Hrun & _).
    exists g'. rewrite Hrun, Hk. reflexivity.
Qed.

(** C3. The key [genlocalkey] returns does not depend on the state of
    the password cache: in any two reachable states, one with caching
    on and one with caching off among them, it returns the same key;
    and switching the cache off and on again leaves it empty. *)
Theorem password_cache_transparent (a : SnmpV3AuthProtocol) (p e : string)
    (g1 g2 : Globals) :
  is_uint8 a -> reachable g1 -> reachable g2 ->
  (exists k g1' g2',
      genlocalkey a p e g1 = Done (k, g1')
      /\ genlocalkey a p e g2 = Done (k, g2'))
  /\ (exists k on off,
        genlocalkey a p e (PasswordCaching true g1) = Done (k, on)
        /\ genlocalkey a p e (PasswordCaching false g1) = Done (k, off))
  /\ PasswordCaching true (PasswordCaching false g1) = mkGlobals (Some ∅) false.
Proof.
  intros Ha H1 H2. split; [|split].
  - destruct (genlocalkey_ok a p e g1 (reachable_cache_ok _ H1) Ha)
      as (g1' & R1 & _).
    destruct (genlocalkey_ok a p e g2 (reachable_cache_ok _ H2) Ha)
      as (g2' & R2 & _).
    eauto.
  - destruct (genlocalkey_ok a p e (PasswordCaching true g1)
                (PasswordCaching_cache_ok _ _ (reachable_cache_ok _ H1)) Ha)
      as (on & R1 & _).
    destruct (genlocalkey_ok a p e (PasswordCaching false g1)
                (PasswordCaching_cache_ok _ _ (reachable_cache_ok _ H1)) Ha)
      as (off & R2 & _).
    eauto.
  - reflexivity.
Qed.

(** C4. For AES, AES192C and AES256C [genlocalPrivKey] starts from the
    Reeder extension, [KuL] followed by the localization of [KuL] taken
    as passphrase; for AES192 and AES256 from the Blumenthal extension,
    [KuL] followed by [H(KuL)].  It returns the first 16 (AES), 24
    (AES192, AES192C) or 32 (AES256, AES256C) bytes of that, and an error
    when there are fewer. *)
Theorem genlocalPrivKey_extends_and_truncates (pp : SnmpV3PrivProtocol)
    (a : SnmpV3AuthProtocol) (p e : string) (g : Globals) :
  is_uint8 a -> reachable g ->
  In pp [AES; AES192; AES256; AES192C; AES256C] ->
  let kul := localizedKey a p e in
  let ext :=
    if decide (pp = AES \/ pp = AES192C \/ pp = AES256C)
    then kul ++ localizedKey a (string_of_list_byte kul) e
    else kul ++ digest (HashType a) kul in
  let n :=
    if decide (pp = AES) then 16%nat
    else if decide (pp = AES192 \/ pp = AES192C) then 24%nat
    else 32%nat in
  exists g' r,
    genlocalPrivKey pp a p e g = Done (r, g')
    /\ ((length ext < n)%nat -> fst r = [] /\ is_Some (snd r))
    /\ ((n <= length ext)%nat -> r = (firstn n ext, None)).
Proof.
  intros Ha Hg Hpp kul ext n.
  destruct (genlocalPrivKey_ok pp a p e g (reachable_cache_ok _ Hg) Ha)
    as (g' & r & Hrun & _ & Hshort & Hlong).
  assert (extendedKey pp a p e = ext /\ keylenOf pp = Z.of_nat n) as [Eext En].
  { subst ext n kul. simpl in Hpp.
    destruct Hpp as [<- | [<- | [<- | [<- | [<- | []]]]]];
      split; reflexivity. }
  rewrite Eext, En in *. unfold len in *.
  exists g', r. split; [exact Hrun|]. split.
  - intros L. apply Hshort. lia.
  - intros L. rewrite Hlong by lia. rewrite Nat2Z.id. reflexivity.
Qed.

(** C6. When the cached password-to-key step fails, [hMAC] returns the
    empty key and a nil error; the empty passphrase makes it fail, and
    [genlocalkey] then returns the empty key without an error. *)
Theorem hMAC_swallows_error (h : crypto_Hash) (ck p e : string)
    (g g' : Globals) (v : list byte) (err : error)
    (a : SnmpV3AuthProtocol) :
  cachedPasswordToKey (hash_New h) ck p g = Done ((v, Some err), g') ->
  is_uint8 a -> reachable g ->
  hMAC h ck p e g = Done (([], None), g')
  /\ (exists ck0 g0,
        cacheKey a "" g = Done (ck0, g)
        /\ cachedPasswordToKey (hash_New (HashType a)) ck0 "" g
           = Done (([], Some "hashPassword: password is empty"), g0))
  /\ (exists g1, genlocalkey a "" e g = Done (([], None), g1)).
Proof.
  intros Hfail Ha Hg. apply reachable_cache_ok in Hg. split; [|split].
  - unfold hMAC, bind. rewrite Hfail. reflexivity.
  - destruct (cachedPasswordToKey_ok a "" g Hg Ha) as (g0 & Hrun & _).
    eexists _, g0. rewrite cacheKey_spec. split; [reflexivity | exact Hrun].
  - destruct (genlocalkey_ok a "" e g Hg Ha) as (g1 & Hrun & _).
    exists g1. exact Hrun.
Qed.

End keys.

(** *** Salts *)

Lemma PutUint32_bigEndian (v : Z) :
  length (PutUint32 v) = 4%nat /\ bigEndian (PutUint32 v) = v mod 2 ^ 32.
Proof.
  split; [reflexivity|].
  unfold bigEndian, PutUint32. cbn [fold_left].
  rewrite !Z_of_byte_of_Z, !Z.shiftr_div_pow2 by lia.
  change (2 ^ 24) with 16777216. change (2 ^ 16) with 65536.
  change (2 ^ 8) with 256. change (2 ^ 32) with 4294967296.
  Z.div_mod_to_equations. lia.
Qed.

Lemma PutUint64_bigEndian (v : Z) :
  length (PutUint64 v) = 8%nat /\ bigEndian (PutUint64 v) = v mod 2 ^ 64.
Proof.
  split; [reflexivity|].
  unfold bigEndian, PutUint64. cbn [fold_left].
  rewrite !Z_of_byte_of_Z, !Z.shiftr_div_pow2 by lia.
  change (2 ^ 56) with 72057594037927936.
  change (2 ^ 48) with 281474976710656.
  change (2 ^ 40) with 1099511627776.
  change (2 ^ 32) with 4294967296.
  change (2 ^ 24) with 16777216. change (2 ^ 16) with 65536.
  change (2 ^ 8) with 256. change (2 ^ 64) with 18446744073709551616.
  Z.div_mod_to_equations. lia.
Qed.

(** C5 (amended). [usmAllocateNewSalt] adds one to the session's counter
    modulo 2^64 (AES family) or 2^32 (otherwise) and returns the new
    value: one more than the previous value, except at the top of the
    range, where it is 0.  [InitPacket] always allocates; it installs the
    salt in the packet's parameter block, as eight big-endian bytes (AES
    family) or as four big-endian bytes of engineBoots and four of the
    counter (otherwise), exactly when [MsgFlags & AuthPriv > AuthNoPriv]. *)
Theorem salt_allocation (sp : loc) (u : UsmSecurityParameters)
    (h : gmap loc UsmSecurityParameters) (packet : SnmpPacket) :
  h !! sp = Some u ->
  0 <= localAESSalt u < 2 ^ 64 ->
  0 <= localDESSalt u < 2 ^ 32 ->
  let aes := isAESFamily (PrivacyProtocol u) in
  let old := if aes then localAESSalt u else localDESSalt u in
  let top := if aes then 2 ^ 64 - 1 else 2 ^ 32 - 1 in
  let new := if old <? top then old + 1 else 0 in
  let u' := if aes then set_localAESSalt new u else set_localDESSalt new u in
  let h' := <[sp := u']> h in
  usmAllocateNewSalt sp h
  = Done (if aes then SaltUint64 new else SaltUint32 new, h')
  /\ (Z.land (MsgFlags packet) AuthPriv <= AuthNoPriv ->
      InitPacket sp packet h = Done (None, h'))
  /\ (forall s us,
        AuthNoPriv < Z.land (MsgFlags packet) AuthPriv ->
        SecurityParameters packet = UsmPtr s ->
        h' !! s = Some us ->
        isAESFamily (PrivacyProtocol us) = aes ->
        let salt :=
          if aes then PutUint64 new
          else PutUint32 (AuthoritativeEngineBoots us) ++ PutUint32 new in
        InitPacket sp packet h
        = Done (None, <[s := set_PrivacyParameters salt us]> h')).
Proof.
  intros Hsp Haes Hdes aes old top new u' h'.
  assert (usmAllocateNewSalt sp h
          = Done (if aes then SaltUint64 new else SaltUint32 new, h')) as Halloc.
  { unfold usmAllocateNewSalt, bind, load, store, ret. rewrite Hsp.
    subst h' u' new top old aes.
    destruct (isAESFamily (PrivacyProtocol u)).
    - assert (AddUint64 (localAESSalt u) 1
              = if localAESSalt u <? 2 ^ 64 - 1 then localAESSalt u + 1 else 0)
        as ->; [|reflexivity].
      unfold AddUint64. destruct (_ <? _) eqn:L.
      + apply Z.ltb_lt in L. apply Z.mod_small. lia.
      + apply Z.ltb_ge in L.
        replace (localAESSalt u + 1) with (2 ^ 64) by lia. reflexivity.
    - assert (AddUint32 (localDESSalt u) 1
              = if localDESSalt u <? 2 ^ 32 - 1 then localDESSalt u + 1 else 0)
        as ->; [|reflexivity].
      unfold AddUint32. destruct (_ <? _) eqn:L.
      + apply Z.ltb_lt in L. apply Z.mod_small. lia.
      + apply Z.ltb_ge in L.
        replace (localDESSalt u + 1) with (2 ^ 32) by lia. reflexivity. }
  split; [exact Halloc|]. split.
  - intros Hflags. unfold InitPacket, bind. rewrite Halloc.
    assert ((Z.land (MsgFlags packet) AuthPriv >? AuthNoPriv) = false) as ->
      by (rewrite Z.gtb_ltb; apply Z.ltb_ge; exact Hflags).
    reflexivity.
  - intros s us Hflags Hptr Hs Hfam salt. unfold InitPacket, bind.
    rewrite Halloc.
    assert ((Z.land (MsgFlags packet) AuthPriv >? AuthNoPriv) = true) as ->
      by (rewrite Z.gtb_ltb; apply Z.ltb_lt; exact Hflags).
    rewrite Hptr. cbn [castUsmSecParams].
    unfold usmSetSalt, bind, load, store, ret. rewrite Hs, Hfam.
    subst salt. destruct aes; reflexivity.
Qed.

(** *** Decryption *)

Section decrypt.
Context `{Primitives}.

(** C7. With DES, a ciphertext whose length is not a multiple of 8 makes
    [decryptPacket] fail with "error decrypting ScopedPDU: not multiple
    of des block size" and leaves the packet buffer as it was; a
    decryption that succeeds had a ciphertext of whole blocks. *)
Theorem des_rejects_partial_block (sp : UsmSecurityParameters)
    (packet : list byte) (cursor : Z) (rest : list byte) (l c : Z)
    (ciphertext : list byte) :
  PrivacyProtocol sp = DES ->
  slice_from packet cursor = Done rest ->
  parseLength rest = (l, c, None) ->
  slice_from packet (c + cursor) = Done ciphertext ->
  (len ciphertext mod 8 <> 0 ->
   decryptPacket sp packet cursor
   = Done ([], Some "error decrypting ScopedPDU: not multiple of des block size",
           packet))
  /\ (forall r buffer,
        decryptPacket sp packet cursor = Done (r, None, buffer) ->
        len ciphertext mod 8 = 0).
Proof.
  intros Hdes Hrest Hparse Hct.
  assert (len ciphertext mod 8 = Z.rem (len ciphertext) des_BlockSize) as Hrem.
  { symmetry. apply Z.rem_mod_nonneg; unfold len, des_BlockSize; lia. }
  assert ((c + cursor >? len packet) = false) as Hfit.
  { unfold slice_from in Hct.
    destruct ((0 <=? c + cursor) && (c + cursor <=? len packet)) eqn:E;
      [|discriminate].
    apply andb_true_iff in E as [_ E]. apply Z.leb_le in E.
    rewrite Z.gtb_ltb. apply Z.ltb_ge. exact E. }
  assert (decryptPacket sp packet cursor =
          if negb (Z.rem (len ciphertext) des_BlockSize =? 0) then
            Done ([], Some "error decrypting ScopedPDU: not multiple of des block size",
                  packet)
          else
            match slice_from (PrivacyKey sp) 8 with
            | Panic => Panic
            | Done preiv =>
              match desIV 8 preiv (PrivacyParameters sp) with
              | Panic => Panic
              | Done iv =>
                match des_NewCipher (firstn 8 (PrivacyKey sp)) with
                | Some err => Done ([], Some err, packet)
                | None =>
                  installPlaintext packet cursor ciphertext
                    (des_cbc_decrypt (firstn 8 (PrivacyKey sp)) iv ciphertext)
                end
              end
            end) as Hrun.
  { unfold decryptPacket. rewrite Hrest, Hparse, Hfit, Hdes, Hct.
    reflexivity. }
  split.
  - intros Hne. rewrite Hrun, <- Hrem.
    destruct (len ciphertext mod 8 =? 0) eqn:E; [|reflexivity].
    apply Z.eqb_eq in E. contradiction.
  - intros r buffer Hok. rewrite Hrun, <- Hrem in Hok.
    destruct (len ciphertext mod 8 =? 0) eqn:E.
    + apply Z.eqb_eq in E. exact E.
    + discriminate.
Qed.

(** *** Authentication *)

(** C10. [isAuthentic] answers (false, nil) when the user name in the
    packet's security parameters differs from the session's, whatever
    the digest would be; when the names agree and the digest over the
    packet bytes is computed, it answers true exactly when the digest
    equals the packet's AuthenticationParameters. *)
Theorem isAuthentic_spec (sp ps : loc) (packetBytes : list byte)
    (packet : SnmpPacket) (h : gmap loc UsmSecurityParameters)
    (pu su : UsmSecurityParameters) :
  SecurityParameters packet = UsmPtr ps ->
  h !! ps = Some pu ->
  h !! sp = Some su ->
  (UserName pu <> UserName su ->
   isAuthentic sp packetBytes packet h = Done ((false, None), h))
  /\ (UserName pu = UserName su ->
      forall d, calcPacketDigest packetBytes pu = Done (d, None) ->
      exists b,
        isAuthentic sp packetBytes packet h = Done ((b, None), h)
        /\ (b = true <->
            d = list_byte_of_string (AuthenticationParameters pu))).
Proof.
  intros Hptr Hps Hsp.
  unfold isAuthentic. rewrite Hptr. cbn [castUsmSecParams].
  unfold bind, load. rewrite Hps, Hsp. split.
  - intros Hne. apply String.eqb_neq in Hne. rewrite Hne. reflexivity.
  - intros Heq d Hd. rewrite Heq, String.eqb_refl. cbn [negb].
    rewrite Hd. eexists. split; [reflexivity|].
    unfold ConstantTimeCompare.
    destruct (bytes_eqb d _) eqn:E.
    + apply bytes_eqb_eq in E. split; [intros _; exact E | reflexivity].
    + split; [discriminate|]. intros Hd'. apply bytes_eqb_eq in Hd'.
      congruence.
Qed.

End decrypt.

(** *** The theorems at work *)

Import Fixtures.

Lemma password_to_key_localization_witness :
  exists g',
    genlocalkey MD5 "maplesyrup" "engine" initialGlobals
    = Done ((KuL crypto_MD5 "maplesyrup" "engine", None), g').
Proof.
  refine (proj2 (proj2 (proj2 (proj2
    (password_to_key_localization crypto_MD5 MD5 "maplesyrup" "engine"
       initialGlobals _ _ reach_init))))).
  - discriminate.
  - unfold is_uint8, MD5. lia.
Defined.

Lemma password_cache_transparent_witness :
  exists k on off,
    genlocalkey SHA "maplesyrup" "engine" (PasswordCaching true initialGlobals)
    = Done (k, on)
    /\ genlocalkey SHA "maplesyrup" "engine"
         (PasswordCaching false initialGlobals)
       = Done (k, off).
Proof.
  refine (proj1 (proj2
    (password_cache_transparent SHA "maplesyrup" "engine" initialGlobals
       (PasswordCaching false initialGlobals) _ reach_init
       (reach_caching false _ reach_init)))).
  unfold is_uint8, SHA. lia.
Defined.

Lemma genlocalPrivKey_extends_and_truncates_witness :
  exists g' r,
    genlocalPrivKey AES256 SHA "maplesyrup" "engine" initialGlobals
    = Done (r, g')
    /\ ((length (localizedKey SHA "maplesyrup" "engine"
                 ++ toyDigest crypto_SHA1
                      (localizedKey SHA "maplesyrup" "engine")) < 32)%nat ->
        fst r = [] /\ is_Some (snd r))
    /\ ((32 <= length (localizedKey SHA "maplesyrup" "engine"
                  ++ toyDigest crypto_SHA1
                       (localizedKey SHA "maplesyrup" "engine")))%nat ->
        r = (firstn 32 (localizedKey SHA "maplesyrup" "engine"
                        ++ toyDigest crypto_SHA1
                             (localizedKey SHA "maplesyrup" "engine")),
             None)).
Proof.
  refine (genlocalPrivKey_extends_and_truncates AES256 SHA "maplesyrup"
            "engine" initialGlobals _ reach_init _).
  - unfold is_uint8, SHA. lia.
  - simpl. auto.
Defined.

Lemma hMAC_swallows_error_witness :
  hMAC crypto_MD5 "" "" "engine" initialGlobals
  = Done (([], None), initialGlobals).
Proof.
  refine (proj1 (hMAC_swallows_error crypto_MD5 "" "" "engine" initialGlobals
                   initialGlobals [] "hashPassword: password is empty" MD5
                   _ _ reach_init)).
  - reflexivity.
  - unfold is_uint8, MD5. lia.
Defined.

Lemma salt_allocation_witness :
  usmAllocateNewSalt 2%nat users
  = Done (SaltUint64 259, <[2%nat := set_localAESSalt 259 aesUser]> users)
  /\ InitPacket 2%nat (packetOf AuthPriv 2%nat) users
     = Done (None,
             <[2%nat := set_PrivacyParameters (PutUint64 259)
                          (set_localAESSalt 259 aesUser)]>
               (<[2%nat := set_localAESSalt 259 aesUser]> users)).
Proof.
  assert (users !! 2%nat = Some aesUser) as Hu by reflexivity.
  assert (0 <= localAESSalt aesUser < 2 ^ 64) as Ha by (simpl; lia).
  assert (0 <= localDESSalt aesUser < 2 ^ 32) as Hd by (simpl; lia).
  split.
  - exact (proj1 (salt_allocation 2%nat aesUser users (packetOf AuthPriv 2%nat)
                    Hu Ha Hd)).
  - refine (proj2 (proj2 (salt_allocation 2%nat aesUser users
                            (packetOf AuthPriv 2%nat) Hu Ha Hd))
              2%nat (set_localAESSalt 259 aesUser) _ _ _ _).
    + reflexivity.
    + reflexivity.
    + reflexivity.
    + reflexivity.
Defined.

(** C5, as first stated, fails.  The DES counter of [desUser] stands at
    2^32 - 2: the next two allocations return 4294967295 and then 0, which
    is not greater.  And a packet whose flags are 2, which do not include
    AuthPriv (3), still has the salt installed. *)
Lemma salt_counter_counterexample :
  usmAllocateNewSalt 1%nat users
  = Done (SaltUint32 4294967295,
          <[1%nat := set_localDESSalt 4294967295 desUser]> users)
  /\ usmAllocateNewSalt 1%nat
       (<[1%nat := set_localDESSalt 4294967295 desUser]> users)
     = Done (SaltUint32 0, <[1%nat := set_localDESSalt 0 desUser]> users)
  /\ Z.land 2 AuthPriv <> AuthPriv
  /\ InitPacket 2%nat (packetOf 2 2%nat) users
     = Done (None,
             <[2%nat := set_PrivacyParameters (PutUint64 259)
                          (set_localAESSalt 259 aesUser)]> users).
Proof.
  split; [vm_compute; reflexivity|].
  split; [vm_compute; reflexivity|].
  split; [vm_compute; discriminate|].
  vm_compute; reflexivity.
Qed.

Lemma des_rejects_partial_block_witness :
  decryptPacket desUser nineBytes 0
  = Done ([], Some "error decrypting ScopedPDU: not multiple of des block size",
          nineBytes).
Proof.
  refine (proj1 (des_rejects_partial_block desUser nineBytes 0 nineBytes
                   (len nineBytes) 2 (skipn 2 nineBytes) _ _ _ _) _).
  - reflexivity.
  - reflexivity.
  - reflexivity.
  - reflexivity.
  - vm_compute. discriminate.
Defined.

Lemma isAuthentic_spec_witness :
  isAuthentic 2%nat message (packetOf AuthNoPriv 4%nat) inbound
  = Done ((false, None), inbound)
  /\ exists b,
       isAuthentic 2%nat message (packetOf AuthNoPriv 3%nat) inbound
       = Done ((b, None), inbound)
       /\ (b = true <->
           firstn 24 (toyDigest crypto_SHA256 ([x0a; x0b] ++ message))
           = list_byte_of_string (AuthenticationParameters (signedBy "bob"))).
Proof.
  split.
  - refine (proj1 (isAuthentic_spec 2%nat 4%nat message (packetOf AuthNoPriv 4%nat) inbound
                     (signedBy "eve") aesUser _ _ _) _).
    + reflexivity.
    + reflexivity.
    + reflexivity.
    + vm_compute. discriminate.
  - refine (proj2 (isAuthentic_spec 2%nat 3%nat message (packetOf AuthNoPriv 3%nat) inbound
                     (signedBy "bob") aesUser _ _ _) _ _ _).
    + reflexivity.
    + reflexivity.
    + reflexivity.
    + reflexivity.
    + vm_compute. reflexivity.
Defined.

End USMFacts.

(** ** More properties of the walk engine *)

Module WalkMore.

Import Walk WalkNotions WalkFacts.

(** *** The root *)

Lemma prefix_dot (c : ascii) (s : string) :
  String.prefix "." (String c s) = Ascii.eqb c ".".
Proof.
  change (String.prefix "." (String c s))
    with (if ascii_dec "." c then String.prefix "" s else false).
  destruct (ascii_dec "." c) as [E | Hne].
  - subst c. destruct s; reflexivity.
  - symmetry. apply Ascii.eqb_neq. congruence.
Qed.

Lemma normalizeRoot_dotted (rootOid : string) :
  HasPrefix (normalizeRoot rootOid) "." = true
  /\ normalizeRoot rootOid <> "" /\ normalizeRoot rootOid <> ".".
Proof.
  unfold normalizeRoot, HasPrefix.
  destruct (String.eqb rootOid "" || String.eqb rootOid ".") eqn:Hd.
  { repeat split; discriminate. }
  apply orb_false_iff in Hd as [H0 H1].
  apply String.eqb_neq in H0, H1.
  destruct rootOid as [|c s]; [contradiction|].
  rewrite prefix_dot.
  destruct (Ascii.eqb c ".") eqn:Ec; cbn [negb].
  - rewrite prefix_dot, Ec. repeat split; assumption.
  - repeat split; discriminate.
Qed.

Lemma normalizeRoot_fixed (r : string) :
  HasPrefix r "." = true -> r <> "" -> r <> "." -> normalizeRoot r = r.
Proof.
  intros Hp H0 H1. unfold normalizeRoot.
  assert ((String.eqb r "" || String.eqb r ".") = false) as ->.
  { apply orb_false_iff. split; apply String.eqb_neq; assumption. }
  unfold HasPrefix in *. rewrite Hp. reflexivity.
Qed.

(** X1. The root the walk uses always begins with a dot, the empty root
    and the root "." stand for .1.3.6.1, and normalising is idempotent: a
    walk from a root and from its normalised form are the same walk. *)
Theorem walk_root_normalised {T V : Type} `{Transport T} (walkFn : WalkFunc V)
    (fuel : nat) (x : GoSNMP) (ty : PDUType) (rootOid : string) (t : T) (v : V) :
  HasPrefix (normalizeRoot rootOid) "." = true
  /\ normalizeRoot "" = ".1.3.6.1"
  /\ normalizeRoot "." = ".1.3.6.1"
  /\ normalizeRoot (normalizeRoot rootOid) = normalizeRoot rootOid
  /\ walk walkFn fuel x ty (normalizeRoot rootOid) t v
     = walk walkFn fuel x ty rootOid t v.
Proof.
  destruct (normalizeRoot_dotted rootOid) as (Hp & H0 & H1).
  assert (normalizeRoot (normalizeRoot rootOid) = normalizeRoot rootOid) as Hi
    by (apply normalizeRoot_fixed; assumption).
  repeat split; try assumption; try reflexivity.
  unfold walk. rewrite Hi. reflexivity.
Qed.

(** *** What reaches the visitor *)

Section delivered.
Context {T : Type} `{Transport T}.

(** Everything the collecting visitor is handed in one pass of the range
    loop may be delivered. *)
Lemma rangeVariables_collect rootOid oid requests ci (vars : list SnmpPDU) :
  forall i acc,
  exists delivered,
    exitState (rangeVariables collect rootOid oid requests ci i vars acc)
    = acc ++ delivered
    /\ Forall (deliverable rootOid) delivered.
Proof.
  induction vars as [|pdu rest IH]; intros i acc; simpl.
  - exists []. rewrite app_nil_r. split; [reflexivity | constructor].
  - destruct (isEndType (Type_ pdu)) eqn:Hty.
    { exists []. rewrite app_nil_r. split; [reflexivity | constructor]. }
    destruct (inRange rootOid pdu) eqn:Hin; cbn [negb].
    + destruct (ci && _).
      { exists []. rewrite app_nil_r. split; [reflexivity | constructor]. }
      change (collect acc pdu) with (acc ++ [pdu], @None error).
      cbn beta iota.
      destruct (IH (i + 1) (acc ++ [pdu])) as (d & Hd & Hall).
      exists (pdu :: d). rewrite Hd, <- app_assoc. split; [reflexivity|].
      constructor; [|exact Hall]. split; [exact Hty | left; exact Hin].
    + destruct ((requests =? 1) && (i =? 0)).
      { exists []. rewrite app_nil_r. split; [reflexivity | constructor]. }
      destruct (String.eqb (Name pdu) rootOid) eqn:Hname; cbn [andb].
      * destruct (negb (Asn1BER_eqb (Type_ pdu) NoSuchInstance)).
        -- change (collect acc pdu) with (acc ++ [pdu], @None error).
           cbn beta iota. exists [pdu]. split; [reflexivity|].
           constructor; [|constructor].
           split; [exact Hty | right; apply String.eqb_eq; exact Hname].
        -- exists []. rewrite app_nil_r. split; [reflexivity | constructor].
      * exists []. rewrite app_nil_r. split; [reflexivity | constructor].
Qed.

Lemma RequestLoop_collect fuel rootOid maxReps ci :
  forall ty oid requests t acc t' results err,
  Forall (deliverable rootOid) acc ->
  RequestLoop collect fuel rootOid maxReps ci ty oid requests t acc
  = Some (t', results, err) ->
  Forall (deliverable rootOid) results.
Proof.
  induction fuel as [|fuel IH]; intros ty oid requests t acc t' results err Hacc Hrun;
    [discriminate|].
  cbn [RequestLoop] in Hrun.
  destruct (request ty oid maxReps t) as [t1 [r|e]]; [|congruence].
  destruct (Variables r) as [|p ps] eqn:Hvars; [congruence|].
  destruct (stopsOnError (Error r)); [congruence|].
  destruct (rangeVariables_collect rootOid oid (requests + 1) ci (p :: ps) 0 acc)
    as (d & Hd & Hall).
  assert (Forall (deliverable rootOid) (acc ++ d)) as Hnew
    by (apply Forall_app; split; assumption).
  destruct (rangeVariables collect rootOid oid (requests + 1) ci 0 (p :: ps) acc)
    as [v1 | v1 | v1 e | v1]; cbn [exitState] in Hd; subst v1.
  - congruence.
  - eapply IH; eassumption.
  - congruence.
  - eapply IH; eassumption.
Qed.

(** X2. Whatever [walkAll] returns, with or without an error, every
    varbind in it is of none of the three end types and is named either
    under the normalised root (root, dot, more) or exactly like it. *)
Theorem walkAll_within_root fuel (x : GoSNMP) (ty : PDUType) (rootOid : string)
    (t t' : T) (results : list SnmpPDU) (err : option error) :
  walkAll fuel x ty rootOid t = Some (t', results, err) ->
  Forall (fun pdu =>
            isEndType (Type_ pdu) = false
            /\ (HasPrefix (Name pdu) (normalizeRoot rootOid +:+ ".") = true
                \/ Name pdu = normalizeRoot rootOid)) results.
Proof.
  unfold walkAll, walk. intros Hrun.
  eapply RequestLoop_collect in Hrun; [exact Hrun | constructor].
Qed.

End delivered.

Section rounds.
Context {T V : Type} `{Transport T}.
Variable walkFn : WalkFunc V.

(** A pass of the range loop that runs to its end saw only in-range
    varbinds, and with the check on none named like the request. *)
Lemma NextRound_all_in_range rootOid oid requests ci (vars : list SnmpPDU) :
  forall i v v',
  rangeVariables walkFn rootOid oid requests ci i vars v = NextRound v' ->
  Forall (fun pdu => inRange rootOid pdu = true
                     /\ (ci = false \/ Name pdu <> oid)) vars.
Proof.
  induction vars as [|pdu rest IH]; intros i v v' Hrun; [constructor|].
  simpl in Hrun.
  destruct (isEndType (Type_ pdu)); [discriminate|].
  destruct (inRange rootOid pdu) eqn:Hin; cbn [negb] in Hrun.
  - destruct (ci && String.eqb (Name pdu) oid) eqn:Hchk; [discriminate|].
    destruct (walkFn v pdu) as [v1 [e|]]; [discriminate|].
    constructor; [|eapply IH; exact Hrun].
    split; [exact Hin|].
    apply andb_false_iff in Hchk as [-> | Hne]; [left; reflexivity|].
    right. apply String.eqb_neq. exact Hne.
  - destruct ((requests =? 1) && (i =? 0)); [discriminate|].
    destruct (_ && _); [|discriminate].
    destruct (walkFn v pdu) as [v1 [e|]]; discriminate.
Qed.

Lemma lastName_In (vars : list SnmpPDU) (dflt : string) :
  vars <> [] -> exists pdu, In pdu vars /\ lastName vars dflt = Name pdu.
Proof.
  intros Hne. unfold lastName.
  induction vars as [|p rest IH]; [contradiction|].
  destruct rest as [|q rest'].
  - exists p. split; [left; reflexivity | reflexivity].
  - destruct IH as (pdu & Hin & Hlast); [discriminate|].
    exists pdu. split; [right; exact Hin | exact Hlast].
Qed.

(** X3. When a round runs to its end, the OID the next request starts
    from lies under the root, and, with the check on, differs from the OID
    this round started from: the walk never sends the same request twice
    in a row. *)
Theorem next_request_advances rootOid oid requests ci (vars : list SnmpPDU)
    (v v' : V) :
  rangeVariables walkFn rootOid oid requests ci 0 vars v = NextRound v' ->
  vars <> [] ->
  HasPrefix (lastName vars oid) (rootOid +:+ ".") = true
  /\ (ci = false \/ lastName vars oid <> oid).
Proof.
  intros Hrun Hne.
  apply NextRound_all_in_range in Hrun.
  destruct (lastName_In vars oid Hne) as (pdu & Hin & ->).
  rewrite List.Forall_forall in Hrun. exact (Hrun pdu Hin).
Qed.

(** Past the first position the range loop never asks for the fallback. *)
Lemma no_retry_later rootOid oid requests ci (vars : list SnmpPDU) :
  forall i v v',
  0 < i ->
  rangeVariables walkFn rootOid oid requests ci i vars v <> RetryAsGet v'.
Proof.
  induction vars as [|pdu rest IH]; intros i v v' Hi; simpl; [discriminate|].
  destruct (isEndType (Type_ pdu)); [discriminate|].
  destruct (negb (inRange rootOid pdu)).
  - assert ((i =? 0) = false) as -> by (apply Z.eqb_neq; lia).
    rewrite andb_false_r.
    destruct (_ && _); [|discriminate].
    destruct (walkFn v pdu) as [v1 [e|]]; discriminate.
  - destruct (ci && _); [discriminate|].
    destruct (walkFn v pdu) as [v1 [e|]]; [discriminate|].
    apply IH. lia.
Qed.

(** X4. The fallback to a plain Get is asked for only in the first round
    and only by its first varbind, one that is not of an end type and not
    under the root, before the visitor has been given anything. *)
Theorem fallback_only_at_start rootOid oid requests ci (vars : list SnmpPDU)
    (v v' : V) :
  rangeVariables walkFn rootOid oid requests ci 0 vars v = RetryAsGet v' ->
  requests = 1 /\ v' = v
  /\ exists pdu rest,
       vars = pdu :: rest
       /\ isEndType (Type_ pdu) = false /\ inRange rootOid pdu = false.
Proof.
  destruct vars as [|pdu rest]; simpl; [discriminate|].
  destruct (isEndType (Type_ pdu)) eqn:Hty; [discriminate|].
  destruct (inRange rootOid pdu) eqn:Hin; cbn [negb].
  - destruct (ci && _); [discriminate|].
    destruct (walkFn v pdu) as [v1 [e|]]; [discriminate|].
    intros Hrun. exfalso. revert Hrun. apply no_retry_later. lia.
  - destruct (requests =? 1) eqn:Hr; cbn [andb Z.eqb].
    + intros [= <-]. apply Z.eqb_eq in Hr. eauto 10.
    + destruct (_ && _); [|discriminate].
      destruct (walkFn v pdu) as [v1 [e|]]; discriminate.
Qed.

(** X5. When the visitor fails on a varbind it is handed, the walk stops
    there and returns the visitor's error: no further request is sent and
    no further varbind is delivered. *)
Theorem visitor_error_surfaces fuel rootOid maxReps ci ty oid requests
    (t t1 : T) (v v1 v2 : V) r pre pdu post (e : error) :
  request ty oid maxReps t = (t1, Ok r) ->
  Variables r = pre ++ pdu :: post ->
  stopsOnError (Error r) = false ->
  rangeVariables walkFn rootOid oid (requests + 1) ci 0 pre v = NextRound v1 ->
  isEndType (Type_ pdu) = false ->
  (inRange rootOid pdu = true /\ (ci = false \/ Name pdu <> oid))
  \/ (Name pdu = rootOid /\ (requests <> 0 \/ pre <> [])) ->
  walkFn v1 pdu = (v2, Some e) ->
  RequestLoop walkFn (S fuel) rootOid maxReps ci ty oid requests t v
  = Some (t1, v2, Some e).
Proof.
  intros Hreq Hcut Hstop Hpre Hty Hwhy Hfail.
  destruct Hwhy as [[Hin Hchk] | [Hname Hlate]].
  - rewrite (RequestLoop_round walkFn fuel rootOid maxReps ci ty oid requests
               t v t1 r)
      by (auto; rewrite Hcut; destruct pre; discriminate).
    rewrite Hcut, rangeVariables_app, Hpre. simpl.
    rewrite Hty, Hin. cbn [negb].
    assert (ci && String.eqb (Name pdu) oid = false) as ->.
    { destruct Hchk as [-> | Hne]; [reflexivity|].
      apply andb_false_iff. right. apply String.eqb_neq. exact Hne. }
    rewrite Hfail. reflexivity.
  - rewrite (late_root_round walkFn fuel rootOid maxReps ci ty oid requests
               t v t1 r pre pdu post v1) by assumption.
    rewrite Hfail. reflexivity.
Qed.

(** X6. Asked for a request type other than GetBulk, GetNext and Get, the
    walk returns "unsupported request type" with the type's number,
    without any exchange with the agent and without calling the visitor. *)
Theorem unsupported_request_type fuel (x : GoSNMP) (ty : PDUType)
    (rootOid : string) (t : T) (v : V) :
  ty <> GetBulkRequest -> ty <> GetNextRequest -> ty <> GetRequest ->
  walk walkFn (S fuel) x ty rootOid t v
  = Some (t, v, Some ("unsupported request type: " +:+ pretty ty)).
Proof.
  intros Hb Hn Hg. unfold walk. cbn [RequestLoop]. unfold request.
  apply Z.eqb_neq in Hb, Hn, Hg. rewrite Hb, Hn, Hg. reflexivity.
Qed.

End rounds.

(** *** The theorems at work on scripted agents *)

Import Fixtures.

Lemma walkAll_within_root_witness :
  Forall (fun pdu =>
            isEndType (Type_ pdu) = false
            /\ (HasPrefix (Name pdu) (normalizeRoot ".1.3.6.1" +:+ ".") = true
                \/ Name pdu = normalizeRoot ".1.3.6.1")) [vb5; vb2].
Proof.
  apply (walkAll_within_root 3 session GetNextRequest ".1.3.6.1" backwards
           (mkScript [] [(GetNextRequest, [".1.3.6.1"]);
                         (GetNextRequest, [".1.3.6.1.5"]);
                         (GetNextRequest, [".1.3.6.1.2"])])
           [vb5; vb2] None).
  reflexivity.
Defined.

Lemma next_request_advances_witness :
  HasPrefix (lastName [vb2; vb5] ".1.3.6.1") (".1.3.6.1" +:+ ".") = true
  /\ (true = false \/ lastName [vb2; vb5] ".1.3.6.1" <> ".1.3.6.1").
Proof.
  apply (next_request_advances collect ".1.3.6.1" ".1.3.6.1" 1 true [vb2; vb5]
           [] [vb2; vb5]).
  - reflexivity.
  - discriminate.
Defined.

Lemma fallback_only_at_start_witness :
  (1 = 1) /\ ([] : list SnmpPDU) = []
  /\ exists pdu rest,
       [vbLocation] = pdu :: rest
       /\ isEndType (Type_ pdu) = false /\ inRange sysName0 pdu = false.
Proof.
  apply (fallback_only_at_start collect sysName0 sysName0 1 true [vbLocation]
           [] []).
  reflexivity.
Defined.

Lemma visitor_error_surfaces_witness :
  RequestLoop strict 1 ".1.3.6.1" 50 true GetNextRequest ".1.3.6.1" 0
    (agent [respond [vb5; vb2]]) []
  = Some (mkScript [] [(GetNextRequest, [".1.3.6.1"])], [vb5],
          Some "visitor: value out of order").
Proof.
  apply (visitor_error_surfaces strict 0 ".1.3.6.1" 50 true GetNextRequest
           ".1.3.6.1" 0 (agent [respond [vb5; vb2]])
           (mkScript [] [(GetNextRequest, [".1.3.6.1"])]) [] [vb5] [vb5]
           (mkPacket [vb5; vb2] NoError NoAuthNoPriv NotUsm) [vb5] vb2 []).
  - reflexivity.
  - reflexivity.
  - reflexivity.
  - reflexivity.
  - reflexivity.
  - left. split; [reflexivity | right; discriminate].
  - reflexivity.
Defined.

Lemma unsupported_request_type_witness :
  walk collect 1 session SetRequest ".1.3.6.1" (agent [respond [vb5]]) []
  = Some (agent [respond [vb5]], [],
          Some ("unsupported request type: " +:+ pretty SetRequest)).
Proof.
  apply (unsupported_request_type collect 0 session SetRequest ".1.3.6.1"
           (agent [respond [vb5]]) []); discriminate.
Defined.

End WalkMore.

(** ** More properties of the User Security Model *)

Module USMMore.

Import USM KeySpec KeyNotions USMSession USMFacts.

(** *** Validation *)

(** X7. [validate] accepts a parameter block exactly when the two low
    bits of the flags name one of the three security levels (privacy
    without authentication is refused), the user name is not empty, the
    level's protocols are configured, and every configured protocol has
    either a key or a passphrase. *)
Theorem validate_accepts (sp : UsmSecurityParameters) (flags : SnmpV3MsgFlags) :
  validate sp flags = None <->
  let level := Z.land flags AuthPriv in
  (level = NoAuthNoPriv \/ level = AuthNoPriv \/ level = AuthPriv)
  /\ UserName sp <> ""
  /\ (level = NoAuthNoPriv \/ NoAuth < AuthenticationProtocol sp)
  /\ (level <> AuthPriv \/ NoPriv < PrivacyProtocol sp)
  /\ (PrivacyProtocol sp <= NoPriv \/ PrivacyKey sp <> []
      \/ PrivacyPassphrase sp <> "")
  /\ (AuthenticationProtocol sp <= NoAuth \/ SecretKey sp <> []
      \/ AuthenticationPassphrase sp <> "").
Proof.
  unfold validate. cbv zeta.
  set (level :=
         if Z.land flags AuthPriv =? AuthPriv
         then if PrivacyProtocol sp <=? NoPriv
              then Some "securityParameters.PrivacyProtocol is required"
              else if AuthenticationProtocol sp <=? NoAuth
                   then Some "securityParameters.AuthenticationProtocol is required"
                   else if String.eqb (UserName sp) ""
                        then Some "securityParameters.UserName is required"
                        else None
         else if Z.land flags AuthPriv =? AuthNoPriv
              then if AuthenticationProtocol sp <=? NoAuth
                   then Some "securityParameters.AuthenticationProtocol is required"
                   else if String.eqb (UserName sp) ""
                        then Some "securityParameters.UserName is required"
                        else None
              else if Z.land flags AuthPriv =? NoAuthNoPriv
                   then if String.eqb (UserName sp) ""
                        then Some "securityParameters.UserName is required"
                        else None
                   else Some "validate: MsgFlags must be populated with an appropriate security level").
  assert (level = None <->
          (Z.land flags AuthPriv = NoAuthNoPriv \/ Z.land flags AuthPriv = AuthNoPriv
           \/ Z.land flags AuthPriv = AuthPriv)
          /\ UserName sp <> ""
          /\ (Z.land flags AuthPriv = NoAuthNoPriv
              \/ NoAuth < AuthenticationProtocol sp)
          /\ (Z.land flags AuthPriv <> AuthPriv \/ NoPriv < PrivacyProtocol sp))
    as Hlevel.
  { subst level. unfold NoAuthNoPriv, AuthNoPriv, AuthPriv, NoAuth, NoPriv.
    destruct (Z.land flags 3 =? 3) eqn:E3;
      [apply Z.eqb_eq in E3 | apply Z.eqb_neq in E3].
    all: destruct (Z.land flags 3 =? 1) eqn:E1;
      [apply Z.eqb_eq in E1 | apply Z.eqb_neq in E1].
    all: destruct (Z.land flags 3 =? 0) eqn:E0;
      [apply Z.eqb_eq in E0 | apply Z.eqb_neq in E0].
    all: try lia.
    all: destruct (PrivacyProtocol sp <=? 1) eqn:Ep;
      [apply Z.leb_le in Ep | apply Z.leb_gt in Ep].
    all: destruct (AuthenticationProtocol sp <=? 1) eqn:Ea;
      [apply Z.leb_le in Ea | apply Z.leb_gt in Ea].
    all: destruct (String.eqb (UserName sp) "") eqn:Eu;
      [apply String.eqb_eq in Eu | apply String.eqb_neq in Eu].
    all: split; [intros E; try discriminate E; intuition (congruence || lia)
                | intros E; try reflexivity; exfalso;
                  intuition (congruence || lia)]. }
  assert (forall l : list byte, (len l =? 0) = true <-> l = []) as Hlen.
  { intros [|b l]; unfold len; simpl; split; intros E; try reflexivity;
      discriminate E. }
  assert (forall (proto : Z) (key : list byte) (pass : string),
            ((proto >? 1) && (len key =? 0) && String.eqb pass "") = false
            <-> (proto <= 1 \/ key <> [] \/ pass <> "")) as Hpass.
  { intros proto key pass. rewrite Z.gtb_ltb.
    destruct (1 <? proto) eqn:Ep;
      [apply Z.ltb_lt in Ep | apply Z.ltb_ge in Ep].
    all: destruct (len key =? 0) eqn:Ek;
      [apply Hlen in Ek
      | assert (key <> []) by (intros E; apply Hlen in E; congruence)].
    all: destruct (String.eqb pass "") eqn:Es;
      [apply String.eqb_eq in Es | apply String.eqb_neq in Es].
    all: cbn [andb]; split; intros E; try reflexivity; try discriminate E;
      intuition (congruence || lia). }
  unfold NoPriv, NoAuth in *.
  pose proof (Hpass (PrivacyProtocol sp) (PrivacyKey sp) (PrivacyPassphrase sp))
    as Hp.
  pose proof (Hpass (AuthenticationProtocol sp) (SecretKey sp)
                (AuthenticationPassphrase sp)) as Ha.
  destruct level as [e|].
  - split; [discriminate|]. intros (L1 & L2 & L3 & L4 & _).
    assert (Some e = None) by (apply Hlevel; auto). discriminate.
  - destruct (_ && _ && _) in Hp |- *.
    + split; [discriminate|]. intros (_ & _ & _ & _ & P & _).
      apply Hp in P. discriminate.
    + destruct (_ && _ && _) in Ha |- *.
      * split; [discriminate|]. intros (_ & _ & _ & _ & _ & A).
        apply Ha in A. discriminate.
      * split; [|reflexivity]. intros _.
        destruct Hlevel as [Hl _]. specialize (Hl eq_refl).
        destruct Hl as (L1 & L2 & L3 & L4).
        repeat split; try assumption; [apply Hp | apply Ha]; reflexivity.
Qed.

(** *** The password cache *)

Section cache.
Context `{Primitives}.

(** X8. While caching is on, two cache keys agree only for the same
    protocol and the same passphrase: an entry is never found under
    another hash algorithm or another passphrase. *)
Theorem cacheKey_distinguishes (a a' : SnmpV3AuthProtocol) (p p' : string)
    (g g1 g2 : Globals) (k : string) :
  passwordCacheDisable g = false ->
  is_uint8 a -> is_uint8 a' ->
  cacheKey a p g = Done (k, g1) ->
  cacheKey a' p' g = Done (k, g2) ->
  a = a' /\ p = p'.
Proof.
  intros Hon Ha Ha' H1 H2. rewrite cacheKey_spec, Hon in H1, H2.
  injection H1 as E1 _. injection H2 as E2 _.
  apply keyOf_inj; congruence.
Qed.

(** The cached step, with the state it leaves. *)
Lemma cachedPasswordToKey_run a p g :
  cache_ok g -> is_uint8 a ->
  cachedPasswordToKey (hash_New (HashType a))
    (if passwordCacheDisable g then "" else keyOf a p) p g
  = Done (match p with
          | EmptyString => ([], Some "hashPassword: password is empty")
          | _ => (Ku (HashType a) p, None)
          end, afterKey a p g).
Proof.
  intros Hok Ha. unfold cachedPasswordToKey, bind, loadDisable, afterKey.
  destruct (passwordCacheDisable g) eqn:Hd; cbn [negb]; unfold ret at 1.
  - destruct p as [|c p]; [reflexivity|].
    rewrite hashPassword_Ku by discriminate. reflexivity.
  - unfold cacheRead. destruct Hok as [Hmap Hval].
    destruct (Hmap Hd) as [m Hm]. rewrite Hm.
    destruct p as [|c p].
    + destruct (m !! keyOf a "") as [[|b v]|] eqn:Hlook; try reflexivity.
      destruct (Hval m a "" (b :: v) Hm Ha Hlook) as [Hp _]. contradiction.
    + set (pw := String c p) in *.
      assert (hashPassword (hash_New (HashType a)) pw
              = (Ku (HashType a) pw, None)) as Hh
        by (apply hashPassword_Ku; discriminate).
      destruct (m !! keyOf a pw) as [[|b v]|] eqn:Hlook.
      * rewrite Hh. unfold cacheWrite, ret. rewrite Hm, ?Hd. reflexivity.
      * destruct (Hval m a pw (b :: v) Hm Ha Hlook) as [_ Hv].
        unfold ret. rewrite Hv. reflexivity.
      * rewrite Hh. unfold cacheWrite, ret. rewrite Hm, ?Hd. reflexivity.
Qed.

Lemma afterKey_cache_ok a p g :
  cache_ok g -> is_uint8 a -> cache_ok (afterKey a p g).
Proof.
  intros Hok Ha.
  destruct (cachedPasswordToKey_ok a p g Hok Ha) as (g' & Hrun & Hk & _).
  rewrite cachedPasswordToKey_run in Hrun by assumption.
  injection Hrun as <-. exact Hk.
Qed.

Lemma afterKey_disable a p g :
  passwordCacheDisable (afterKey a p g) = passwordCacheDisable g.
Proof.
  unfold afterKey. destruct (passwordCacheDisable g) eqn:Hd; [exact Hd|].
  destruct (passwordKeyHashCache g) as [m|]; [|exact Hd].
  destruct p; [exact Hd|].
  destruct (m !! _) as [[|? ?]|]; simpl; auto.
Qed.

Lemma afterKey_idem a p g :
  afterKey a p (afterKey a p g) = afterKey a p g.
Proof.
  assert (afterKey a p g = g
          \/ exists m, passwordKeyHashCache g = Some m
                       /\ passwordCacheDisable g = false /\ p <> ""
                       /\ afterKey a p g
                          = mkGlobals (Some (<[keyOf a p := Ku (HashType a) p]> m))
                                      false) as [E | (m & Hm & Hd & Hp & E)].
  { unfold afterKey. destruct (passwordCacheDisable g) eqn:Hd; [left; reflexivity|].
    destruct (passwordKeyHashCache g) as [m|] eqn:Hm; [|left; reflexivity].
    destruct p as [|c p]; [left; reflexivity|].
    destruct (m !! _) as [[|b v]|]; [right | left; reflexivity | right];
      exists m; repeat split; try reflexivity; discriminate. }
  - rewrite !E. reflexivity.
  - rewrite E. unfold afterKey at 1.
    cbn [passwordCacheDisable passwordKeyHashCache].
    destruct p as [|c p]; [contradiction|].
    rewrite lookup_insert_eq.
    destruct (Ku (HashType a) (String c p)); [rewrite insert_insert_eq|];
      reflexivity.
Qed.

(** [genlocalkey], with the state it leaves. *)
Lemma genlocalkey_run a p e g :
  cache_ok g -> is_uint8 a ->
  genlocalkey a p e g = Done ((localizedKey a p e, None), afterKey a p g).
Proof.
  intros Hok Ha.
  unfold genlocalkey, bind at 1. rewrite cacheKey_spec.
  unfold bind at 1, hMAC, bind. rewrite cachedPasswordToKey_run by assumption.
  destruct p as [|c p]; [reflexivity|].
  unfold ret, localizedKey, KuL, hash_Sum, hash_Write, hash_New.
  cbn [hash_alg hash_written app]. rewrite <- app_assoc. reflexivity.
Qed.

(** X9. A key derivation fills the cache at most once: deriving the same
    key again returns the same key and leaves the cache as the first
    derivation left it; with caching off the globals are not touched, and
    with caching on the entry of a non-empty passphrase is then in the
    cache. *)
Theorem cache_fills_once (a : SnmpV3AuthProtocol) (p e : string) (g : Globals) :
  is_uint8 a -> reachable g ->
  exists k g',
    genlocalkey a p e g = Done (k, g')
    /\ genlocalkey a p e g' = Done (k, g')
    /\ (passwordCacheDisable g = true /\ g' = g
        \/ passwordCacheDisable g = false
           /\ (p = ""
               \/ exists m, passwordKeyHashCache g' = Some m
                            /\ m !! keyOf a p = Some (Ku (HashType a) p))).
Proof.
  intros Ha Hg. apply reachable_cache_ok in Hg.
  exists (localizedKey a p e, None), (afterKey a p g).
  split; [apply genlocalkey_run; assumption|]. split.
  - rewrite genlocalkey_run by (auto using afterKey_cache_ok).
    rewrite afterKey_idem. reflexivity.
  - unfold afterKey. destruct (passwordCacheDisable g) eqn:Hd; [left; auto|].
    right. split; [reflexivity|].
    destruct Hg as [Hmap Hval]. destruct (Hmap Hd) as [m Hm]. rewrite Hm.
    destruct p as [|c p]; [left; reflexivity|]. right.
    set (pw := String c p).
    destruct (m !! keyOf a pw) as [[|b v]|] eqn:Hlook.
    + eexists. split; [reflexivity|]. apply lookup_insert_eq.
    + exists m. split; [exact Hm|].
      destruct (Hval m a pw (b :: v) Hm Ha Hlook) as [_ Hv].
      rewrite Hlook, Hv. reflexivity.
    + eexists. split; [reflexivity|]. apply lookup_insert_eq.
Qed.

(** X10. With digests of at least sixteen bytes, as all six hashes give,
    the privacy key of an AES variant derived from a non-empty passphrase
    always comes out, and has exactly the cipher's key length. *)
Theorem privKey_has_cipher_length (pp : SnmpV3PrivProtocol)
    (a : SnmpV3AuthProtocol) (p e : string) (g : Globals) :
  (forall h m, (16 <= length (digest h m))%nat) ->
  is_uint8 a -> reachable g ->
  In pp [AES; AES192; AES256; AES192C; AES256C] ->
  p <> "" ->
  exists key g',
    genlocalPrivKey pp a p e g = Done ((key, None), g')
    /\ len key = keylenOf pp
    /\ (16 <= keylenOf pp <= 32).
Proof.
  intros Hsize Ha Hg Hpp Hp.
  destruct (genlocalPrivKey_ok pp a p e g (reachable_cache_ok _ Hg) Ha)
    as (g' & r & Hrun & _ & _ & Hlong).
  assert (16 <= keylenOf pp <= 32) as Hk.
  { simpl in Hpp. destruct Hpp as [<- | [<- | [<- | [<- | [<- | []]]]]];
      cbv; split; discriminate. }
  assert (32 <= len (extendedKey pp a p e)) as Hext.
  { assert (localizedKey a p e = KuL (HashType a) p e) as Hkul
      by (destruct p; [contradiction | reflexivity]).
    assert ((16 <= length (localizedKey a p e))%nat) as Hl1
      by (rewrite Hkul; apply Hsize).
    unfold extendedKey, reederKey, blumenthalKey, len.
    destruct (usesReeder pp) eqn:Er.
    - assert (string_of_list_byte (localizedKey a p e) <> "") as Hne.
      { intros E. apply (f_equal list_byte_of_string) in E.
        rewrite list_byte_of_string_of_list_byte in E.
        rewrite E in Hl1. simpl in Hl1. lia. }
      assert ((16 <= length (localizedKey a
                 (string_of_list_byte (localizedKey a p e)) e))%nat) as Hl2.
      { destruct (string_of_list_byte (localizedKey a p e)) eqn:Es;
          [contradiction|]. apply Hsize. }
      rewrite length_app. lia.
    - assert (usesBlumenthal pp = true) as ->.
      { simpl in Hpp. destruct Hpp as [<- | [<- | [<- | [<- | [<- | []]]]]];
          try reflexivity; discriminate Er. }
      rewrite length_app. specialize (Hsize (HashType a) (localizedKey a p e)).
      lia. }
  rewrite Hlong in Hrun by lia.
  eexists _, g'. split; [exact Hrun|]. split; [|exact Hk].
  unfold len in *. rewrite length_firstn. lia.
Qed.

(** *** The session's keys *)

Lemma set_keys_same (u : UsmSecurityParameters) :
  set_PrivacyKey (PrivacyKey u) u = u /\ set_SecretKey (SecretKey u) u = u.
Proof. destruct u; split; reflexivity. Qed.

(** [initSecurityKeysNoLock] in a sound cache. *)
Lemma initSecurityKeysNoLock_run (u : UsmSecurityParameters) (g : Globals) :
  cache_ok g -> is_uint8 (AuthenticationProtocol u) ->
  exists g' err,
    initSecurityKeysNoLock u g
    = Done ((set_PrivacyKey (privacyKeyAfterInit u)
               (set_SecretKey (secretKeyAfterInit u) u), err), g')
    /\ keeps g g'
    /\ (err = None <-> privacyKeyTooShort u = false).
Proof.
  intros Hok Ha. unfold initSecurityKeysNoLock.
  unfold secretKeyAfterInit, privacyKeyAfterInit, privacyKeyTooShort,
    needsSecretKey, needsPrivacyKey.
  set (needS := (AuthenticationProtocol u >? NoAuth) && (len (SecretKey u) =? 0)).
  set (needP := (PrivacyProtocol u >? NoPriv) && (len (PrivacyKey u) =? 0)).
  assert (exists g1,
    (if needS
     then bind (genlocalkey (AuthenticationProtocol u)
                  (AuthenticationPassphrase u) (AuthoritativeEngineID u))
            (fun '(key, err) => ret (set_SecretKey key u, err))
     else ret (u, None)) g
    = Done ((set_SecretKey
               (if needS
                then localizedKey (AuthenticationProtocol u)
                       (AuthenticationPassphrase u) (AuthoritativeEngineID u)
                else SecretKey u) u, None), g1)
    /\ keeps g g1) as (g1 & Hstep1 & Hk1).
  { destruct needS.
    - destruct (genlocalkey_ok (AuthenticationProtocol u)
                  (AuthenticationPassphrase u) (AuthoritativeEngineID u) g Hok Ha)
        as (g1 & Hrun & Hk).
      exists g1. split; [|exact Hk]. unfold bind. rewrite Hrun. reflexivity.
    - exists g. split; [|apply keeps_refl, Hok].
      unfold ret. rewrite (proj2 (set_keys_same u)). reflexivity. }
  unfold bind at 1. rewrite Hstep1.
  set (u1 := set_SecretKey _ u).
  change (PrivacyProtocol u1) with (PrivacyProtocol u).
  change (PrivacyKey u1) with (PrivacyKey u).
  change (AuthenticationProtocol u1) with (AuthenticationProtocol u).
  change (PrivacyPassphrase u1) with (PrivacyPassphrase u).
  change (AuthoritativeEngineID u1) with (AuthoritativeEngineID u).
  fold needP.
  destruct needP; cbn [andb].
  - destruct (isAESFamily (PrivacyProtocol u)); cbn [andb].
    + destruct (genlocalPrivKey_ok (PrivacyProtocol u) (AuthenticationProtocol u)
                  (PrivacyPassphrase u) (AuthoritativeEngineID u) g1
                  (proj1 Hk1) Ha) as (g2 & r & Hrun & Hk2 & Hshort & Hlong).
      exists g2. unfold bind. rewrite Hrun.
      destruct (_ <? _) eqn:L.
      * apply Z.ltb_lt in L. destruct (Hshort L) as [Hkey [m Hm]].
        destruct r as [key err]. simpl in Hkey, Hm. subst key err.
        exists (Some m). split; [reflexivity|].
        split; [eapply keeps_trans; eassumption|].
        split; discriminate.
      * apply Z.ltb_ge in L. rewrite (Hlong L).
        exists None. split; [reflexivity|].
        split; [eapply keeps_trans; eassumption | split; reflexivity].
    + destruct (genlocalkey_ok (AuthenticationProtocol u)
                  (PrivacyPassphrase u) (AuthoritativeEngineID u) g1
                  (proj1 Hk1) Ha) as (g2 & Hrun & Hk2).
      exists g2, None. unfold bind. rewrite Hrun.
      split; [reflexivity|].
      split; [eapply keeps_trans; eassumption | split; reflexivity].
  - exists g1, None. unfold ret.
    change (PrivacyKey u) with (PrivacyKey u1).
    rewrite (proj1 (set_keys_same u1)).
    split; [reflexivity|]. split; [exact Hk1 | split; reflexivity].
Qed.

(** X11. [initSecurityKeysNoLock] derives a key only where a protocol is
    configured and the key is still empty, and otherwise keeps the key it
    finds: the secret key becomes the localized key of the authentication
    passphrase, the privacy key the truncated extended key (AES variants)
    or the whole localized key (DES) of the privacy passphrase.  Its only
    failure is an AES privacy key that cannot be made long enough; the
    authentication step cannot fail. *)
Theorem initSecurityKeys_result (u : UsmSecurityParameters) (g : Globals) :
  is_uint8 (AuthenticationProtocol u) -> reachable g ->
  exists g' err,
    initSecurityKeysNoLock u g
    = Done ((set_PrivacyKey (privacyKeyAfterInit u)
               (set_SecretKey (secretKeyAfterInit u) u), err), g')
    /\ cache_ok g'
    /\ (err = None <-> privacyKeyTooShort u = false).
Proof.
  intros Ha Hg.
  destruct (initSecurityKeysNoLock_run u g (reachable_cache_ok _ Hg) Ha)
    as (g' & err & Hrun & Hk & Herr).
  exists g', err. split; [exact Hrun|]. split; [exact (proj1 Hk) | exact Herr].
Qed.

(** X12. [setSecurityParameters] adopts the peer's engine boots and time;
    when the peer's engine ID differs from the stored one it also adopts
    the engine ID, drops both keys and derives them again for the new
    engine ID, so that no key localized for the old engine survives; with
    an unchanged engine ID the keys stay as they are. *)
Theorem engine_change_rederives_keys (sp pin : loc)
    (h : gmap loc UsmSecurityParameters) (g : Globals)
    (u insp : UsmSecurityParameters) :
  h !! sp = Some u -> h !! pin = Some insp ->
  is_uint8 (AuthenticationProtocol u) -> reachable g ->
  let changed :=
    negb (String.eqb (AuthoritativeEngineID u) (AuthoritativeEngineID insp)) in
  let cleared :=
    set_PrivacyKey [] (set_SecretKey []
      (set_AuthoritativeEngineID (AuthoritativeEngineID insp) u)) in
  exists g' err u',
    setSecurityParameters sp (UsmPtr pin) (h, g)
    = Done (err, (<[sp := u']> h, g'))
    /\ AuthoritativeEngineID u' = AuthoritativeEngineID insp
    /\ SecretKey u'
       = (if changed
          then if AuthenticationProtocol u >? NoAuth
               then localizedKey (AuthenticationProtocol u)
                      (AuthenticationPassphrase u) (AuthoritativeEngineID insp)
               else []
          else SecretKey u)
    /\ PrivacyKey u'
       = (if changed then privacyKeyAfterInit cleared else PrivacyKey u)
    /\ (err = None <-> changed && privacyKeyTooShort cleared = false)
    /\ (AuthoritativeEngineBoots u', AuthoritativeEngineTime u')
       = match err with
         | None => (AuthoritativeEngineBoots insp, AuthoritativeEngineTime insp)
         | Some _ => (AuthoritativeEngineBoots u, AuthoritativeEngineTime u)
         end.
Proof.
  intros Hsp Hpin Ha Hg changed cleared.
  unfold setSecurityParameters. cbn [castUsmSecParams]. rewrite Hpin, Hsp.
  fold changed. destruct changed eqn:Hch.
  - fold cleared.
    destruct (initSecurityKeysNoLock_run cleared g (reachable_cache_ok _ Hg) Ha)
      as (g' & err & Hrun & _ & Herr).
    rewrite Hrun.
    assert (secretKeyAfterInit cleared
            = if AuthenticationProtocol u >? NoAuth
              then localizedKey (AuthenticationProtocol u)
                     (AuthenticationPassphrase u) (AuthoritativeEngineID insp)
              else []) as Hsk.
    { unfold secretKeyAfterInit, needsSecretKey. subst cleared. simpl.
      rewrite andb_true_r. reflexivity. }
    destruct err as [e|].
    + eexists g', (Some e), _. split; [reflexivity|].
      cbn [andb]. repeat split; try assumption; try reflexivity;
        apply Herr.
    + eexists g', None, _. split; [reflexivity|].
      cbn [andb]. repeat split; try assumption; try reflexivity;
        apply Herr.
  - eexists g, None, _. split; [reflexivity|].
    apply negb_false_iff, String.eqb_eq in Hch.
    cbn [andb]. repeat split; try reflexivity. simpl. exact Hch.
Qed.

(** *** Digests *)

(** The shape of what [calcPacketDigest] returns. *)
Lemma calcPacketDigest_shape (packetBytes : list byte)
    (secParams : UsmSecurityParameters) (d : list byte) (err : option error) :
  calcPacketDigest packetBytes secParams = Done (d, err) ->
  err = None
  /\ NoAuth <= AuthenticationProtocol secParams <= SHA512
  /\ exists mac,
       macVarbind (AuthenticationProtocol secParams) = Some mac
       /\ len d = len mac - 2
       /\ len d = nth (Z.to_nat (AuthenticationProtocol secParams))
                    [0; 0; 12; 12; 16; 24; 32; 48] 0.
Proof.
  unfold calcPacketDigest, macVarbind.
  set (p := AuthenticationProtocol secParams).
  set (computed := if (p =? MD5) || (p =? SHA) then _ else _).
  assert (computed = Panic \/ exists digest, computed = Done (digest, None))
    as [-> | (digest & ->)]; [|intros E; discriminate E|].
  { subst computed. destruct ((p =? MD5) || (p =? SHA)).
    - unfold digestRFC3414.
      destruct (if p =? MD5 then _ else _); [|left; reflexivity].
      destruct (slice_to _ 12); [right; eauto | left; reflexivity].
    - destruct (_ || _); right; eexists; reflexivity. }
  intros Hrun.
  destruct (0 <=? p) eqn:Hp0; [|discriminate Hrun]. apply Z.leb_le in Hp0.
  destruct (nth_error macVarbinds (Z.to_nat p)) as [mac|] eqn:Hmac;
    [|discriminate Hrun].
  unfold slice_to in Hrun.
  destruct ((0 <=? len mac - 2) && (len mac - 2 <=? len digest)) eqn:Hs;
    [|discriminate Hrun].
  apply andb_true_iff in Hs as [Hs1 Hs2].
  apply Z.leb_le in Hs1, Hs2.
  revert Hrun.
  intros [= <- <-]. split; [reflexivity|].
  assert (len (firstn (Z.to_nat (len mac - 2)) digest) = len mac - 2) as Hlen.
  { unfold len in *. rewrite length_firstn. lia. }
  assert (Z.to_nat p < 8)%nat as Hlt.
  { change 8%nat with (length macVarbinds).
    apply (proj1 (nth_error_Some macVarbinds (Z.to_nat p))).
    rewrite Hmac. discriminate. }
  assert (exists n, Z.to_nat p = n /\ (n < 8)%nat) as (n & Hn & Hn8) by eauto.
  rewrite Hn in Hmac |- *.
  assert (p = Z.of_nat n) as Hpn by lia.
  destruct n as [|[|[|[|[|[|[|[|n]]]]]]]]; try lia;
    simpl in Hmac; injection Hmac as <-;
    try (unfold len in Hs1; simpl in Hs1; lia);
    (split; [unfold NoAuth, SHA512; lia|]);
    (eexists; split; [reflexivity|]); rewrite Hlen; split; reflexivity.
Qed.

(** X13. Whenever [calcPacketDigest] returns, it returns no error, the
    protocol is one of NoAuth..SHA512 and the digest has exactly the
    length of the MAC in that protocol's placeholder: 0, 12, 12, 16, 24,
    32 and 48 bytes. *)
Theorem calcPacketDigest_length (packetBytes : list byte)
    (secParams : UsmSecurityParameters) (d : list byte) (err : option error) :
  calcPacketDigest packetBytes secParams = Done (d, err) ->
  err = None
  /\ NoAuth <= AuthenticationProtocol secParams <= SHA512
  /\ exists mac,
       macVarbind (AuthenticationProtocol secParams) = Some mac
       /\ len d = len mac - 2
       /\ len d = nth (Z.to_nat (AuthenticationProtocol secParams))
                    [0; 0; 12; 12; 16; 24; 32; 48] 0.
Proof. apply calcPacketDigest_shape. Qed.

(** X14. For a parameter block whose protocol is NoAuth no key and no hash
    take part: [isAuthentic] answers true for any packet bytes, provided
    the user names agree and the received AuthenticationParameters are
    empty, and false when they are not empty. *)
Theorem isAuthentic_without_protocol (sp ps : loc) (packetBytes : list byte)
    (packet : SnmpPacket) (h : gmap loc UsmSecurityParameters)
    (pu su : UsmSecurityParameters) :
  SecurityParameters packet = UsmPtr ps ->
  h !! ps = Some pu -> h !! sp = Some su ->
  UserName pu = UserName su ->
  AuthenticationProtocol pu = NoAuth ->
  isAuthentic sp packetBytes packet h
  = Done ((String.eqb (AuthenticationParameters pu) "", None), h).
Proof.
  intros Hptr Hps Hsp Hname Hproto.
  unfold isAuthentic. rewrite Hptr. cbn [castUsmSecParams].
  unfold bind, load. rewrite Hps, Hsp, Hname, String.eqb_refl. cbn [negb].
  unfold calcPacketDigest. rewrite Hproto. cbn.
  destruct (AuthenticationParameters pu); reflexivity.
Qed.

(** *** Signing *)

Lemma bytesHasPrefix_app (s sep : list byte) :
  bytesHasPrefix s sep = true <-> exists rest, s = sep ++ rest.
Proof.
  revert s. induction sep as [|b sep IH]; intros s.
  - split; [intros _; exists s; reflexivity | destruct s; reflexivity].
  - destruct s as [|a s]; cbn [bytesHasPrefix].
    + split; [discriminate | intros [rest E]; discriminate E].
    + rewrite andb_true_iff, IH. split.
      * intros [E [rest ->]]. apply Byte.byte_dec_bl in E. subst a.
        exists rest. reflexivity.
      * intros [rest E]. injection E as -> ->.
        split; [apply Byte.byte_dec_lb; reflexivity | eauto].
Qed.

(** [bytes.Index] either finds nothing, or points at an occurrence. *)
Lemma IndexFrom_cases (sep s : list byte) :
  forall i,
  (IndexFrom i s sep = -1 /\ forall pre post, s <> pre ++ sep ++ post)
  \/ exists pre post, s = pre ++ sep ++ post /\ IndexFrom i s sep = i + len pre.
Proof.
  induction s as [|a s IH]; intros i.
  - cbn [IndexFrom]. destruct (bytesHasPrefix [] sep) eqn:Hp.
    + right. apply bytesHasPrefix_app in Hp as [rest Hp].
      exists [], rest. split; [exact Hp | unfold len; simpl; lia].
    + left. split; [reflexivity|]. intros pre post E.
      destruct pre; [|discriminate E].
      assert (bytesHasPrefix [] sep = true)
        by (apply bytesHasPrefix_app; exists post; exact E).
      congruence.
  - cbn [IndexFrom]. destruct (bytesHasPrefix (a :: s) sep) eqn:Hp.
    + right. apply bytesHasPrefix_app in Hp as [rest Hp].
      exists [], rest. split; [exact Hp | unfold len; simpl; lia].
    + destruct (IH (i + 1)) as [[Hnone Hno] | (pre & post & Hs & Hidx)].
      * left. split; [exact Hnone|]. intros pre post E.
        destruct pre as [|b pre].
        -- assert (bytesHasPrefix (a :: s) sep = true)
             by (apply bytesHasPrefix_app; exists post; exact E).
           congruence.
        -- injection E as _ E. exact (Hno pre post E).
      * right. exists (a :: pre), post. split; [rewrite Hs; reflexivity|].
        rewrite Hidx. unfold len. simpl length. lia.
Qed.

(** Copying over the middle of a buffer something of the same length. *)
Lemma copyInto_middle (pre mid post src : list byte) :
  length src = length mid ->
  copyInto (pre ++ mid ++ post) (len pre) (len pre + len mid) src
  = Done (pre ++ src ++ post).
Proof.
  intros Hlen. unfold copyInto, len. rewrite !length_app.
  assert ((0 <=? Z.of_nat (length pre))
          && (Z.of_nat (length pre)
              <=? Z.of_nat (length pre) + Z.of_nat (length mid))
          && (Z.of_nat (length pre) + Z.of_nat (length mid)
              <=? Z.of_nat (length pre + (length mid + length post))%nat)
          = true) as ->.
  { rewrite !andb_true_iff, !Z.leb_le. lia. }
  rewrite Nat2Z.id.
  replace (Z.to_nat (Z.of_nat (length pre) + Z.of_nat (length mid)
                     - Z.of_nat (length pre))) with (length mid) by lia.
  replace (Z.to_nat (Z.of_nat (length pre) + Z.of_nat (length mid)))
    with (length pre + length mid)%nat by lia.
  assert (firstn (length pre) (pre ++ mid ++ post) = pre) as ->
    by apply take_app_length.
  assert (skipn (length pre) (pre ++ mid ++ post) = mid ++ post) as ->
    by apply drop_app_length.
  assert (firstn (length mid) (mid ++ post) = mid) as ->
    by apply take_app_length.
  assert (skipn (length pre + length mid) (pre ++ mid ++ post) = post) as ->.
  { rewrite <- drop_drop, drop_app_length. apply drop_app_length. }
  unfold copy. rewrite <- Hlen, firstn_all, Hlen, skipn_all, app_nil_r.
  reflexivity.
Qed.

(** What [authenticate] writes, and how blanking undoes it. *)
Lemma authenticate_roundtrip_core (sp : UsmSecurityParameters)
    (packet pre mac post d : list byte) :
  calcPacketDigest packet sp = Done (d, None) ->
  macVarbind (AuthenticationProtocol sp) = Some mac ->
  packet = pre ++ mac ++ post ->
  Index packet mac = len pre ->
  let signed := pre ++ firstn 2 mac ++ d ++ post in
  authenticate sp packet = Done (None, signed)
  /\ length signed = length packet
  /\ blankAuthenticationParameters (AuthenticationProtocol sp) signed (len pre)
     = Done packet.
Proof.
  intros Hd Hmac Hpacket Hidx signed.
  destruct (calcPacketDigest_shape packet sp d None Hd)
    as (_ & _ & mac' & Hmac' & Hlen & _).
  rewrite Hmac in Hmac'. injection Hmac' as <-.
  assert (mac = firstn 2 mac ++ skipn 2 mac) as Hsplit
    by (symmetry; apply firstn_skipn).
  assert (length (firstn 2 mac) = 2%nat) as H2
    by (rewrite length_firstn; unfold len in Hlen; lia).
  assert (length (skipn 2 mac) = length d) as Hz
    by (rewrite length_skipn; unfold len in Hlen; lia).
  assert (len (pre ++ firstn 2 mac) = len pre + 2) as Hpre2
    by (unfold len; rewrite length_app, H2; lia).
  assert (len pre + len mac = len (pre ++ firstn 2 mac) + len (skipn 2 mac))
    as Hend by (unfold len in *; rewrite length_app, H2, Hz; lia).
  assert (packet = (pre ++ firstn 2 mac) ++ skipn 2 mac ++ post) as Hpacket'.
  { rewrite Hpacket, Hsplit at 1. rewrite <- !app_assoc. reflexivity. }
  assert (signed = (pre ++ firstn 2 mac) ++ d ++ post) as Hsigned
    by (subst signed; rewrite <- !app_assoc; reflexivity).
  split; [|split].
  - unfold authenticate. rewrite Hd, Hmac, Hidx.
    assert ((len pre <? 0) = false) as -> by (apply Z.ltb_ge; unfold len; lia).
    rewrite Hend, <- Hpre2, Hpacket' at 1.
    rewrite copyInto_middle by (symmetry; exact Hz).
    rewrite Hsigned. reflexivity.
  - rewrite Hsigned, Hpacket'. rewrite !length_app. lia.
  - unfold blankAuthenticationParameters. rewrite Hmac.
    unfold slice_from.
    assert ((0 <=? 2) && (2 <=? len mac) = true) as ->
      by (rewrite andb_true_iff, !Z.leb_le; unfold len in *; lia).
    change (Z.to_nat 2) with 2%nat.
    rewrite Hend, <- Hpre2, Hsigned.
    replace (len (skipn 2 mac)) with (len d) by (unfold len; lia).
    rewrite copyInto_middle by exact Hz.
    rewrite <- Hpacket'. reflexivity.
Qed.

(** X15. When the placeholder of the protocol's MAC is in the packet and
    [bytes.Index] finds it, [authenticate] overwrites exactly the zero
    bytes of the placeholder with the digest of the packet: the length is
    kept, the bytes before and after and the two header bytes are kept,
    and blanking the MAC again, as the receiving side does before it
    recomputes the digest, gives back the packet that was digested. *)
Theorem authenticate_fills_placeholder (sp : UsmSecurityParameters)
    (packet pre mac post d : list byte) :
  calcPacketDigest packet sp = Done (d, None) ->
  macVarbind (AuthenticationProtocol sp) = Some mac ->
  packet = pre ++ mac ++ post ->
  Index packet mac = len pre ->
  let signed := pre ++ firstn 2 mac ++ d ++ post in
  authenticate sp packet = Done (None, signed)
  /\ length signed = length packet
  /\ blankAuthenticationParameters (AuthenticationProtocol sp) signed (len pre)
     = Done packet.
Proof. apply authenticate_roundtrip_core. Qed.

(** X16. When the placeholder is nowhere in the packet, [authenticate]
    fails with "unable to locate the position in packet to write
    authentication key" and leaves the packet as it was. *)
Theorem authenticate_without_placeholder (sp : UsmSecurityParameters)
    (packet mac d : list byte) :
  calcPacketDigest packet sp = Done (d, None) ->
  macVarbind (AuthenticationProtocol sp) = Some mac ->
  (forall pre post, packet <> pre ++ mac ++ post) ->
  authenticate sp packet
  = Done (Some "unable to locate the position in packet to write authentication key",
          packet).
Proof.
  intros Hd Hmac Hno. unfold authenticate, Index. rewrite Hd, Hmac.
  destruct (IndexFrom_cases mac packet 0) as [[-> _] | (pre & post & E & _)].
  - reflexivity.
  - exfalso. exact (Hno pre post E).
Qed.

(** The digest depends on the protocol and the secret key of the block
    only. *)
Lemma calcPacketDigest_ext (packetBytes : list byte)
    (u u' : UsmSecurityParameters) :
  AuthenticationProtocol u = AuthenticationProtocol u' ->
  SecretKey u = SecretKey u' ->
  calcPacketDigest packetBytes u = calcPacketDigest packetBytes u'.
Proof. intros Hp Hk. unfold calcPacketDigest. rewrite Hp, Hk. reflexivity. Qed.

(** X17. Signing and verifying agree: when the receiver holds the same
    protocol, secret key and user name, has read the MAC that
    [authenticate] wrote into its AuthenticationParameters and has
    blanked it in the packet bytes, [isAuthentic] answers true. *)
Theorem sign_then_verify (sender : UsmSecurityParameters)
    (packet pre mac post d : list byte)
    (sp ps : loc) (received : SnmpPacket)
    (h : gmap loc UsmSecurityParameters) (pu su : UsmSecurityParameters) :
  calcPacketDigest packet sender = Done (d, None) ->
  macVarbind (AuthenticationProtocol sender) = Some mac ->
  packet = pre ++ mac ++ post ->
  Index packet mac = len pre ->
  SecurityParameters received = UsmPtr ps ->
  h !! ps = Some pu -> h !! sp = Some su ->
  UserName pu = UserName su ->
  AuthenticationProtocol pu = AuthenticationProtocol sender ->
  SecretKey pu = SecretKey sender ->
  AuthenticationParameters pu = string_of_list_byte d ->
  exists signed blanked,
    authenticate sender packet = Done (None, signed)
    /\ signed = pre ++ firstn 2 mac ++ d ++ post
    /\ blankAuthenticationParameters (AuthenticationProtocol pu) signed (len pre)
       = Done blanked
    /\ isAuthentic sp blanked received h = Done ((true, None), h).
Proof.
  intros Hd Hmac Hpacket Hidx Hptr Hps Hsp Hname Hproto Hkey Hparams.
  destruct (authenticate_roundtrip_core sender packet pre mac post d
              Hd Hmac Hpacket Hidx) as (Hsign & _ & Hblank).
  eexists _, packet. split; [exact Hsign|]. split; [reflexivity|].
  rewrite Hproto. split; [exact Hblank|].
  unfold isAuthentic. rewrite Hptr. cbn [castUsmSecParams].
  unfold bind, load. rewrite Hps, Hsp, Hname, String.eqb_refl. cbn [negb].
  rewrite (calcPacketDigest_ext packet pu sender Hproto Hkey), Hd.
  rewrite Hparams, list_byte_of_string_of_list_byte.
  unfold ConstantTimeCompare.
  assert (bytes_eqb d d = true) as -> by (apply bytes_eqb_eq; reflexivity).
  reflexivity.
Qed.

End cache.

(** *** Privacy *)

Lemma length_copy (dst src : list byte) : length (copy dst src) = length dst.
Proof. unfold copy. rewrite length_app, length_firstn, length_skipn. lia. Qed.

Lemma copy_fill (dst src : list byte) :
  length src = length dst -> copy dst src = src.
Proof.
  intros Hlen. unfold copy.
  rewrite <- Hlen, firstn_all, Hlen, skipn_all, app_nil_r. reflexivity.
Qed.

Lemma copy_front (dst src : list byte) :
  (length src <= length dst)%nat ->
  copy dst src = src ++ skipn (length src) dst.
Proof. intros Hlen. unfold copy. rewrite firstn_all2 by lia. reflexivity. Qed.

Lemma slice_from_app (a b : list byte) : slice_from (a ++ b) (len a) = Done b.
Proof.
  unfold slice_from, len. rewrite length_app.
  assert ((0 <=? Z.of_nat (length a))
          && (Z.of_nat (length a) <=? Z.of_nat (length a + length b)%nat)
          = true) as -> by (rewrite andb_true_iff, !Z.leb_le; lia).
  rewrite Nat2Z.id, drop_app_length. reflexivity.
Qed.

Lemma slice_to_app (a b : list byte) : slice_to (a ++ b) (len a) = Done a.
Proof.
  unfold slice_to, len. rewrite length_app.
  assert ((0 <=? Z.of_nat (length a))
          && (Z.of_nat (length a) <=? Z.of_nat (length a + length b)%nat)
          = true) as -> by (rewrite andb_true_iff, !Z.leb_le; lia).
  rewrite Nat2Z.id, take_app_length. reflexivity.
Qed.

(** Writing a plaintext as long as the ciphertext over the start of what
    follows the cursor. *)
Lemma installPlaintext_run (pre rest ciphertext decrypted : list byte) :
  length decrypted = length ciphertext ->
  (length decrypted <= length rest)%nat ->
  installPlaintext (pre ++ rest) (len pre) ciphertext decrypted
  = Done (pre ++ decrypted, None,
          pre ++ decrypted ++ skipn (length decrypted) rest).
Proof.
  intros Hlen Hfit. unfold installPlaintext. cbv zeta.
  rewrite (copy_fill (repeat x00 (length ciphertext)) decrypted)
    by (rewrite repeat_length; exact Hlen).
  assert (Z.to_nat (len pre) = length pre) as -> by (unfold len; lia).
  rewrite take_app_length, drop_app_length.
  rewrite (copy_front rest decrypted Hfit).
  assert (len pre + len decrypted = len (pre ++ decrypted)) as ->
    by (unfold len; rewrite length_app; lia).
  rewrite (app_assoc pre decrypted), slice_to_app, <- app_assoc.
  reflexivity.
Qed.

Section privacy.
Context `{Primitives} `{Encoders}.

(** X18. With DES, a ciphertext that [encryptPacket] returns is wrapped
    as the OctetString tag, the length octets of [marshalLength] and the
    ciphertext; the ciphertext is a whole number of 8-byte blocks and is
    between 1 and 8 bytes longer than the scoped PDU: a PDU that already
    fills its blocks gets a whole block of padding. *)
Theorem des_encrypt_pads (sp : UsmSecurityParameters)
    (scopedPdu out : list byte) :
  PrivacyProtocol sp = DES ->
  encryptPacket sp scopedPdu = Done (out, None) ->
  exists pduLen ciphertext,
    out = OctetString_tag :: pduLen ++ ciphertext
    /\ marshalLength (len ciphertext) = (pduLen, None)
    /\ len ciphertext mod 8 = 0
    /\ len scopedPdu < len ciphertext <= len scopedPdu + 8.
Proof.
  intros Hpp Hrun. unfold encryptPacket in Hrun. rewrite Hpp in Hrun.
  assert (isAESFamily DES = false) as E by reflexivity.
  rewrite E, Z.eqb_refl in Hrun.
  destruct (slice_from (PrivacyKey sp) 8) as [preiv|]; [|discriminate Hrun].
  destruct (desIV 8 preiv (PrivacyParameters sp)) as [iv|];
    [|discriminate Hrun].
  destruct (des_NewCipher (firstn 8 (PrivacyKey sp))); [discriminate Hrun|].
  unfold wrapCiphertext in Hrun.
  destruct (marshalLength _) as [pduLen [e|]] eqn:Hml; [discriminate Hrun|].
  injection Hrun as <-.
  eexists _, _. split; [reflexivity|]. split; [exact Hml|].
  unfold len. rewrite length_copy, repeat_length, length_app, repeat_length.
  unfold des_BlockSize, len.
  rewrite Z.rem_mod_nonneg by lia.
  pose proof (Z.mod_pos_bound (Z.of_nat (length scopedPdu)) 8 ltac:(lia)).
  rewrite Nat2Z.inj_add, Z2Nat.id by lia.
  split; [|lia].
  replace (Z.of_nat (length scopedPdu)
           + (8 - Z.of_nat (length scopedPdu) mod 8))
    with (Z.of_nat (length scopedPdu) - Z.of_nat (length scopedPdu) mod 8
          + 1 * 8) by lia.
  rewrite Z.mod_add by lia. rewrite Zminus_mod_idemp_r, Z.sub_diag.
  reflexivity.
Qed.

(** X19. Decryption undoes encryption.  When the two directions of each
    cipher are inverse and keep lengths, and [parseLength] reads back the
    length octets that [marshalLength] writes, then [decryptPacket], with
    the same parameter block, on a packet that is a header followed by
    what [encryptPacket] returned, with the cursor after the header,
    returns the header followed by the scoped PDU, after which DES leaves
    the zero padding of one to eight bytes. *)
Theorem encrypt_then_decrypt (sp : UsmSecurityParameters)
    (scopedPdu out pre : list byte) :
  (forall key iv src,
     aes_cfb_decrypt key iv (aes_cfb_encrypt key iv src) = src
     /\ length (aes_cfb_encrypt key iv src) = length src) ->
  (forall key iv src,
     des_cbc_decrypt key iv (des_cbc_encrypt key iv src) = src
     /\ length (des_cbc_encrypt key iv src) = length src) ->
  (forall body pduLen,
     marshalLength (len body) = (pduLen, None) ->
     exists n,
       parseLength (OctetString_tag :: pduLen ++ body)
       = (n, 1 + len pduLen, None)) ->
  isAESFamily (PrivacyProtocol sp) = true \/ PrivacyProtocol sp = DES ->
  encryptPacket sp scopedPdu = Done (out, None) ->
  let plaintext :=
    if isAESFamily (PrivacyProtocol sp) then scopedPdu
    else scopedPdu
         ++ repeat x00 (Z.to_nat (8 - len scopedPdu mod 8)) in
  decryptPacket sp (pre ++ out) (len pre)
  = Done (pre ++ plaintext, None,
          pre ++ plaintext ++ skipn (length plaintext) out).
Proof.
  intros Haes Hdes Hparse Hpp Hrun plaintext.
  assert (forall pduLen ciphertext decrypted n,
            out = OctetString_tag :: pduLen ++ ciphertext ->
            length decrypted = length ciphertext ->
            slice_from (pre ++ out) (n + len pre) = Done ciphertext
            -> n = 1 + len pduLen ->
            (n + len pre >? len (pre ++ out)) = false
            /\ installPlaintext (pre ++ out) (len pre) ciphertext decrypted
               = Done (pre ++ decrypted, None,
                       pre ++ decrypted ++ skipn (length decrypted) out))
    as Hinstall.
  { intros pduLen ciphertext decrypted n Hout Hlen _ Hn. split.
    - rewrite Z.gtb_ltb. apply Z.ltb_ge. subst out n. unfold len.
      rewrite !length_app. cbn [length]. rewrite length_app. lia.
    - apply installPlaintext_run; [exact Hlen|].
      subst out. cbn [length]. rewrite length_app. lia. }
  assert (forall pduLen ciphertext,
            out = OctetString_tag :: pduLen ++ ciphertext ->
            slice_from (pre ++ out) (1 + len pduLen + len pre)
            = Done ciphertext) as Hslice.
  { intros pduLen ciphertext Hout. subst out.
    replace (1 + len pduLen + len pre)
      with (len (pre ++ OctetString_tag :: pduLen))
      by (unfold len; rewrite length_app; cbn [length]; lia).
    replace (pre ++ OctetString_tag :: pduLen ++ ciphertext)
      with ((pre ++ OctetString_tag :: pduLen) ++ ciphertext)
      by (rewrite <- app_assoc; reflexivity).
    apply slice_from_app. }
  unfold encryptPacket in Hrun. unfold decryptPacket.
  rewrite slice_from_app.
  destruct (isAESFamily (PrivacyProtocol sp)) eqn:Efam.
  - destruct (aes_NewCipher (PrivacyKey sp)) eqn:Hc; [discriminate Hrun|].
    unfold wrapCiphertext in Hrun.
    destruct (marshalLength _) as [pduLen [e|]] eqn:Hml; [discriminate Hrun|].
    injection Hrun as Hout. symmetry in Hout.
    destruct (Haes (PrivacyKey sp) (aesIV sp) scopedPdu) as [Hinv Hlen].
    rewrite (copy_fill _ _) in Hout, Hml
      by (rewrite repeat_length; exact Hlen).
    destruct (Hparse _ _ Hml) as [n Hp]. rewrite <- Hout in Hp. rewrite Hp.
    rewrite (Hslice _ _ Hout).
    destruct (Hinstall pduLen _ scopedPdu (1 + len pduLen) Hout
                (eq_sym Hlen) (Hslice _ _ Hout) eq_refl) as [-> Hi].
    rewrite Hinv. exact Hi.
  - destruct Hpp as [Hpp | Hpp]; [discriminate Hpp|].
    rewrite Hpp, Z.eqb_refl in Hrun. rewrite Hpp, Z.eqb_refl.
    destruct (slice_from (PrivacyKey sp) 8) as [preiv|]; [|discriminate Hrun].
    destruct (desIV 8 preiv (PrivacyParameters sp)) as [iv|];
      [|discriminate Hrun].
    destruct (des_NewCipher (firstn 8 (PrivacyKey sp))) eqn:Hc;
      [discriminate Hrun|].
    unfold wrapCiphertext in Hrun.
    destruct (marshalLength _) as [pduLen [e|]] eqn:Hml; [discriminate Hrun|].
    injection Hrun as Hout. symmetry in Hout.
    assert (des_BlockSize - Z.rem (len scopedPdu) des_BlockSize
            = 8 - len scopedPdu mod 8) as Hpad
      by (unfold des_BlockSize, len; rewrite Z.rem_mod_nonneg by lia;
          reflexivity).
    rewrite Hpad in Hout, Hml. subst plaintext. cbv iota.
    set (padded := scopedPdu ++ repeat x00 (Z.to_nat (8 - len scopedPdu mod 8)))
      in *.
    destruct (Hdes (firstn 8 (PrivacyKey sp)) iv padded) as [Hinv Hlen].
    rewrite (copy_fill _ _) in Hout, Hml
      by (rewrite repeat_length; exact Hlen).
    destruct (Hparse _ _ Hml) as [n Hp]. rewrite <- Hout in Hp. rewrite Hp.
    rewrite (Hslice _ _ Hout).
    destruct (Hinstall pduLen _ padded (1 + len pduLen) Hout
                (eq_sym Hlen) (Hslice _ _ Hout) eq_refl) as [-> Hi].
    assert (Z.rem (len (des_cbc_encrypt (firstn 8 (PrivacyKey sp)) iv
                          padded)) des_BlockSize = 0) as ->.
    { unfold len. rewrite Hlen. subst padded.
      rewrite length_app, repeat_length. unfold des_BlockSize, len.
      rewrite Z.rem_mod_nonneg by lia.
      pose proof (Z.mod_pos_bound (Z.of_nat (length scopedPdu)) 8 ltac:(lia)).
      rewrite Nat2Z.inj_add, Z2Nat.id by lia.
      replace (Z.of_nat (length scopedPdu)
               + (8 - Z.of_nat (length scopedPdu) mod 8))
        with (Z.of_nat (length scopedPdu)
              - Z.of_nat (length scopedPdu) mod 8 + 1 * 8) by lia.
      rewrite Z.mod_add by lia. rewrite Zminus_mod_idemp_r, Z.sub_diag.
      reflexivity. }
    cbn [Z.eqb negb]. rewrite Hinv. exact Hi.
Qed.

End privacy.

(** *** Salts across packets *)

Lemma PutUint64_inj (a b : Z) :
  PutUint64 a = PutUint64 b -> a mod 2 ^ 64 = b mod 2 ^ 64.
Proof.
  intros E. rewrite <- (proj2 (PutUint64_bigEndian a)),
              <- (proj2 (PutUint64_bigEndian b)), E. reflexivity.
Qed.

Lemma PutUint32_inj (a b : Z) :
  PutUint32 a = PutUint32 b -> a mod 2 ^ 32 = b mod 2 ^ 32.
Proof.
  intros E. rewrite <- (proj2 (PutUint32_bigEndian a)),
              <- (proj2 (PutUint32_bigEndian b)), E. reflexivity.
Qed.

(** One [InitPacket] on a packet that carries the session's own block
    and asks for privacy. *)
Lemma InitPacket_own_block (sp : loc) (u : UsmSecurityParameters)
    (h : gmap loc UsmSecurityParameters) (packet : SnmpPacket) :
  h !! sp = Some u ->
  AuthNoPriv < Z.land (MsgFlags packet) AuthPriv ->
  SecurityParameters packet = UsmPtr sp ->
  let u' :=
    if isAESFamily (PrivacyProtocol u) then
      set_PrivacyParameters (PutUint64 (AddUint64 (localAESSalt u) 1))
        (set_localAESSalt (AddUint64 (localAESSalt u) 1) u)
    else
      set_PrivacyParameters
        (PutUint32 (AuthoritativeEngineBoots u)
         ++ PutUint32 (AddUint32 (localDESSalt u) 1))
        (set_localDESSalt (AddUint32 (localDESSalt u) 1) u) in
  InitPacket sp packet h = Done (None, <[sp := u']> h).
Proof.
  intros Hsp Hflags Hptr u'. unfold InitPacket, bind, usmAllocateNewSalt, bind,
    load, store, ret. rewrite Hsp.
  assert ((Z.land (MsgFlags packet) AuthPriv >? AuthNoPriv) = true) as Hgt
    by (rewrite Z.gtb_ltb; apply Z.ltb_lt; exact Hflags).
  subst u'. destruct (isAESFamily (PrivacyProtocol u)) eqn:Efam.
  - rewrite Hgt, Hptr. cbn [castUsmSecParams].
    unfold usmSetSalt, bind, load, store, ret.
    rewrite lookup_insert_eq. 
    assert (isAESFamily (PrivacyProtocol (set_localAESSalt
              (AddUint64 (localAESSalt u) 1) u)) = true) as ->
      by (destruct u; exact Efam).
    rewrite insert_insert_eq. reflexivity.
  - rewrite Hgt, Hptr. cbn [castUsmSecParams].
    unfold usmSetSalt, bind, load, store, ret.
    rewrite lookup_insert_eq.
    assert (isAESFamily (PrivacyProtocol (set_localDESSalt
              (AddUint32 (localDESSalt u) 1) u)) = false) as ->
      by (destruct u; exact Efam).
    rewrite insert_insert_eq. destruct u; reflexivity.
Qed.

(** X20. Two packets in a row never carry the same salt: after two
    successive calls of [InitPacket] on packets that ask for privacy and
    carry the session's own parameter block, the PrivacyParameters
    installed by the second call differ from those installed by the
    first, also when the counter wraps around. *)
Theorem consecutive_salts_differ (sp : loc) (u : UsmSecurityParameters)
    (h : gmap loc UsmSecurityParameters) (packet1 packet2 : SnmpPacket) :
  h !! sp = Some u ->
  AuthNoPriv < Z.land (MsgFlags packet1) AuthPriv ->
  AuthNoPriv < Z.land (MsgFlags packet2) AuthPriv ->
  SecurityParameters packet1 = UsmPtr sp ->
  SecurityParameters packet2 = UsmPtr sp ->
  exists h1 h2 u1 u2,
    InitPacket sp packet1 h = Done (None, h1)
    /\ InitPacket sp packet2 h1 = Done (None, h2)
    /\ h1 !! sp = Some u1 /\ h2 !! sp = Some u2
    /\ PrivacyParameters u1 <> PrivacyParameters u2.
Proof.
  intros Hsp Hf1 Hf2 Hp1 Hp2.
  pose proof (InitPacket_own_block sp u h packet1 Hsp Hf1 Hp1) as H1.
  cbv zeta in H1.
  set (u1 := if isAESFamily (PrivacyProtocol u) then _ else _) in H1.
  assert (<[sp := u1]> h !! sp = Some u1) as Hsp1 by apply lookup_insert_eq.
  pose proof (InitPacket_own_block sp u1 _ packet2 Hsp1 Hf2 Hp2) as H2.
  cbv zeta in H2.
  set (u2 := if isAESFamily (PrivacyProtocol u1) then _ else _) in H2.
  exists (<[sp := u1]> h), (<[sp := u2]> (<[sp := u1]> h)), u1, u2.
  split; [exact H1|]. split; [exact H2|]. split; [exact Hsp1|].
  split; [apply lookup_insert_eq|].
  subst u2 u1. destruct u as [aesSalt desSalt eid boots time name ap pp' a p
                               apass ppass sk pk].
  cbn [PrivacyProtocol localAESSalt localDESSalt AuthoritativeEngineBoots
       set_localAESSalt set_localDESSalt set_PrivacyParameters].
  destruct (isAESFamily p) eqn:Efam;
    cbn [PrivacyProtocol localAESSalt localDESSalt AuthoritativeEngineBoots
         set_localAESSalt set_localDESSalt set_PrivacyParameters
         PrivacyParameters]; rewrite Efam;
    cbn [PrivacyProtocol localAESSalt localDESSalt AuthoritativeEngineBoots
         set_localAESSalt set_localDESSalt set_PrivacyParameters
         PrivacyParameters].
  - intros E. apply PutUint64_inj in E. unfold AddUint64 in E.
    change (2 ^ 64) with 18446744073709551616 in E.
    revert E. Z.div_mod_to_equations. lia.
  - intros E. apply app_inv_head in E. apply PutUint32_inj in E.
    unfold AddUint32 in E. change (2 ^ 32) with 4294967296 in E.
    revert E. Z.div_mod_to_equations. lia.
Qed.

(** X21. [InitPacket] on a packet that asks for privacy but whose
    security parameters are not a USM block fails with the cast's error,
    and on one whose block is of the other privacy family fails with
    [usmSetSalt]'s type error; in both cases the session's salt counter
    has been advanced all the same and no PrivacyParameters are written. *)
Theorem InitPacket_failure_keeps_counter_advanced (sp : loc)
    (u : UsmSecurityParameters) (h : gmap loc UsmSecurityParameters)
    (packet : SnmpPacket) :
  h !! sp = Some u ->
  AuthNoPriv < Z.land (MsgFlags packet) AuthPriv ->
  let aes := isAESFamily (PrivacyProtocol u) in
  let u' := if aes then set_localAESSalt (AddUint64 (localAESSalt u) 1) u
            else set_localDESSalt (AddUint32 (localDESSalt u) 1) u in
  let h' := <[sp := u']> h in
  ((forall s, SecurityParameters packet <> UsmPtr s) ->
   InitPacket sp packet h
   = Done (Some "param SnmpV3SecurityParameters is not of type *UsmSecurityParameters",
           h'))
  /\ (forall s us,
        SecurityParameters packet = UsmPtr s ->
        h' !! s = Some us ->
        isAESFamily (PrivacyProtocol us) = negb aes ->
        InitPacket sp packet h
        = Done (Some (if aes
                      then "salt provided to usmSetSalt is not the correct type for the DES privacy protocol"
                      else "salt provided to usmSetSalt is not the correct type for the AES privacy protocol"),
                h')).
Proof.
  intros Hsp Hflags aes u' h'.
  assert ((Z.land (MsgFlags packet) AuthPriv >? AuthNoPriv) = true) as Hgt
    by (rewrite Z.gtb_ltb; apply Z.ltb_lt; exact Hflags).
  assert (usmAllocateNewSalt sp h
          = Done (if aes then SaltUint64 (AddUint64 (localAESSalt u) 1)
                  else SaltUint32 (AddUint32 (localDESSalt u) 1), h'))
    as Halloc.
  { unfold usmAllocateNewSalt, bind, load, store, ret. rewrite Hsp.
    subst h' u' aes. destruct (isAESFamily (PrivacyProtocol u)); reflexivity. }
  split.
  - intros Hnone. unfold InitPacket, bind. rewrite Halloc, Hgt.
    destruct (SecurityParameters packet) as [s| |];
      [exfalso; exact (Hnone s eq_refl) | reflexivity | reflexivity].
  - intros s us Hptr Hs Hfam. unfold InitPacket, bind.
    rewrite Halloc, Hgt, Hptr. cbn [castUsmSecParams].
    unfold usmSetSalt, bind, load, ret. rewrite Hs, Hfam.
    destruct aes; reflexivity.
Qed.

(** *** Switching the cache *)

(** X22. Switching the password cache off drops the map, and switching
    it on again starts from an empty map, the state the package starts
    in: every key cached before is gone, and a lookup misses.  Switching
    the cache on while it is on keeps the entries, and switching it off
    twice is the same as once. *)
Theorem PasswordCaching_resets (g : Globals) (k : string) :
  passwordKeyHashCache (PasswordCaching false g) = None
  /\ PasswordCaching true (PasswordCaching false g) = initialGlobals
  /\ cacheRead k (PasswordCaching true (PasswordCaching false g))
     = Done (None, initialGlobals)
  /\ (passwordCacheDisable g = false -> PasswordCaching true g = g)
  /\ PasswordCaching false (PasswordCaching false g) = PasswordCaching false g.
Proof.
  assert (PasswordCaching true (PasswordCaching false g) = initialGlobals)
    as Hreset by reflexivity.
  split; [reflexivity|]. split; [exact Hreset|]. split.
  - rewrite Hreset. unfold cacheRead, initialGlobals.
    cbn [passwordKeyHashCache]. rewrite lookup_empty. reflexivity.
  - split; [|reflexivity].
    intros Hon. destruct g as [cache disable]. cbn in Hon. subst disable.
    reflexivity.
Qed.

(** *** The theorems at work *)

Import Fixtures Scenarios.

Lemma cacheKey_distinguishes_witness :
  cacheKey MD5 "maplesyrup" initialGlobals
  = Done (keyOf MD5 "maplesyrup", initialGlobals)
  /\ MD5 = MD5 /\ "maplesyrup" = "maplesyrup".
Proof.
  assert (cacheKey MD5 "maplesyrup" initialGlobals
          = Done (keyOf MD5 "maplesyrup", initialGlobals)) as Hk
    by reflexivity.
  split; [exact Hk|].
  refine (cacheKey_distinguishes MD5 MD5 "maplesyrup" "maplesyrup"
            initialGlobals initialGlobals initialGlobals
            (keyOf MD5 "maplesyrup") _ _ _ Hk Hk).
  - reflexivity.
  - unfold is_uint8, MD5. lia.
  - unfold is_uint8, MD5. lia.
Defined.

Lemma cache_fills_once_witness :
  exists k g',
    genlocalkey SHA "maplesyrup" "engine" initialGlobals = Done (k, g')
    /\ genlocalkey SHA "maplesyrup" "engine" g' = Done (k, g')
    /\ (passwordCacheDisable initialGlobals = true /\ g' = initialGlobals
        \/ passwordCacheDisable initialGlobals = false
           /\ ("maplesyrup" = ""
               \/ exists m, passwordKeyHashCache g' = Some m
                            /\ m !! keyOf SHA "maplesyrup"
                               = Some (Ku (HashType SHA) "maplesyrup"))).
Proof.
  refine (cache_fills_once SHA "maplesyrup" "engine" initialGlobals _
            reach_init).
  unfold is_uint8, SHA. lia.
Defined.

Lemma privKey_has_cipher_length_witness :
  exists key g',
    genlocalPrivKey AES256 SHA "maplesyrup" "engine" initialGlobals
    = Done ((key, None), g')
    /\ len key = keylenOf AES256
    /\ (16 <= keylenOf AES256 <= 32).
Proof.
  refine (privKey_has_cipher_length AES256 SHA "maplesyrup" "engine"
            initialGlobals _ _ reach_init _ _).
  - intros h m. cbn [digest toy]. unfold toyDigest. cbn [length].
    rewrite length_firstn, length_app, repeat_length.
    destruct h; cbn [toySize]; lia.
  - unfold is_uint8, SHA. lia.
  - simpl. auto.
  - discriminate.
Defined.

Lemma initSecurityKeys_result_witness :
  exists g' err,
    initSecurityKeysNoLock carol initialGlobals
    = Done ((set_PrivacyKey (privacyKeyAfterInit carol)
               (set_SecretKey (secretKeyAfterInit carol) carol), err), g')
    /\ cache_ok g'
    /\ (err = None <-> privacyKeyTooShort carol = false).
Proof.
  refine (initSecurityKeys_result carol initialGlobals _ reach_init).
  unfold is_uint8. simpl. unfold SHA. lia.
Defined.

Lemma engine_change_rederives_keys_witness :
  exists g' err u',
    setSecurityParameters 5%nat (UsmPtr 6%nat) (sessions, initialGlobals)
    = Done (err, (<[5%nat := u']> sessions, g'))
    /\ AuthoritativeEngineID u' = "peer"
    /\ SecretKey u' = localizedKey SHA "maplesyrup" "peer".
Proof.
  destruct (engine_change_rederives_keys 5%nat 6%nat sessions initialGlobals
              carol peer eq_refl eq_refl
              ltac:(unfold is_uint8; simpl; unfold SHA; lia) reach_init)
    as (g' & err & u' & Hrun & Hid & Hkey & _).
  exists g', err, u'. split; [exact Hrun|]. split; [exact Hid|]. exact Hkey.
Defined.

Lemma calcPacketDigest_length_witness :
  calcPacketDigest message (signedBy "bob")
  = Done (firstn 24 (toyDigest crypto_SHA256 ([x0a; x0b] ++ message)), None)
  /\ len (firstn 24 (toyDigest crypto_SHA256 ([x0a; x0b] ++ message))) = 24.
Proof.
  assert (calcPacketDigest message (signedBy "bob")
          = Done (firstn 24 (toyDigest crypto_SHA256 ([x0a; x0b] ++ message)),
                  None)) as Hd by reflexivity.
  split; [exact Hd|].
  destruct (calcPacketDigest_length message (signedBy "bob") _ _ Hd)
    as (_ & _ & mac & _ & _ & Hlen).
  exact Hlen.
Defined.

Lemma isAuthentic_without_protocol_witness :
  isAuthentic 2%nat message (packetOf NoAuthNoPriv 5%nat) listeners
  = Done ((true, None), listeners).
Proof.
  refine (isAuthentic_without_protocol 2%nat 5%nat message
            (packetOf NoAuthNoPriv 5%nat) listeners plainUser aesUser
            _ _ _ _ _).
  all: reflexivity.
Defined.

Lemma authenticate_fills_placeholder_witness :
  authenticate signer unsigned
  = Done (None,
          [x30; x20; x04; x03; x62; x6f; x62]
          ++ [x04; byte_of_Z 24]
          ++ firstn 24 (toyDigest crypto_SHA256 ([x0a; x0b] ++ unsigned))
          ++ [x04; x00]).
Proof.
  refine (proj1 (authenticate_fills_placeholder signer unsigned
                   [x30; x20; x04; x03; x62; x6f; x62]
                   (x04 :: byte_of_Z 24 :: repeat x00 24) [x04; x00]
                   (firstn 24 (toyDigest crypto_SHA256
                                 ([x0a; x0b] ++ unsigned)))
                   _ _ _ _)).
  all: reflexivity.
Defined.

Lemma authenticate_without_placeholder_witness :
  authenticate signer message
  = Done (Some "unable to locate the position in packet to write authentication key",
          message).
Proof.
  refine (authenticate_without_placeholder signer message
            (x04 :: byte_of_Z 24 :: repeat x00 24)
            (firstn 24 (toyDigest crypto_SHA256 ([x0a; x0b] ++ message)))
            _ _ _).
  - reflexivity.
  - reflexivity.
  - intros pre post E. apply (f_equal (@length byte)) in E.
    rewrite !length_app in E. simpl in E. lia.
Defined.

Lemma sign_then_verify_witness :
  exists signed blanked,
    authenticate signer unsigned = Done (None, signed)
    /\ signed
       = [x30; x20; x04; x03; x62; x6f; x62]
         ++ firstn 2 (x04 :: byte_of_Z 24 :: repeat x00 24)
         ++ firstn 24 (toyDigest crypto_SHA256 ([x0a; x0b] ++ unsigned))
         ++ [x04; x00]
    /\ blankAuthenticationParameters (AuthenticationProtocol verified) signed
         (len [x30; x20; x04; x03; x62; x6f; x62])
       = Done blanked
    /\ isAuthentic 2%nat blanked (packetOf AuthNoPriv 6%nat) receivers
       = Done ((true, None), receivers).
Proof.
  refine (sign_then_verify signer unsigned
            [x30; x20; x04; x03; x62; x6f; x62]
            (x04 :: byte_of_Z 24 :: repeat x00 24) [x04; x00]
            (firstn 24 (toyDigest crypto_SHA256 ([x0a; x0b] ++ unsigned)))
            2%nat 6%nat (packetOf AuthNoPriv 6%nat) receivers verified aesUser
            _ _ _ _ _ _ _ _ _ _ _).
  all: reflexivity.
Defined.

Lemma des_encrypt_pads_witness :
  exists pduLen ciphertext,
    eightBytes ++ repeat x00 8 = ciphertext
    /\ OctetString_tag :: byte_of_Z 16 :: eightBytes ++ repeat x00 8
       = OctetString_tag :: pduLen ++ ciphertext
    /\ marshalLength (len ciphertext) = (pduLen, None)
    /\ len ciphertext mod 8 = 0
    /\ len eightBytes < len ciphertext <= len eightBytes + 8.
Proof.
  assert (encryptPacket dave eightBytes
          = Done (OctetString_tag :: byte_of_Z 16
                  :: eightBytes ++ repeat x00 8, None)) as Hrun
    by (vm_compute; reflexivity).
  destruct (des_encrypt_pads dave eightBytes
              (OctetString_tag :: byte_of_Z 16 :: eightBytes ++ repeat x00 8)
              eq_refl Hrun)
    as (pduLen & ciphertext & Hout & Hml & Hmod & Hlen).
  exists pduLen, ciphertext.
  assert (pduLen = [byte_of_Z (len ciphertext)]) as Hp
    by (injection Hml as <-; reflexivity).
  split; [|split; [exact Hout | split; [exact Hml | split; assumption]]].
  rewrite Hp in Hout. injection Hout as _ Hc. exact Hc.
Defined.

Lemma encrypt_then_decrypt_witness :
  decryptPacket dave
    ([x30; x0a]
     ++ OctetString_tag :: byte_of_Z 16 :: eightBytes ++ repeat x00 8)
    (len [x30; x0a])
  = Done ([x30; x0a] ++ eightBytes ++ repeat x00 8, None,
          [x30; x0a] ++ (eightBytes ++ repeat x00 8)
          ++ [x00; x00]).
Proof.
  refine (encrypt_then_decrypt dave eightBytes
            (OctetString_tag :: byte_of_Z 16 :: eightBytes ++ repeat x00 8)
            [x30; x0a] _ _ _ _ _).
  - intros key iv src. split; reflexivity.
  - intros key iv src. split; reflexivity.
  - intros body pduLen E. injection E as <-. eexists. reflexivity.
  - right. reflexivity.
  - vm_compute. reflexivity.
Defined.

Lemma consecutive_salts_differ_witness :
  exists h1 h2 u1 u2,
    InitPacket 1%nat (packetOf AuthPriv 1%nat) users = Done (None, h1)
    /\ InitPacket 1%nat (packetOf AuthPriv 1%nat) h1 = Done (None, h2)
    /\ h1 !! 1%nat = Some u1 /\ h2 !! 1%nat = Some u2
    /\ PrivacyParameters u1 <> PrivacyParameters u2.
Proof.
  refine (consecutive_salts_differ 1%nat desUser users
            (packetOf AuthPriv 1%nat) (packetOf AuthPriv 1%nat) _ _ _ _ _).
  - reflexivity.
  - vm_compute. reflexivity.
  - vm_compute. reflexivity.
  - reflexivity.
  - reflexivity.
Defined.

Lemma InitPacket_failure_keeps_counter_advanced_witness :
  InitPacket 2%nat (packetOf AuthPriv 1%nat) users
  = Done (Some "salt provided to usmSetSalt is not the correct type for the DES privacy protocol",
          <[2%nat := set_localAESSalt 259 aesUser]> users).
Proof.
  refine (proj2 (InitPacket_failure_keeps_counter_advanced 2%nat aesUser users
                   (packetOf AuthPriv 1%nat) _ _)
            1%nat desUser _ _ _).
  - reflexivity.
  - vm_compute. reflexivity.
  - reflexivity.
  - reflexivity.
  - reflexivity.
Defined.

Lemma PasswordCaching_resets_witness :
  PasswordCaching true initialGlobals = initialGlobals.
Proof.
  refine (proj1 (proj2 (proj2 (proj2
    (PasswordCaching_resets initialGlobals "")))) _).
  reflexivity.
Defined.

End USMMore.
